(** * Session lifecycle of the front-end auth service (src/libs/auth.ts)

    A shallow embedding of [AuthService] and of the parts of its host
    (JavaScript values, [JSON.parse]/[JSON.stringify], [localStorage],
    [fetch]) that decide its behaviour, and of the provider that uses
    the service (src/components/AuthProvider.tsx), followed by the
    properties of the session lifecycle, of the token-refresh protocol
    and of the provider.

    Modelling conventions.
    - A JavaScript string is a Rocq [string]: a sequence of bytes, read
      as UTF-8 text. A [\u] escape is decoded to the UTF-8 bytes of its
      code point.
    - A JavaScript number is an exact decimal [m * 10^e]; binary
      floating-point rounding is not modelled, so the model agrees with
      the host on the numbers a double represents exactly, and it does
      not tell [-0] from [0]. A numeral beyond the range of a double,
      which the host reads as Infinity and writes back as null, stays
      a number here, and one too small for a double, which the host
      reads as 0, stays different from 0. The statements about reading
      a cached value back are restricted by [finite_numerals] to the
      values that have no such numeral.
    - An object is an association list in the order of first
      definition of its properties; the host lists integer-like keys
      first. A lone surrogate in a string is written as its bytes, not
      as an escape. Both change the text of a serialised value, not the
      value read back from it.
    - Converting a value to a string cannot fail; in the host it throws
      a TypeError for an object whose own [toString] is not callable.
    - [localStorage] is a finite map from keys to strings when the code
      runs in a browser, and does not exist otherwise; a write cannot
      fail: quota errors are not modelled. The statements about
      failures are therefore about the failures named in them, not
      about a write that fails.
    - The body of a response is parsed as it is: a leading byte order
      mark, which the host drops, is a syntax error here.
    - The network is a deterministic function of the requests sent so
      far; it answers a request with a response or by failing.
    - An [async] method is a state-and-exception computation; one call
      runs to completion before the next one starts. *)

From Stdlib Require Import ZArith Lia Bool Ascii String.
From stdpp Require Import base option list strings gmap.

#[local] Set Warnings "-register-all".
Local Open Scope string_scope.
Local Open Scope Z_scope.

(** ** JavaScript values *)

Inductive JSValue : Type :=
| JUndefined
| JNull
| JBool (b : bool)
| JNum (m e : Z)
| JStr (s : string)
| JArr (xs : list JSValue)
| JObj (fields : list (string * JSValue)).

(** Exceptions the code can raise or meet. [Error msg] is
    [new Error(msg)]; [NetworkError] is the rejection of [fetch]. *)
Inductive Exn : Type :=
| Error (msg : string)
| TypeError
| SyntaxError
| ReferenceError
| NetworkError.

Inductive Result (A : Type) : Type :=
| Ok (a : A)
| Throw (e : Exn).
Arguments Ok {A} a.
Arguments Throw {A} e.

Module JS.

(** ToBoolean *)
Definition truthy (v : JSValue) : bool :=
  match v with
  | JUndefined | JNull => false
  | JBool b => b
  | JNum m _ => negb (m =? 0)
  | JStr s => negb (String.eqb s "")
  | JArr _ | JObj _ => true
  end.

(** [a || b] *)
Definition or (a b : JSValue) : JSValue := if truthy a then a else b.

Fixpoint assoc (k : string) (fields : list (string * JSValue)) : option JSValue :=
  match fields with
  | [] => None
  | (k', v) :: rest => if String.eqb k k' then Some v else assoc k rest
  end.

(** [v.k] for the property names the source reads, none of which is
    inherited from a prototype: a missing property is [undefined],
    reading a property of [null] or [undefined] raises a TypeError. *)
Definition get (v : JSValue) (k : string) : Result JSValue :=
  match v with
  | JUndefined | JNull => Throw TypeError
  | JObj fields => Ok (default JUndefined (assoc k fields))
  | _ => Ok JUndefined
  end.

(** [v?.k] *)
Definition get_opt (v : JSValue) (k : string) : Result JSValue :=
  match v with
  | JUndefined | JNull => Ok JUndefined
  | _ => get v k
  end.

(** Decimal digits of a natural number, most significant first. *)
Definition digit_char (d : N) : ascii := ascii_of_N (48 + d).

Fixpoint digits_aux (fuel : nat) (n : N) (acc : string) : string :=
  match fuel with
  | O => acc
  | S fuel' =>
      let acc' := String (digit_char (n mod 10)) acc in
      if (n <? 10)%N then acc' else digits_aux fuel' (n / 10) acc'
  end.

Definition digits (n : N) : string := digits_aux (S (N.to_nat (N.log2 n))) n "".

Fixpoint zeros (n : nat) : string :=
  match n with O => "" | S n' => String "0" (zeros n') end.

Fixpoint str_take (n : nat) (s : string) : string :=
  match n, s with
  | S n', String c r => String c (str_take n' r)
  | _, _ => ""
  end.

Fixpoint str_drop (n : nat) (s : string) : string :=
  match n, s with
  | S n', String _ r => str_drop n' r
  | _, _ => s
  end.

(** Number::toString(10) on the decimal [m * 10^e], [m] not a
    multiple of ten unless zero. *)
Definition num_to_string (m e : Z) : string :=
  if m =? 0 then "0" else
  let s := digits (Z.to_N (Z.abs m)) in
  let k := Z.of_nat (String.length s) in
  let n := k + e in
  let sign := if m <? 0 then "-" else "" in
  sign +:+
  (if (k <=? n) && (n <=? 21) then s +:+ zeros (Z.to_nat (n - k))
   else if (0 <? n) && (n <=? 21) then
     str_take (Z.to_nat n) s +:+ "." +:+ str_drop (Z.to_nat n) s
   else if (-6 <? n) && (n <=? 0) then "0." +:+ zeros (Z.to_nat (- n)) +:+ s
   else
     let ex := (if n - 1 <? 0 then "-" else "+") +:+ digits (Z.to_N (Z.abs (n - 1))) in
     if k =? 1 then s +:+ "e" +:+ ex
     else str_take 1 s +:+ "." +:+ str_drop 1 s +:+ "e" +:+ ex).

Fixpoint join (sep : string) (parts : list string) : string :=
  match parts with
  | [] => ""
  | [p] => p
  | p :: rest => p +:+ sep +:+ join sep rest
  end.

(** ToString, as applied by [localStorage.setItem] and [new Error]. *)
Fixpoint to_string (v : JSValue) : string :=
  match v with
  | JUndefined => "undefined"
  | JNull => "null"
  | JBool true => "true"
  | JBool false => "false"
  | JNum m e => num_to_string m e
  | JStr s => s
  | JArr xs =>
      join "," (map (fun x => match x with
                              | JUndefined | JNull => ""
                              | _ => to_string x
                              end) xs)
  | JObj _ => "[object Object]"
  end.

End JS.

(** ** JSON.stringify and JSON.parse *)

Module JSON.

Definition dquote : ascii := ascii_of_N 34.
Definition backslash : ascii := ascii_of_N 92.

Definition hex_char (d : N) : ascii :=
  if (d <? 10)%N then ascii_of_N (48 + d) else ascii_of_N (87 + d).

(** QuoteJSONString, one character at a time. *)
Definition quote_char (c : ascii) : string :=
  let n := N_of_ascii c in
  if (n =? 34)%N then String backslash (String dquote "")
  else if (n =? 92)%N then String backslash (String backslash "")
  else if (n =? 8)%N then String backslash "b"
  else if (n =? 9)%N then String backslash "t"
  else if (n =? 10)%N then String backslash "n"
  else if (n =? 12)%N then String backslash "f"
  else if (n =? 13)%N then String backslash "r"
  else if (n <? 32)%N then
    String backslash (String "u" (String "0" (String "0"
      (String (hex_char (n / 16)) (String (hex_char (n mod 16)) "")))))
  else String c "".

Fixpoint quote_body (s : string) : string :=
  match s with
  | EmptyString => ""
  | String c r => quote_char c +:+ quote_body r
  end.

Definition quote (s : string) : string :=
  String dquote (quote_body s +:+ String dquote "").

(** SerializeJSONProperty: [None] is the result [undefined]. An
    [undefined] array element is written as null, an [undefined]
    property is left out. *)
Fixpoint stringify (v : JSValue) : option string :=
  match v with
  | JUndefined => None
  | JNull => Some "null"
  | JBool true => Some "true"
  | JBool false => Some "false"
  | JNum m e => Some (JS.num_to_string m e)
  | JStr s => Some (quote s)
  | JArr xs =>
      Some ("[" +:+ JS.join "," (map (fun x => default "null" (stringify x)) xs) +:+ "]")
  | JObj fields =>
      Some ("{" +:+
            JS.join "," (omap (fun kv => match stringify (snd kv) with
                                         | Some t => Some (quote (fst kv) +:+ ":" +:+ t)
                                         | None => None
                                         end) fields) +:+ "}")
  end.

(** *** The parser *)

Definition is_ws (c : ascii) : bool :=
  let n := N_of_ascii c in
  (n =? 32)%N || (n =? 9)%N || (n =? 10)%N || (n =? 13)%N.

Fixpoint skip_ws (s : string) : string :=
  match s with
  | String c r => if is_ws c then skip_ws r else s
  | EmptyString => s
  end.

Definition is_digit (c : ascii) : bool :=
  let n := N_of_ascii c in (48 <=? n)%N && (n <=? 57)%N.

Definition hex_val (c : ascii) : option N :=
  let n := N_of_ascii c in
  if (48 <=? n)%N && (n <=? 57)%N then Some (n - 48)%N
  else if (97 <=? n)%N && (n <=? 102)%N then Some (n - 87)%N
  else if (65 <=? n)%N && (n <=? 70)%N then Some (n - 55)%N
  else None.

Definition hex4 (a b c d : ascii) : option N :=
  match hex_val a, hex_val b, hex_val c, hex_val d with
  | Some x, Some y, Some z, Some w => Some (((x * 16 + y) * 16 + z) * 16 + w)%N
  | _, _, _, _ => None
  end.

(** UTF-8 bytes of a code point (a lone surrogate is written on
    three bytes like any other code point below 65536). *)
Definition utf8 (cp : N) : string :=
  (if cp <? 128 then String (ascii_of_N cp) ""
   else if cp <? 2048 then
     String (ascii_of_N (192 + cp / 64)) (String (ascii_of_N (128 + cp mod 64)) "")
   else if cp <? 65536 then
     String (ascii_of_N (224 + cp / 4096))
       (String (ascii_of_N (128 + (cp / 64) mod 64))
          (String (ascii_of_N (128 + cp mod 64)) ""))
   else
     String (ascii_of_N (240 + cp / 262144))
       (String (ascii_of_N (128 + (cp / 4096) mod 64))
          (String (ascii_of_N (128 + (cp / 64) mod 64))
             (String (ascii_of_N (128 + cp mod 64)) ""))))%N.

Definition is_high (cp : N) : bool := (55296 <=? cp)%N && (cp <=? 56319)%N.
Definition is_low (cp : N) : bool := (56320 <=? cp)%N && (cp <=? 57343)%N.

Definition simple_escape (c : ascii) : option ascii :=
  let n := N_of_ascii c in
  if (n =? 34)%N then Some dquote
  else if (n =? 92)%N then Some backslash
  else if (n =? 47)%N then Some "/"%char
  else if (n =? 98)%N then Some (ascii_of_N 8)
  else if (n =? 102)%N then Some (ascii_of_N 12)
  else if (n =? 110)%N then Some (ascii_of_N 10)
  else if (n =? 114)%N then Some (ascii_of_N 13)
  else if (n =? 116)%N then Some (ascii_of_N 9)
  else None.

Definition prepend (p : string) (r : option (string * string)) : option (string * string) :=
  match r with
  | Some (s, rest) => Some (p +:+ s, rest)
  | None => None
  end.

(** The characters of a string literal after its opening quote, and
    what follows its closing quote. *)
Fixpoint parse_chars (s : string) : option (string * string) :=
  match s with
  | EmptyString => None
  | String c r =>
      let n := N_of_ascii c in
      if (n =? 34)%N then Some ("", r)
      else if (n =? 92)%N then
        match r with
        | String e r1 =>
            if (N_of_ascii e =? 117)%N then
              match r1 with
              | String h1 (String h2 (String h3 (String h4 r2))) =>
                  match hex4 h1 h2 h3 h4 with
                  | Some hi =>
                      match r2 with
                      | String b (String u (String l1 (String l2 (String l3 (String l4 r3))))) =>
                          match hex4 l1 l2 l3 l4 with
                          | Some lo =>
                              if is_high hi && (N_of_ascii b =? 92)%N
                                 && (N_of_ascii u =? 117)%N && is_low lo
                              then prepend (utf8 (65536 + (hi - 55296) * 1024 + (lo - 56320))%N)
                                     (parse_chars r3)
                              else prepend (utf8 hi) (parse_chars r2)
                          | None => prepend (utf8 hi) (parse_chars r2)
                          end
                      | _ => prepend (utf8 hi) (parse_chars r2)
                      end
                  | None => None
                  end
              | _ => None
              end
            else
              match simple_escape e with
              | Some ch => prepend (String ch "") (parse_chars r1)
              | None => None
              end
        | EmptyString => None
        end
      else if (n <? 32)%N then None
      else prepend (String c "") (parse_chars r)
  end.

Fixpoint take_digits (s : string) : string * string :=
  match s with
  | String c r =>
      if is_digit c then let (d, rest) := take_digits r in (String c d, rest)
      else ("", s)
  | EmptyString => ("", "")
  end.

Fixpoint digits_val (s : string) (acc : N) : N :=
  match s with
  | String c r => digits_val r (acc * 10 + (N_of_ascii c - 48))%N
  | EmptyString => acc
  end.

(** Drop the trailing zeros of a digit string, counting them. *)
Fixpoint strip_zeros (s : string) : string * nat :=
  match s with
  | EmptyString => ("", O)
  | String c r =>
      let (r', z) := strip_zeros r in
      match r' with
      | EmptyString => if (N_of_ascii c =? 48)%N then ("", S z) else (String c "", z)
      | _ => (String c r', z)
      end
  end.

(** The number whose digits before and after the point are [ip] and
    [fp], with exponent [ex], as a normalised decimal. *)
Definition decimal (neg : bool) (ip fp : string) (ex : Z) : JSValue :=
  let (ds, z) := strip_zeros (ip +:+ fp) in
  let m := Z.of_N (digits_val ds 0) in
  if m =? 0 then JNum 0 0
  else JNum (if neg then - m else m) (ex - Z.of_nat (String.length fp) + Z.of_nat z).

Definition parse_int_part (s : string) : option (string * string) :=
  match s with
  | String c r =>
      if (N_of_ascii c =? 48)%N then Some ("0", r)
      else if is_digit c then Some (take_digits s)
      else None
  | EmptyString => None
  end.

Definition parse_frac (s : string) : option (string * string) :=
  match s with
  | String c r =>
      if (N_of_ascii c =? 46)%N then
        match take_digits r with
        | (EmptyString, _) => None
        | (fp, rest) => Some (fp, rest)
        end
      else Some ("", s)
  | EmptyString => Some ("", s)
  end.

Definition parse_exp (s : string) : option (Z * string) :=
  match s with
  | String c r =>
      if (N_of_ascii c =? 101)%N || (N_of_ascii c =? 69)%N then
        let (neg, r1) :=
          match r with
          | String sg r' =>
              if (N_of_ascii sg =? 45)%N then (true, r')
              else if (N_of_ascii sg =? 43)%N then (false, r')
              else (false, r)
          | EmptyString => (false, r)
          end in
        match take_digits r1 with
        | (EmptyString, _) => None
        | (ds, rest) =>
            let x := Z.of_N (digits_val ds 0) in
            Some (if neg then - x else x, rest)
        end
      else Some (0, s)
  | EmptyString => Some (0, s)
  end.

Definition parse_number (s : string) : option (JSValue * string) :=
  let (neg, s1) :=
    match s with
    | String c r => if (N_of_ascii c =? 45)%N then (true, r) else (false, s)
    | EmptyString => (false, s)
    end in
  match parse_int_part s1 with
  | Some (ip, s2) =>
      match parse_frac s2 with
      | Some (fp, s3) =>
          match parse_exp s3 with
          | Some (ex, s4) => Some (decimal neg ip fp ex, s4)
          | None => None
          end
      | None => None
      end
  | None => None
  end.

Fixpoint strip_prefix (p s : string) : option string :=
  match p, s with
  | EmptyString, _ => Some s
  | String a p', String b s' => if Ascii.eqb a b then strip_prefix p' s' else None
  | String _ _, EmptyString => None
  end.

(** Defining a property: a repeated name keeps its place and takes
    the later value. *)
Fixpoint obj_set (k : string) (v : JSValue) (fields : list (string * JSValue))
  : list (string * JSValue) :=
  match fields with
  | [] => [(k, v)]
  | (k', v') :: rest =>
      if String.eqb k k' then (k', v) :: rest else (k', v') :: obj_set k v rest
  end.

Fixpoint parse_value (n : nat) (s : string) {struct n} : option (JSValue * string) :=
  match n with
  | O => None
  | S n' =>
      match skip_ws s with
      | EmptyString => None
      | String c r =>
          let k := N_of_ascii c in
          if (k =? 123)%N then
            match skip_ws r with
            | String c' r' =>
                if (N_of_ascii c' =? 125)%N then Some (JObj [], r')
                else parse_members n' r []
            | EmptyString => None
            end
          else if (k =? 91)%N then
            match skip_ws r with
            | String c' r' =>
                if (N_of_ascii c' =? 93)%N then Some (JArr [], r')
                else parse_elements n' r []
            | EmptyString => None
            end
          else if (k =? 34)%N then
            match parse_chars r with
            | Some (str, rest) => Some (JStr str, rest)
            | None => None
            end
          else if (k =? 116)%N then
            match strip_prefix "rue" r with
            | Some rest => Some (JBool true, rest)
            | None => None
            end
          else if (k =? 102)%N then
            match strip_prefix "alse" r with
            | Some rest => Some (JBool false, rest)
            | None => None
            end
          else if (k =? 110)%N then
            match strip_prefix "ull" r with
            | Some rest => Some (JNull, rest)
            | None => None
            end
          else parse_number (String c r)
      end
  end
with parse_elements (n : nat) (s : string) (acc : list JSValue) {struct n}
  : option (JSValue * string) :=
  match n with
  | O => None
  | S n' =>
      match parse_value n' s with
      | Some (v, r) =>
          match skip_ws r with
          | String c r' =>
              if (N_of_ascii c =? 44)%N then parse_elements n' r' (acc ++ [v])
              else if (N_of_ascii c =? 93)%N then Some (JArr (acc ++ [v]), r')
              else None
          | EmptyString => None
          end
      | None => None
      end
  end
with parse_members (n : nat) (s : string) (acc : list (string * JSValue)) {struct n}
  : option (JSValue * string) :=
  match n with
  | O => None
  | S n' =>
      match skip_ws s with
      | String q r =>
          if (N_of_ascii q =? 34)%N then
            match parse_chars r with
            | Some (key, r1) =>
                match skip_ws r1 with
                | String c r2 =>
                    if (N_of_ascii c =? 58)%N then
                      match parse_value n' r2 with
                      | Some (v, r3) =>
                          match skip_ws r3 with
                          | String d r4 =>
                              if (N_of_ascii d =? 44)%N
                              then parse_members n' r4 (obj_set key v acc)
                              else if (N_of_ascii d =? 125)%N
                              then Some (JObj (obj_set key v acc), r4)
                              else None
                          | EmptyString => None
                          end
                      | None => None
                      end
                    else None
                | EmptyString => None
                end
            | None => None
            end
          else None
      | EmptyString => None
      end
  end.

(** JSON.parse: one value, with nothing but white space around it. *)
Definition parse (text : string) : Result JSValue :=
  match parse_value (2 * String.length text + 2) text with
  | Some (v, rest) =>
      match skip_ws rest with
      | EmptyString => Ok v
      | String _ _ => Throw SyntaxError
      end
  | None => Throw SyntaxError
  end.

End JSON.

(** ** The host: storage, console and network *)

Inductive Method : Type := GET | POST | PUT | DELETE.

Record Request : Type := mkRequest {
  url : string;
  method : Method;
  headers : list (string * string);
  body : option string
}.

Record Response : Type := mkResponse {
  status : Z;
  text : string
}.

(** [response.ok]: the status is in the range 200-299. *)
Definition ok (r : Response) : bool := (200 <=? status r) && (status r <=? 299).

Inductive FetchResult : Type :=
| Resolved (r : Response)
| Rejected.

(** The transport: the answer to a request, given the requests sent
    before it (oldest first). *)
Definition Network : Type := list Request -> Request -> FetchResult.

(** [localStorage] is [None] where [typeof window === 'undefined']. *)
Record World : Type := mkWorld {
  localStorage : option (gmap string string);
  sent : list Request;
  console : list (string * Exn)
}.

(** ** Effects: state and exceptions *)

Definition M (A : Type) : Type := World -> Result A * World.

Definition ret {A} (a : A) : M A := fun w => (Ok a, w).

Definition throw {A} (e : Exn) : M A := fun w => (Throw e, w).

Definition bind {A B} (m : M A) (k : A -> M B) : M B :=
  fun w => match m w with
           | (Ok a, w') => k a w'
           | (Throw e, w') => (Throw e, w')
           end.

Definition lift {A} (r : Result A) : M A := fun w => (r, w).

(** [try { m } catch (e) { h e }] *)
Definition try_catch {A} (m : M A) (h : Exn -> M A) : M A :=
  fun w => match m w with
           | (Ok a, w') => (Ok a, w')
           | (Throw e, w') => h e w'
           end.

(** [try { m } finally { f }] *)
Definition try_finally {A} (m : M A) (f : M unit) : M A :=
  fun w => match m w with
           | (r, w') => match f w' with
                        | (Ok _, w'') => (r, w'')
                        | (Throw e, w'') => (Throw e, w'')
                        end
           end.

Declare Scope js_scope.
Delimit Scope js_scope with js.
Notation "'let!' x ':=' m 'in' k" := (bind m (fun x => k))
  (at level 10, x name, m at level 100, k at level 200) : js_scope.
Notation "m ';;' k" := (bind m (fun _ => k))
  (at level 100, k at level 200, right associativity) : js_scope.
Local Open Scope js_scope.

Definition window_undefined : M bool :=
  fun w => (Ok (match localStorage w with None => true | Some _ => false end), w).

(** The three methods of [localStorage] the code calls. Outside a
    browser the name [localStorage] is unbound and evaluating it raises
    a ReferenceError. *)
Definition localStorage_getItem (k : string) : M (option string) :=
  fun w => match localStorage w with
           | Some store => (Ok (store !! k), w)
           | None => (Throw ReferenceError, w)
           end.

Definition localStorage_setItem (k : string) (v : JSValue) : M unit :=
  fun w => match localStorage w with
           | Some store =>
               (Ok tt, mkWorld (Some (<[k := JS.to_string v]> store)) (sent w) (console w))
           | None => (Throw ReferenceError, w)
           end.

Definition localStorage_removeItem (k : string) : M unit :=
  fun w => match localStorage w with
           | Some store => (Ok tt, mkWorld (Some (delete k store)) (sent w) (console w))
           | None => (Throw ReferenceError, w)
           end.

Definition console_error (label : string) (e : Exn) : M unit :=
  fun w => (Ok tt, mkWorld (localStorage w) (sent w) (console w ++ [(label, e)])%list).

(** Truthiness of a [string | null]. *)
Definition present (o : option string) : bool :=
  match o with
  | Some s => negb (String.eqb s "")
  | None => false
  end.

(** ** src/libs/config.ts *)

Record Endpoints : Type := mkEndpoints {
  ep_register : string;
  ep_login : string;
  ep_logout : string;
  ep_profile : string;
  ep_changePassword : string;
  ep_deleteAccount : string;
  ep_refreshToken : string
}.

Inductive Backend : Type := django | fastapi.

Definition API_ENDPOINTS (b : Backend) : Endpoints :=
  match b with
  | django =>
      mkEndpoints "/user/api/register/" "/user/api/login/" "/user/api/logout/"
        "/user/api/profile/" "/user/api/change-password/"
        "/user/api/delete-account/" "/user/api/token/refresh/"
  | fastapi =>
      mkEndpoints "/api/register/" "/api/login/" "/api/logout/" "/api/profile/"
        "/api/change-password/" "/api/delete-account/" "/api/token/refresh/"
  end.

(** The default value of each base address, used when the environment
    does not set one. *)
Definition API_URLS (b : Backend) : string :=
  match b with
  | django => "http://localhost:8000"
  | fastapi => "http://localhost:9000"
  end.

(** ** src/libs/auth.ts: AuthService *)

Section AuthService.

(** The transport, and the configuration as resolved by config.ts. *)
Variable net : Network.
Variable API_BASE_URL : string.
Variable ENDPOINTS : Endpoints.

Definition fetch (req : Request) : M Response :=
  fun w =>
    let w' := mkWorld (localStorage w) (sent w ++ [req])%list (console w) in
    match net (sent w) req with
    | Resolved r => (Ok r, w')
    | Rejected => (Throw NetworkError, w')
    end.

(** [response.json()] *)
Definition json (r : Response) : M JSValue := lift (JSON.parse (text r)).

Definition getAccessToken : M (option string) :=
  let! nowin := window_undefined in
  if nowin then ret None else localStorage_getItem "access_token".

Definition getRefreshToken : M (option string) :=
  let! nowin := window_undefined in
  if nowin then ret None else localStorage_getItem "refresh_token".

Definition getHeaders (includeAuth : bool) : M (list (string * string)) :=
  let headers := [("Content-Type", "application/json")] in
  if includeAuth then
    let! token := getAccessToken in
    match token with
    | Some t => if present token
                then ret (headers ++ [("Authorization", "Bearer " +:+ t)])%list
                else ret headers
    | None => ret headers
    end
  else ret headers.

Definition setTokens (accessToken refreshToken : JSValue) : M unit :=
  let! nowin := window_undefined in
  if nowin then ret tt else
  localStorage_setItem "access_token" accessToken ;;
  localStorage_setItem "refresh_token" refreshToken.

Definition clearTokens : M unit :=
  let! nowin := window_undefined in
  if nowin then ret tt else
  localStorage_removeItem "access_token" ;;
  localStorage_removeItem "refresh_token" ;;
  localStorage_removeItem "user".

Definition stringified (v : JSValue) : JSValue :=
  match JSON.stringify v with
  | Some s => JStr s
  | None => JUndefined
  end.

Definition setUser (user : JSValue) : M unit :=
  let! nowin := window_undefined in
  if nowin then ret tt else
  localStorage_setItem "user" (stringified user).

Definition getUser : M JSValue :=
  let! nowin := window_undefined in
  if nowin then ret JNull else
  let! userStr := localStorage_getItem "user" in
  match userStr with
  | Some s => if present userStr then lift (JSON.parse s) else ret JNull
  | None => ret JNull
  end.

Definition isAuthenticated : M bool :=
  let! token := getAccessToken in
  ret (present token).

(** [throw new Error(error.detail || error.error || fallback)] *)
Definition throw_reason {A} (error : JSValue) (fallback : string) : M A :=
  let! detail := lift (JS.get error "detail") in
  if JS.truthy detail then throw (Error (JS.to_string detail)) else
  let! err := lift (JS.get error "error") in
  throw (Error (JS.to_string (JS.or err (JStr fallback)))).

Definition opt_str (o : option string) : JSValue :=
  match o with
  | Some s => JStr s
  | None => JUndefined
  end.

Definition login (username password : string) : M JSValue :=
  let! hs := getHeaders false in
  let! response := fetch (mkRequest (API_BASE_URL +:+ ep_login ENDPOINTS) POST hs
                       (JSON.stringify (JObj [("username", JStr username);
                                              ("password", JStr password)]))) in
  if negb (ok response) then
    let! error := json response in
    throw_reason error "Login failed"
  else
    let! data := json response in
    let! tokens := lift (JS.get data "tokens") in
    let! access := lift (JS.get tokens "access") in
    let! refresh := lift (JS.get tokens "refresh") in
    setTokens access refresh ;;
    let! user := lift (JS.get data "user") in
    setUser user ;;
    ret data.

Definition register (username email password password2 : string)
    (first_name last_name : option string) : M JSValue :=
  let! hs := getHeaders false in
  let! response := fetch (mkRequest (API_BASE_URL +:+ ep_register ENDPOINTS) POST hs
                       (JSON.stringify (JObj [("username", JStr username);
                                              ("email", JStr email);
                                              ("password", JStr password);
                                              ("password2", JStr password2);
                                              ("first_name", opt_str first_name);
                                              ("last_name", opt_str last_name)]))) in
  if negb (ok response) then
    let! error := json response in
    throw_reason error "Registration failed"
  else
    let! data := json response in
    let! tokens := lift (JS.get data "tokens") in
    (if JS.truthy tokens then
       let! access := lift (JS.get tokens "access_token") in
       let! refresh := lift (JS.get tokens "refresh_token") in
       setTokens access refresh ;;
       let! user := lift (JS.get data "user") in
       setUser user
     else ret tt) ;;
    ret data.

Definition logout : M unit :=
  let! refreshToken := getRefreshToken in
  try_finally
    (try_catch
       (match refreshToken with
        | Some t =>
            if present refreshToken then
              let! hs := getHeaders true in
              fetch (mkRequest (API_BASE_URL +:+ ep_logout ENDPOINTS) POST hs
                       (JSON.stringify (JObj [("refresh_token", JStr t)]))) ;;
              ret tt
            else ret tt
        | None => ret tt
        end)
       (fun error => console_error "Logout error:" error))
    clearTokens.

(** [data.access_token || data.tokens?.access_token] *)
Definition extract_access_token (data : JSValue) : Result JSValue :=
  match JS.get data "access_token" with
  | Ok direct =>
      if JS.truthy direct then Ok direct else
      match JS.get data "tokens" with
      | Ok tokens => JS.get_opt tokens "access_token"
      | Throw e => Throw e
      end
  | Throw e => Throw e
  end.

Definition refreshAccessToken : M bool :=
  let! refreshToken := getRefreshToken in
  match refreshToken with
  | None => ret false
  | Some t =>
      if negb (present refreshToken) then ret false else
      try_catch
        (let! hs := getHeaders false in
         let! response := fetch (mkRequest (API_BASE_URL +:+ ep_refreshToken ENDPOINTS) POST hs
                              (JSON.stringify (JObj [("refresh_token", JStr t)]))) in
         if negb (ok response) then ret false else
         let! data := json response in
         let! accessToken := lift (extract_access_token data) in
         if JS.truthy accessToken then
           localStorage_setItem "access_token" accessToken ;;
           ret true
         else ret false)
        (fun error => console_error "Token refresh error:" error ;; ret false)
  end.

(** [getProfile] calls itself after a successful refresh; [fuel]
    bounds the number of calls, and [None] means the bound was
    reached before the call returned. *)
Fixpoint getProfile (fuel : nat) (w : World) : option (Result JSValue * World) :=
  match fuel with
  | O => None
  | S fuel' =>
      match (let! hs := getHeaders true in
             fetch (mkRequest (API_BASE_URL +:+ ep_profile ENDPOINTS) GET hs None)) w with
      | (Throw e, w1) => Some (Throw e, w1)
      | (Ok response, w1) =>
          if negb (ok response) then
            if status response =? 401 then
              match refreshAccessToken w1 with
              | (Ok true, w2) => getProfile fuel' w2
              | (Ok false, w2) => Some (Throw (Error "Session expired"), w2)
              | (Throw e, w2) => Some (Throw e, w2)
              end
            else Some (Throw (Error "Failed to fetch profile"), w1)
          else
            Some ((let! user := json response in
                   setUser user ;;
                   ret user) w1)
      end
  end.

Definition updateProfile (data : JSValue) : M JSValue :=
  let! hs := getHeaders true in
  let! response := fetch (mkRequest (API_BASE_URL +:+ ep_profile ENDPOINTS) PUT hs
                            (JSON.stringify data)) in
  if negb (ok response) then
    let! error := json response in
    throw_reason error "Update failed"
  else
    let! user := json response in
    setUser user ;;
    ret user.

Definition changePassword (oldPassword newPassword newPassword2 : string) : M unit :=
  let! hs := getHeaders true in
  let! response := fetch (mkRequest (API_BASE_URL +:+ ep_changePassword ENDPOINTS) POST hs
                            (JSON.stringify (JObj [("old_password", JStr oldPassword);
                                                   ("new_password", JStr newPassword);
                                                   ("new_password2", JStr newPassword2)]))) in
  if negb (ok response) then
    let! error := json response in
    throw_reason error "Password change failed"
  else ret tt.

Definition deleteAccount : M unit :=
  let! hs := getHeaders true in
  let! response := fetch (mkRequest (API_BASE_URL +:+ ep_deleteAccount ENDPOINTS) DELETE hs None) in
  if negb (ok response) then
    let! error := json response in
    throw_reason error "Account deletion failed"
  else clearTokens.

End AuthService.

(** ** Vocabulary of the statements *)

(** What [localStorage.getItem k] yields behind the environment guard:
    nothing outside a browser, the stored string otherwise. *)
Definition stored (w : World) (k : string) : option string :=
  match localStorage w with
  | Some store => store !! k
  | None => None
  end.

(** The store with the three session slots removed. *)
Definition clear_slots (store : gmap string string) : gmap string string :=
  delete "user" (delete "refresh_token" (delete "access_token" store)).

Definition with_store (w : World) (store : option (gmap string string)) : World :=
  mkWorld store (sent w) (console w).

Definition with_sent (w : World) (req : Request) : World :=
  mkWorld (localStorage w) (sent w ++ [req])%list (console w).

Definition with_console (w : World) (label : string) (e : Exn) : World :=
  mkWorld (localStorage w) (sent w) (console w ++ [(label, e)])%list.

Definition auth_headers (w : World) : list (string * string) :=
  match stored w "access_token" with
  | Some t => if present (Some t)
              then [("Content-Type", "application/json"); ("Authorization", "Bearer " +:+ t)]
              else [("Content-Type", "application/json")]
  | None => [("Content-Type", "application/json")]
  end.

Definition plain_headers : list (string * string) :=
  [("Content-Type", "application/json")].

Definition refresh_request (base : string) (eps : Endpoints) (t : string) : Request :=
  mkRequest (base +:+ ep_refreshToken eps) POST plain_headers
    (JSON.stringify (JObj [("refresh_token", JStr t)])).

(** The access token a response yields, when it yields one. *)
Definition extracted (r : Response) : option JSValue :=
  match JSON.parse (text r) with
  | Ok data =>
      match extract_access_token data with
      | Ok tok => if JS.truthy tok then Some tok else None
      | Throw _ => None
      end
  | Throw _ => None
  end.



Definition logout_request (base : string) (eps : Endpoints) (w : World) (t : string)
  : Request :=
  mkRequest (base +:+ ep_logout eps) POST (auth_headers w)
    (JSON.stringify (JObj [("refresh_token", JStr t)])).

Definition delete_request (base : string) (eps : Endpoints) (w : World) : Request :=
  mkRequest (base +:+ ep_deleteAccount eps) DELETE (auth_headers w) None.

Definition profile_request (base : string) (eps : Endpoints) (w : World) : Request :=
  mkRequest (base +:+ ep_profile eps) GET (auth_headers w) None.

Definition session_expired : Exn := Error "Session expired".

(** [refresh_cycles k w w']: starting in [w], the profile request is
    answered with 401 and the refresh that follows succeeds, [k] times
    in a row, which leads to [w']. *)
Inductive refresh_cycles (net : Network) (base : string) (eps : Endpoints)
  : nat → World → World → Prop :=
| cycles_done w : refresh_cycles net base eps O w w
| cycles_more k w r w2 w3 :
    net (sent w) (profile_request base eps w) = Resolved r →
    status r = 401 →
    refreshAccessToken net base eps (with_sent w (profile_request base eps w))
      = (Ok true, w2) →
    refresh_cycles net base eps k w2 w3 →
    refresh_cycles net base eps (S k) w w3.

(** The log of a run, replayed: the answer each request received. *)
Fixpoint replay (net : Network) (earlier reqs : list Request) : list FetchResult :=
  match reqs with
  | [] => []
  | req :: rest => net earlier req :: replay net (earlier ++ [req])%list rest
  end.

Definition status_of (a : FetchResult) : Z :=
  match a with
  | Resolved r => status r
  | Rejected => 0
  end.

Definition register_request (base : string) (eps : Endpoints)
    (username email password password2 : string) (first_name last_name : option string)
  : Request :=
  mkRequest (base +:+ ep_register eps) POST plain_headers
    (JSON.stringify (JObj [("username", JStr username); ("email", JStr email);
                           ("password", JStr password); ("password2", JStr password2);
                           ("first_name", opt_str first_name);
                           ("last_name", opt_str last_name)])).

Definition login_request (base : string) (eps : Endpoints) (username password : string)
  : Request :=
  mkRequest (base +:+ ep_login eps) POST plain_headers
    (JSON.stringify (JObj [("username", JStr username); ("password", JStr password)])).

(** The store after a session was written to it. *)
Definition session_store (access refresh user : JSValue) (store : gmap string string)
  : gmap string string :=
  <["user" := JS.to_string (stringified user)]>
    (<["refresh_token" := JS.to_string refresh]>
       (<["access_token" := JS.to_string access]> store)).

(** The numerals a double can hold: the host reads a numeral of
    magnitude [2^1024 - 2^970] or more as Infinity, and
    [JSON.stringify] writes Infinity as null. *)
Definition double_overflow : Z := 2 ^ 1024 - 2 ^ 970.

Definition in_double_range (m e : Z) : bool :=
  Z.abs m * 10 ^ Z.max e 0 <? double_overflow * 10 ^ Z.max (- e) 0.

(** No number inside the value is beyond the range of a double. *)
Fixpoint finite_numerals (v : JSValue) : bool :=
  match v with
  | JNum m e => in_double_range m e
  | JArr xs => forallb finite_numerals xs
  | JObj fields => forallb (fun kv => finite_numerals (snd kv)) fields
  | _ => true
  end.

(** ** Vocabulary of the JSON round trip *)

Fixpoint all_digits (s : string) : bool :=
  match s with
  | EmptyString => true
  | String c r => JSON.is_digit c && all_digits r
  end.

(** The text that follows ends a run of digits. *)
Definition digits_end (rest : string) : Prop :=
  match rest with
  | EmptyString => True
  | String c _ => JSON.is_digit c = false
  end.

(** The decimals [JSON.parse] produces: no trailing zero in the
    mantissa, and zero written as [0 * 10^0]. *)
Definition normal (m e : Z) : Prop := (m = 0 ∧ e = 0) ∨ m mod 10 ≠ 0.

(** The text that follows ends a number. *)
Definition num_end (rest : string) : Prop :=
  match rest with
  | EmptyString => True
  | String c _ =>
      JSON.is_digit c = false ∧ N_of_ascii c ≠ 46%N ∧
      N_of_ascii c ≠ 101%N ∧ N_of_ascii c ≠ 69%N
  end.

(** [parse_number] after the sign. *)
Definition number_body (neg : bool) (s1 : string) : option (JSValue * string) :=
  match JSON.parse_int_part s1 with
  | Some (ip, s2) =>
      match JSON.parse_frac s2 with
      | Some (fp, s3) =>
          match JSON.parse_exp s3 with
          | Some (ex, s4) => Some (JSON.decimal neg ip fp ex, s4)
          | None => None
          end
      | None => None
      end
  | None => None
  end.

(** A digit string that can stand before the point: a single zero, or
    digits that do not start with a zero. *)
Definition int_ok (ip : string) : Prop :=
  ip = "0" ∨
  ∃ c r, ip = String c r ∧ all_digits ip = true ∧ N_of_ascii c ≠ 48%N.

Definition exp_text (x : Z) : string :=
  (if x <? 0 then "-" else "+") +:+ JS.digits (Z.to_N (Z.abs x)).

Fixpoint canonical (v : JSValue) : Prop :=
  match v with
  | JUndefined => False
  | JNull | JBool _ | JStr _ => True
  | JNum m e => normal m e
  | JArr xs =>
      (fix all (l : list JSValue) : Prop :=
         match l with
         | [] => True
         | x :: r => canonical x ∧ all r
         end) xs
  | JObj fields =>
      (fix all (l : list (string * JSValue)) : Prop :=
         match l with
         | [] => True
         | kv :: r => canonical (snd kv) ∧ all r
         end) fields ∧ NoDup (map fst fields)
  end.

(** A bound on the fuel the parser needs to read a value back. *)
Fixpoint weight (v : JSValue) : nat :=
  match v with
  | JArr xs => S (list_sum (map (fun x => S (weight x)) xs))
  | JObj fields => S (list_sum (map (fun kv => S (weight (snd kv))) fields))
  | _ => 1
  end.

(** The text that follows ends a value inside an array or an object,
    or ends the input. *)
Definition delim (rest : string) : Prop :=
  match rest with
  | EmptyString => True
  | String c _ => c = ","%char ∨ c = "]"%char ∨ c = "}"%char
  end.

(** The first character of a printed value. *)
Definition value_start (c : ascii) : Prop :=
  JSON.is_ws c = false ∧ (N_of_ascii c =? 93)%N = false ∧ (N_of_ascii c =? 125)%N = false.

Definition reads_back (x : JSValue) : Prop :=
  ∀ fuel rest s,
    (weight x <= fuel)%nat → delim rest → JSON.stringify x = Some s →
    JSON.parse_value fuel (s +:+ rest) = Some (x, rest).

Definition elem_text (x : JSValue) : string := default "null" (JSON.stringify x).

Definition member_text (kv : string * JSValue) : option string :=
  match JSON.stringify (snd kv) with
  | Some t => Some (JSON.quote (fst kv) +:+ ":" +:+ t)
  | None => None
  end.

Definition elems_weight (xs : list JSValue) : nat :=
  list_sum (map (fun x => S (weight x)) xs).

Definition members_weight (fields : list (string * JSValue)) : nat :=
  list_sum (map (fun kv => S (weight (snd kv))) fields).

Definition bounded (x : JSValue) : Prop :=
  ∀ s, JSON.stringify x = Some s → (weight x <= 2 * String.length s)%nat.

(** ** Concrete transports and states used in the examples *)

Module Scenario.

Definition base : string := API_URLS fastapi.
Definition eps : Endpoints := API_ENDPOINTS fastapi.

Definition browser (store : gmap string string) : World := mkWorld (Some store) [] [].
Definition server_side : World := mkWorld None [] [].

(** The text of a response whose body is the given value. *)
Definition body_of (v : JSValue) : string := default "null" (JSON.stringify v).

Definition alice : JSValue :=
  JObj [("id", JNum 1 0); ("username", JStr "alice"); ("email", JStr "alice@example.org");
        ("is_active", JBool true); ("is_staff", JBool false);
        ("is_superuser", JBool false); ("date_joined", JStr "2024-01-01T00:00:00Z")].

Definition session : gmap string string :=
  <["user" := body_of alice]>
    (<["refresh_token" := "R1"]> (<["access_token" := "A1"]> ∅)).

Definition is_url (path : string) (req : Request) : bool :=
  String.eqb (url req) (base +:+ path).

Definition count_url (path : string) (reqs : list Request) : nat :=
  length (filter (fun req => is_url path req = true) reqs).

Definition expired : Response :=
  mkResponse 401 (body_of (JObj [("detail", JStr "Token expired")])).

Definition fresh_token : Response :=
  mkResponse 200 (body_of (JObj [("access_token", JStr "A2")])).

(** Answers the first [k] profile requests with 401 and the later
    ones with the profile; every refresh succeeds with token A2. *)
Definition expiring (k : nat) : Network :=
  fun earlier req =>
    if is_url (ep_profile eps) req then
      if (count_url (ep_profile eps) earlier <? k)%nat
      then Resolved expired
      else Resolved (mkResponse 200 (body_of alice))
    else if is_url (ep_refreshToken eps) req then Resolved fresh_token
    else Resolved (mkResponse 200 "{}").

(** Answers every profile request with 401; every refresh succeeds. *)
Definition always_expired : Network :=
  fun earlier req =>
    if is_url (ep_profile eps) req then Resolved expired else Resolved fresh_token.

(** Answers every request with the given status and body. *)
Definition constant (st : Z) (body : string) : Network :=
  fun _ _ => Resolved (mkResponse st body).

(** The network is down. *)
Definition offline : Network := fun _ _ => Rejected.

End Scenario.

(** ** Vocabulary of the further properties *)

Definition update_request (base : string) (eps : Endpoints) (w : World) (data : JSValue)
  : Request :=
  mkRequest (base +:+ ep_profile eps) PUT (auth_headers w) (JSON.stringify data).

Definition password_request (base : string) (eps : Endpoints) (w : World)
    (oldPassword newPassword newPassword2 : string) : Request :=
  mkRequest (base +:+ ep_changePassword eps) POST (auth_headers w)
    (JSON.stringify (JObj [("old_password", JStr oldPassword);
                           ("new_password", JStr newPassword);
                           ("new_password2", JStr newPassword2)])).

(** [reported r fallback e]: [e] is what an operation raises on the
    failure response [r]: the parse error of a body that is not JSON, a
    TypeError on the body [null], and otherwise an [Error] whose message
    is the body's [detail] if truthy, else its [error] if truthy, else
    the fallback text of the operation. *)
Definition reported (r : Response) (fallback : string) (e : Exn) : Prop :=
  match JSON.parse (text r) with
  | Throw e' => e = e'
  | Ok JNull => e = TypeError
  | Ok (JObj fields) =>
      let detail := default JUndefined (JS.assoc "detail" fields) in
      let err := default JUndefined (JS.assoc "error" fields) in
      e = Error (if JS.truthy detail then JS.to_string detail
                 else if JS.truthy err then JS.to_string err
                 else fallback)
  | Ok _ => e = Error fallback
  end.

(** The properties a request body carries, read back from its text. *)
Definition body_json (req : Request) : Result JSValue :=
  match body req with
  | Some s => JSON.parse s
  | None => Ok JUndefined
  end.

(** The optional properties of an object literal that are defined. *)
Definition given (k : string) (o : option string) : list (string * JSValue) :=
  match o with
  | Some s => [(k, JStr s)]
  | None => []
  end.

(** Where a request goes: its method and its URL. *)
Definition route (req : Request) : Method * string := (method req, url req).

(** ** src/components/AuthProvider.tsx

    The provider keeps the identity and the loading flag in component
    state and navigates through the router. A state setter is an
    assignment; [router.push] is recorded in the order of the calls;
    an effect is modelled by the function it runs. A call may not
    return within the bound given to [getProfile] ([None]). *)

Module AuthProvider.

Record App : Type := mkApp {
  world : World;
  user : JSValue;
  loading : bool;
  pushed : list string
}.

(** The state of a freshly mounted provider. *)
Definition mounted (w : World) : App := mkApp w JNull true [].

Definition PM (A : Type) : Type := App → option (Result A * App).

Definition pret {A} (a : A) : PM A := fun s => Some (Ok a, s).

Definition pbind {A B} (m : PM A) (k : A → PM B) : PM B :=
  fun s => match m s with
           | Some (Ok a, s') => k a s'
           | Some (Throw e, s') => Some (Throw e, s')
           | None => None
           end.

Definition ptry_catch {A} (m : PM A) (h : Exn → PM A) : PM A :=
  fun s => match m s with
           | Some (Ok a, s') => Some (Ok a, s')
           | Some (Throw e, s') => h e s'
           | None => None
           end.

Definition ptry_finally {A} (m : PM A) (f : PM unit) : PM A :=
  fun s => match m s with
           | Some (r, s') =>
               match f s' with
               | Some (Ok _, s'') => Some (r, s'')
               | Some (Throw e, s'') => Some (Throw e, s'')
               | None => None
               end
           | None => None
           end.

(** A call of a method of [authService]. *)
Definition service {A} (m : M A) : PM A :=
  fun s => match m (world s) with
           | (r, w') => Some (r, mkApp w' (user s) (loading s) (pushed s))
           end.

Definition plift {A} (r : Result A) : PM A := fun s => Some (r, s).

Definition setUser (u : JSValue) : PM unit :=
  fun s => Some (Ok tt, mkApp (world s) u (loading s) (pushed s)).

Definition setLoading (b : bool) : PM unit :=
  fun s => Some (Ok tt, mkApp (world s) (user s) b (pushed s)).

Definition router_push (path : string) : PM unit :=
  fun s => Some (Ok tt, mkApp (world s) (user s) (loading s) (pushed s ++ [path])%list).

Declare Scope provider_scope.
Notation "'let!' x ':=' m 'in' k" := (pbind m (fun x => k))
  (at level 10, x name, m at level 100, k at level 200) : provider_scope.
Notation "m ';;' k" := (pbind m (fun _ => k))
  (at level 100, k at level 200, right associativity) : provider_scope.
Local Open Scope provider_scope.

(** [pathname.startsWith(path)] for one of the public paths. *)
Definition isPublicPath (pathname : string) : bool :=
  existsb (fun path => String.prefix path pathname) ["/login"; "/signup"].

(** The redirect effect, run with the current path. *)
Definition redirect (pathname : string) : PM unit :=
  fun s =>
    if negb (loading s) then
      if negb (JS.truthy (user s)) && negb (isPublicPath pathname)
      then router_push "/login" s
      else if JS.truthy (user s) && isPublicPath pathname
           then router_push "/profile" s
           else Some (Ok tt, s)
    else Some (Ok tt, s).

Section Provider.

Variable net : Network.
Variable API_BASE_URL : string.
Variable ENDPOINTS : Endpoints.

Definition fetchProfile (fuel : nat) : PM JSValue :=
  fun s => match getProfile net API_BASE_URL ENDPOINTS fuel (world s) with
           | Some (r, w') => Some (r, mkApp w' (user s) (loading s) (pushed s))
           | None => None
           end.

Definition checkAuth (fuel : nat) : PM unit :=
  ptry_finally
    (ptry_catch
       (let! authenticated := service isAuthenticated in
        if authenticated then
          let! userData := fetchProfile fuel in
          setUser userData
        else pret tt)
       (fun error =>
          service (console_error "Auth check failed:" error) ;;
          service clearTokens))
    (setLoading false).

Definition login (username password : string) : PM unit :=
  let! response := service (login net API_BASE_URL ENDPOINTS username password) in
  let! u := plift (JS.get response "user") in
  setUser u ;;
  router_push "/profile".

Definition register (username email password password2 : string)
    (first_name last_name : option string) : PM unit :=
  let! response := service (register net API_BASE_URL ENDPOINTS username email
                              password password2 first_name last_name) in
  let! u := plift (JS.get response "user") in
  setUser u ;;
  router_push "/profile".

Definition logout : PM unit :=
  service (logout net API_BASE_URL ENDPOINTS) ;;
  setUser JNull ;;
  router_push "/login".

Definition updateProfile (data : JSValue) : PM unit :=
  let! updatedUser := service (updateProfile net API_BASE_URL ENDPOINTS data) in
  setUser updatedUser.

Definition changePassword (oldPassword newPassword newPassword2 : string) : PM unit :=
  service (changePassword net API_BASE_URL ENDPOINTS
             oldPassword newPassword newPassword2).

Definition deleteAccount : PM unit :=
  service (deleteAccount net API_BASE_URL ENDPOINTS) ;;
  setUser JNull ;;
  router_push "/login".

Definition refreshUser (fuel : nat) : PM unit :=
  let! userData := fetchProfile fuel in
  setUser userData.

End Provider.

End AuthProvider.

(** * Facts about JSON *)

(** ** Facts about strings *)

Lemma str_app_cons x (a b : string) : String x a +:+ b = String x (a +:+ b).
Proof. reflexivity. Qed.

Lemma str_app_nil_l (a : string) : "" +:+ a = a.
Proof. reflexivity. Qed.

Lemma str_app_assoc (a b c : string) : (a +:+ b) +:+ c = a +:+ (b +:+ c).
Proof.
  induction a as [|x a IH]; [reflexivity|]. by rewrite !str_app_cons, IH.
Qed.

Lemma str_app_nil_r (a : string) : a +:+ "" = a.
Proof. induction a as [|x a IH]; [reflexivity|]. by rewrite str_app_cons, IH. Qed.

Lemma str_length_app (a b : string) :
  String.length (a +:+ b) = (String.length a + String.length b)%nat.
Proof.
  induction a as [|x a IH]; [reflexivity|]. rewrite str_app_cons. cbn. by rewrite IH.
Qed.

Lemma str_length_nil : String.length "" = 0%nat.
Proof. reflexivity. Qed.

(** ** Decimal digits *)

Lemma digit_char_val d : (d < 10)%N → N_of_ascii (JS.digit_char d) = (48 + d)%N.
Proof. intros Hd. unfold JS.digit_char. apply N_ascii_embedding. lia. Qed.

Lemma digit_char_is_digit d : (d < 10)%N → JSON.is_digit (JS.digit_char d) = true.
Proof.
  intros Hd. unfold JSON.is_digit. rewrite digit_char_val by done.
  apply andb_true_iff. split; apply N.leb_le; lia.
Qed.

Lemma digits_aux_acc fuel n acc :
  JS.digits_aux fuel n acc = JS.digits_aux fuel n "" +:+ acc.
Proof.
  revert n acc. induction fuel as [|fuel IH]; intros n acc; cbn; [reflexivity|].
  destruct (n <? 10)%N; [reflexivity|].
  rewrite IH, (IH _ (String _ "")), str_app_assoc. reflexivity.
Qed.

Lemma digits_aux_fuel f1 f2 n :
  (0 < f1)%nat → (0 < f2)%nat →
  (n < 10 ^ N.of_nat f1)%N → (n < 10 ^ N.of_nat f2)%N →
  JS.digits_aux f1 n "" = JS.digits_aux f2 n "".
Proof.
  revert f2 n. induction f1 as [|f1 IH]; intros f2 n H1 H2 Hn1 Hn2; [lia|].
  destruct f2 as [|f2]; [lia|]. cbn.
  destruct (N.ltb_spec n 10) as [Hlt|Hge]; [reflexivity|].
  rewrite digits_aux_acc, (digits_aux_acc f2). f_equal.
  rewrite Nat2N.inj_succ, N.pow_succ_r' in Hn1, Hn2.
  assert (n / 10 < 10 ^ N.of_nat f1)%N by (apply N.Div0.div_lt_upper_bound; lia).
  assert (n / 10 < 10 ^ N.of_nat f2)%N by (apply N.Div0.div_lt_upper_bound; lia).
  assert (1 <= n / 10)%N by (apply N.div_le_lower_bound; lia).
  apply IH; try done.
  - destruct f1; [cbn in *; lia|lia].
  - destruct f2; [cbn in *; lia|lia].
Qed.

Lemma digits_fuel_ok n : (n < 10 ^ N.of_nat (S (N.to_nat (N.log2 n))))%N.
Proof.
  rewrite Nat2N.inj_succ, N2Nat.id.
  destruct (N.eq_dec n 0%N) as [->|Hn]; [cbn; lia|].
  assert (n < 2 ^ N.succ (N.log2 n))%N by (apply N.log2_spec; lia).
  assert (2 ^ N.succ (N.log2 n) <= 10 ^ N.succ (N.log2 n))%N
    by (apply N.pow_le_mono_l; lia).
  lia.
Qed.

Lemma digits_small n : (n < 10)%N → JS.digits n = String (JS.digit_char n) "".
Proof.
  intros Hn. unfold JS.digits. cbn.
  rewrite N.mod_small by done. by destruct (N.ltb_spec n 10); [|lia].
Qed.

Lemma digits_step n :
  (10 <= n)%N →
  JS.digits n = JS.digits (n / 10) +:+ String (JS.digit_char (n mod 10)) "".
Proof.
  intros Hn.
  assert (E : JS.digits n =
              JS.digits_aux (N.to_nat (N.log2 n)) (n / 10)
                (String (JS.digit_char (n mod 10)) "")).
  { unfold JS.digits. cbn [JS.digits_aux].
    by destruct (N.ltb_spec n 10) as [|_]; [lia|]. }
  rewrite E, digits_aux_acc. f_equal. unfold JS.digits.
  assert (1 <= n / 10)%N by (apply N.div_le_lower_bound; lia).
  assert (3 <= N.log2 n)%N by (apply N.log2_le_pow2; cbn; lia).
  apply digits_aux_fuel; try lia.
  - pose proof (digits_fuel_ok n) as Hf.
    rewrite Nat2N.inj_succ, N.pow_succ_r' in Hf.
    apply N.Div0.div_lt_upper_bound. lia.
  - apply digits_fuel_ok.
Qed.

(** Induction on a number through its decimal digits. *)
Lemma digits_ind (P : N → Prop) :
  (∀ n, (n < 10)%N → P n) →
  (∀ n, (10 <= n)%N → P (n / 10)%N → P n) →
  ∀ n, P n.
Proof.
  intros Hs Hl n. induction n as [n IH] using (well_founded_induction N.lt_wf_0).
  destruct (N.ltb_spec n 10) as [Hlt|Hge]; [by apply Hs|].
  apply Hl; [done|]. apply IH. apply N.div_lt; lia.
Qed.

Lemma all_digits_app a b : all_digits (a +:+ b) = all_digits a && all_digits b.
Proof.
  induction a as [|x a IH]; [reflexivity|].
  rewrite str_app_cons. cbn. by rewrite IH, andb_assoc.
Qed.

Lemma digits_all n : all_digits (JS.digits n) = true.
Proof.
  induction n as [n Hn|n Hn IH] using digits_ind.
  - rewrite digits_small by done. cbn. by rewrite digit_char_is_digit.
  - rewrite digits_step, all_digits_app, IH by done. cbn.
    rewrite digit_char_is_digit; [done|]. by apply N.mod_lt.
Qed.

Lemma digits_val_app a b acc :
  JSON.digits_val (a +:+ b) acc = JSON.digits_val b (JSON.digits_val a acc).
Proof.
  revert acc. induction a as [|x a IH]; intros acc; [reflexivity|].
  rewrite str_app_cons. cbn. apply IH.
Qed.

Lemma digits_val_char d acc :
  (d < 10)%N →
  JSON.digits_val (String (JS.digit_char d) "") acc = (acc * 10 + d)%N.
Proof. intros Hd. cbn. rewrite digit_char_val by done. lia. Qed.

Lemma digits_val_digits n : JSON.digits_val (JS.digits n) 0 = n.
Proof.
  induction n as [n Hn|n Hn IH] using digits_ind.
  - rewrite digits_small, digits_val_char by done. lia.
  - rewrite digits_step, digits_val_app, IH, digits_val_char by done || by apply N.mod_lt.
    rewrite (N.div_mod n 10) at 3 by done. lia.
Qed.

(** A number that is not zero is written without a leading zero. *)
Lemma digits_head n :
  n ≠ 0%N →
  ∃ c r, JS.digits n = String c r ∧ JSON.is_digit c = true ∧ N_of_ascii c ≠ 48%N.
Proof.
  induction n as [n Hn|n Hn IH] using digits_ind; intros Hnz.
  - rewrite digits_small by done. eexists _, _. split; [reflexivity|].
    rewrite digit_char_is_digit, digit_char_val by done. split; [done|lia].
  - rewrite digits_step by done.
    destruct IH as (c & r & -> & Hc & Hz).
    { assert (1 <= n / 10)%N by (apply N.div_le_lower_bound; lia). lia. }
    rewrite str_app_cons. eauto.
Qed.

Lemma digits_last n :
  ∃ a, JS.digits n = a +:+ String (JS.digit_char (n mod 10)) "".
Proof.
  destruct (N.ltb_spec n 10) as [Hlt|Hge].
  - exists "". rewrite digits_small, N.mod_small by done. reflexivity.
  - eexists. by apply digits_step.
Qed.

Lemma zeros_all k : all_digits (JS.zeros k) = true.
Proof. induction k as [|k IH]; [reflexivity|]. cbn. exact IH. Qed.

Lemma zeros_val k acc : JSON.digits_val (JS.zeros k) acc = (acc * 10 ^ N.of_nat k)%N.
Proof.
  revert acc. induction k as [|k IH]; intros acc; [cbn; lia|].
  cbn [JS.zeros JSON.digits_val]. rewrite IH.
  rewrite Nat2N.inj_succ, N.pow_succ_r'. cbn. lia.
Qed.

Lemma zeros_length k : String.length (JS.zeros k) = k.
Proof. induction k as [|k IH]; [reflexivity|]. cbn. by rewrite IH. Qed.

Lemma strip_zeros_zeros k : JSON.strip_zeros (JS.zeros k) = ("", k).
Proof. induction k as [|k IH]; [reflexivity|]. cbn. by rewrite IH. Qed.

Lemma strip_zeros_end a c k :
  N_of_ascii c ≠ 48%N →
  JSON.strip_zeros (a +:+ String c (JS.zeros k)) = (a +:+ String c "", k).
Proof.
  intros Hc. induction a as [|x a IH].
  - rewrite !str_app_nil_l. cbn [JSON.strip_zeros]. rewrite strip_zeros_zeros.
    by destruct (N.eqb_spec (N_of_ascii c) 48).
  - rewrite !str_app_cons. cbn [JSON.strip_zeros]. rewrite IH.
    destruct a; reflexivity.
Qed.

Lemma take_digits_app s rest :
  all_digits s = true → digits_end rest → JSON.take_digits (s +:+ rest) = (s, rest).
Proof.
  intros Hs Hr. induction s as [|x s IH].
  - rewrite str_app_nil_l. destruct rest as [|c r]; [reflexivity|].
    cbn in *. by rewrite Hr.
  - cbn in Hs. apply andb_true_iff in Hs as [Hx Hs].
    rewrite str_app_cons. cbn. by rewrite Hx, IH.
Qed.

Lemma str_take_drop n s : JS.str_take n s +:+ JS.str_drop n s = s.
Proof.
  revert s. induction n as [|n IH]; intros [|c s]; try reflexivity.
  cbn. by rewrite str_app_cons, IH.
Qed.

Lemma all_digits_take n s : all_digits s = true → all_digits (JS.str_take n s) = true.
Proof.
  revert s. induction n as [|n IH]; intros [|c s] Hs; try reflexivity.
  cbn in *. apply andb_true_iff in Hs as [-> Hs]. by apply IH.
Qed.

Lemma str_take_length n s :
  (n <= String.length s)%nat → String.length (JS.str_take n s) = n.
Proof.
  revert s. induction n as [|n IH]; intros [|c s] Hn; cbn in *; try lia.
  rewrite IH; lia.
Qed.

Lemma str_drop_length n s :
  String.length (JS.str_drop n s) = (String.length s - n)%nat.
Proof.
  revert s. induction n as [|n IH]; intros [|c s]; cbn; try lia. apply IH.
Qed.

(** ** Reading back a printed number *)

Lemma num_end_digits_end rest : num_end rest → digits_end rest.
Proof. destruct rest; [done|]. by intros [? _]. Qed.

Lemma parse_number_unfold s :
  JSON.parse_number s =
  match s with
  | String c r =>
      if (N_of_ascii c =? 45)%N then number_body true r else number_body false s
  | EmptyString => None
  end.
Proof.
  destruct s as [|c r]; [reflexivity|]. unfold JSON.parse_number.
  destruct (N_of_ascii c =? 45)%N; reflexivity.
Qed.

Lemma parse_int_part_ok ip tail :
  int_ok ip → digits_end tail → JSON.parse_int_part (ip +:+ tail) = Some (ip, tail).
Proof.
  intros [->|(c & r & -> & Hall & Hc)] Htail; [reflexivity|].
  rewrite str_app_cons. unfold JSON.parse_int_part.
  destruct (N.eqb_spec (N_of_ascii c) 48) as [|_]; [done|].
  pose proof Hall as Hall'. cbn in Hall'. apply andb_true_iff in Hall' as [-> _].
  rewrite <- str_app_cons. by rewrite take_digits_app.
Qed.

Lemma parse_frac_none rest :
  num_end rest → JSON.parse_frac rest = Some ("", rest).
Proof.
  destruct rest as [|c r]; [reflexivity|]. intros (_ & Hdot & _). cbn.
  by destruct (N.eqb_spec (N_of_ascii c) 46).
Qed.

Lemma parse_frac_exp_head tail :
  JSON.parse_frac (String "e" tail) = Some ("", String "e" tail).
Proof. reflexivity. Qed.

Lemma parse_frac_some fp tail :
  fp ≠ "" → all_digits fp = true → digits_end tail →
  JSON.parse_frac (String "." (fp +:+ tail)) = Some (fp, tail).
Proof.
  intros Hne Hall Htail. cbn. rewrite take_digits_app by done.
  by destruct fp.
Qed.

Lemma parse_exp_none rest : num_end rest → JSON.parse_exp rest = Some (0, rest).
Proof.
  destruct rest as [|c r]; [reflexivity|]. intros (_ & _ & He & HE). cbn.
  destruct (N.eqb_spec (N_of_ascii c) 101); [done|].
  by destruct (N.eqb_spec (N_of_ascii c) 69).
Qed.

Lemma digits_nonempty n : JS.digits n ≠ "".
Proof.
  destruct (digits_last n) as [a ->]. by destruct a.
Qed.

Lemma parse_exp_some x rest :
  digits_end rest →
  JSON.parse_exp (String "e" ((if x <? 0 then "-" else "+") +:+
                              JS.digits (Z.to_N (Z.abs x)) +:+ rest))
  = Some (x, rest).
Proof.
  intros Hrest.
  assert (Hd : ∀ sg, JSON.parse_exp
                       (String "e" (String sg (JS.digits (Z.to_N (Z.abs x)) +:+ rest)))
                     = (if (N_of_ascii sg =? 45)%N
                        then Some (- Z.of_N (Z.to_N (Z.abs x)), rest)
                        else if (N_of_ascii sg =? 43)%N
                             then Some (Z.of_N (Z.to_N (Z.abs x)), rest)
                             else JSON.parse_exp
                                    (String "e" (String sg (JS.digits (Z.to_N (Z.abs x))
                                                            +:+ rest))))).
  { intros sg. cbn [JSON.parse_exp]. cbn [N_of_ascii N.eqb orb Pos.eqb].
    change ((N_of_ascii "e" =? 101)%N || (N_of_ascii "e" =? 69)%N) with true.
    cbv iota.
    destruct (N_of_ascii sg =? 45)%N eqn:E1.
    - rewrite take_digits_app by (done || apply digits_all).
      pose proof (digits_nonempty (Z.to_N (Z.abs x))).
      destruct (JS.digits _) eqn:Ed; [done|]. rewrite <- Ed, digits_val_digits.
      reflexivity.
    - destruct (N_of_ascii sg =? 43)%N eqn:E2; [|reflexivity].
      rewrite take_digits_app by (done || apply digits_all).
      pose proof (digits_nonempty (Z.to_N (Z.abs x))).
      destruct (JS.digits _) eqn:Ed; [done|]. rewrite <- Ed, digits_val_digits.
      reflexivity. }
  destruct (Z.ltb_spec x 0) as [Hneg|Hpos]; rewrite str_app_cons, str_app_nil_l, Hd.
  - cbn. f_equal. f_equal. lia.
  - cbn. f_equal. f_equal. lia.
Qed.

Lemma decimal_spec neg ip fp ex n j k :
  (n mod 10 ≠ 0)%N →
  ip +:+ fp = JS.zeros j +:+ JS.digits n +:+ JS.zeros k →
  JSON.decimal neg ip fp ex =
  JNum (if neg then - Z.of_N n else Z.of_N n)
       (ex - Z.of_nat (String.length fp) + Z.of_nat k).
Proof.
  intros Hn Heq. unfold JSON.decimal. rewrite Heq.
  destruct (digits_last n) as [a Ha]. rewrite Ha.
  rewrite <- !str_app_assoc, str_app_assoc, str_app_cons, str_app_nil_l.
  rewrite strip_zeros_end.
  2:{ rewrite digit_char_val by (by apply N.mod_lt). lia. }
  rewrite str_app_assoc, <- Ha, digits_val_app, zeros_val, N.mul_0_l, digits_val_digits.
  destruct (Z.eqb_spec (Z.of_N n) 0) as [E|_]; [|reflexivity].
  assert (n = 0%N) as -> by lia. done.
Qed.

Section NumberBody.

Variable neg : bool.
Variable n : N.
Variable e : Z.
Variable rest : string.
Hypothesis Hlast : (n mod 10 ≠ 0)%N.
Hypothesis Hrest : num_end rest.

Let s := JS.digits n.
Let signed := if neg then - Z.of_N n else Z.of_N n.

Lemma digits_int_ok : int_ok s.
Proof.
  right. destruct (digits_head n) as (c & r & Hs & Hc & Hz).
  { intros ->. by apply Hlast. }
  exists c, r. split; [done|]. split; [apply digits_all|done].
Qed.

Lemma int_ok_app_digits ip t : int_ok ip → ip ≠ "0" → all_digits t = true → int_ok (ip +:+ t).
Proof.
  intros [->|(c & r & -> & Hall & Hc)] Hne Ht; [done|]. right.
  exists c, (r +:+ t). split; [by rewrite str_app_cons|].
  split; [|done]. by rewrite all_digits_app, Hall, Ht.
Qed.

Lemma digits_not_zero_string : s ≠ "0".
Proof.
  intros Hs. pose proof (digits_val_digits n) as Hv. fold s in Hv. rewrite Hs in Hv.
  cbn in Hv. subst n. by apply Hlast.
Qed.

Lemma number_body_integer k :
  e = Z.of_nat k →
  number_body neg ((s +:+ JS.zeros k) +:+ rest) = Some (JNum signed e, rest).
Proof.
  intros He. unfold number_body.
  rewrite parse_int_part_ok, parse_frac_none, parse_exp_none;
    try done; try by apply num_end_digits_end.
  2:{ apply int_ok_app_digits;
        [apply digits_int_ok|apply digits_not_zero_string|apply zeros_all]. }
  rewrite (decimal_spec neg _ "" 0 n 0 k Hlast) by (by rewrite str_app_nil_r).
  rewrite str_length_nil. unfold signed. do 3 f_equal. lia.
Qed.

Lemma int_ok_take p : (1 <= p)%nat → int_ok (JS.str_take p s).
Proof.
  intros Hp. destruct digits_int_ok as [Hs|(c & r & Hs & Hall & Hc)].
  - by destruct digits_not_zero_string.
  - right. destruct p as [|p]; [lia|].
    exists c, (JS.str_take p r). split; [by rewrite Hs|]. split; [|done].
    by apply all_digits_take.
Qed.

Lemma all_digits_drop p : all_digits (JS.str_drop p s) = true.
Proof.
  pose proof (digits_all n) as Hall. fold s in Hall.
  rewrite <- (str_take_drop p s), all_digits_app in Hall.
  by apply andb_true_iff in Hall as [_ ->].
Qed.

Lemma drop_nonempty p : (p < String.length s)%nat → JS.str_drop p s ≠ "".
Proof.
  intros Hp Hd. pose proof (str_drop_length p s) as Hl. rewrite Hd, str_length_nil in Hl. lia.
Qed.

Lemma number_body_point p :
  (1 <= p)%nat → (p < String.length s)%nat →
  e = Z.of_nat p - Z.of_nat (String.length s) →
  number_body neg ((JS.str_take p s +:+ "." +:+ JS.str_drop p s) +:+ rest)
  = Some (JNum signed e, rest).
Proof.
  intros Hp1 Hp2 He. unfold number_body.
  rewrite !str_app_assoc, str_app_cons, str_app_nil_l.
  rewrite parse_int_part_ok by (by apply int_ok_take || done).
  rewrite parse_frac_some;
    [|by apply drop_nonempty|apply all_digits_drop|by apply num_end_digits_end].
  rewrite parse_exp_none by done.
  rewrite (decimal_spec neg _ _ 0 n 0 0 Hlast)
    by (by rewrite str_take_drop, str_app_nil_r).
  rewrite str_drop_length. unfold signed. do 3 f_equal. fold s. lia.
Qed.

Lemma number_body_small q :
  e = - Z.of_nat q - Z.of_nat (String.length s) →
  number_body neg (("0." +:+ JS.zeros q +:+ s) +:+ rest) = Some (JNum signed e, rest).
Proof.
  intros He. unfold number_body.
  rewrite !str_app_assoc, !str_app_cons, str_app_nil_l.
  rewrite <- (str_app_nil_l (String "." _)), <- (str_app_cons "0" "").
  rewrite parse_int_part_ok by (by left || done).
  rewrite <- str_app_assoc.
  rewrite parse_frac_some.
  - rewrite parse_exp_none by done.
    rewrite (decimal_spec neg _ _ 0 n (S q) 0 Hlast).
    + rewrite str_length_app, zeros_length. unfold signed. do 3 f_equal. fold s. lia.
    + by rewrite str_app_nil_r.
  - intros Hz. apply (f_equal String.length) in Hz.
    rewrite str_length_app in Hz. pose proof (digits_nonempty n) as Hd. fold s in Hd.
    destruct s; [done|]. cbn in Hz. lia.
  - rewrite all_digits_app, zeros_all. apply digits_all.
  - by apply num_end_digits_end.
Qed.

Lemma number_body_exp_one x :
  String.length s = 1%nat → e = x →
  number_body neg ((s +:+ "e" +:+ exp_text x) +:+ rest) = Some (JNum signed e, rest).
Proof.
  intros Hk He. unfold number_body, exp_text.
  rewrite !str_app_assoc, !str_app_cons, str_app_nil_l.
  rewrite parse_int_part_ok by (apply digits_int_ok || done).
  rewrite parse_frac_exp_head, parse_exp_some by (by apply num_end_digits_end).
  rewrite (decimal_spec neg _ "" x n 0 0 Hlast) by (by rewrite !str_app_nil_r).
  rewrite str_length_nil. unfold signed. do 3 f_equal. lia.
Qed.

Lemma number_body_exp_many x :
  (2 <= String.length s)%nat → e = x - (Z.of_nat (String.length s) - 1) →
  number_body neg ((JS.str_take 1 s +:+ "." +:+ JS.str_drop 1 s +:+ "e" +:+ exp_text x)
                   +:+ rest)
  = Some (JNum signed e, rest).
Proof.
  intros Hk He. unfold number_body, exp_text.
  rewrite !str_app_assoc, !str_app_cons, !str_app_nil_l.
  rewrite parse_int_part_ok by (by apply int_ok_take || done).
  rewrite parse_frac_some;
    [|apply drop_nonempty; lia|apply all_digits_drop|done].
  rewrite parse_exp_some by (by apply num_end_digits_end).
  rewrite (decimal_spec neg _ _ x n 0 0 Hlast)
    by (by rewrite str_take_drop, str_app_nil_r).
  rewrite str_drop_length. unfold signed. do 3 f_equal. fold s. lia.
Qed.

End NumberBody.

Lemma number_body_head neg t v r :
  number_body neg t = Some (v, r) →
  ∃ c t', t = String c t' ∧ (N_of_ascii c =? 45)%N = false.
Proof.
  unfold number_body, JSON.parse_int_part. destruct t as [|c t']; [discriminate|].
  intros H. exists c, t'. split; [done|].
  destruct (N.eqb_spec (N_of_ascii c) 48) as [E|_].
  - rewrite E. reflexivity.
  - destruct (JSON.is_digit c) eqn:Hd; [|discriminate].
    unfold JSON.is_digit in Hd. apply andb_true_iff in Hd as [H1 H2].
    apply N.leb_le in H1. apply N.eqb_neq. lia.
Qed.

Lemma abs_mod10 m : m mod 10 ≠ 0 → (Z.to_N (Z.abs m) mod 10 ≠ 0)%N.
Proof.
  intros Hm Hn. apply Hm. apply Z.mod_divide; [done|].
  apply Z.divide_abs_r. apply Z.mod_divide; [done|].
  apply (f_equal Z.of_N) in Hn. rewrite N2Z.inj_mod, Z2N.id in Hn by lia.
  exact Hn.
Qed.

(** Reading back what [Number::toString] wrote gives the number. *)
Lemma parse_number_print m e rest :
  normal m e → num_end rest →
  JSON.parse_number (JS.num_to_string m e +:+ rest) = Some (JNum m e, rest).
Proof.
  intros Hnorm Hrest. unfold JS.num_to_string.
  destruct (Z.eqb_spec m 0) as [->|Hm].
  - destruct Hnorm as [[_ ->]|H]; [|done].
    rewrite parse_number_unfold, str_app_cons, str_app_nil_l.
    change (N_of_ascii "0" =? 45)%N with false. cbv iota.
    unfold number_body. rewrite <- (str_app_nil_l rest), <- str_app_cons.
    rewrite parse_int_part_ok by (by left || by apply num_end_digits_end).
    rewrite parse_frac_none, parse_exp_none by done. reflexivity.
  - destruct Hnorm as [[? _]|Hlast]; [done|]. apply abs_mod10 in Hlast.
    set (n := Z.to_N (Z.abs m)) in *. set (s := JS.digits n).
    set (k := Z.of_nat (String.length s)). set (nn := k + e).
    assert (Hk : 1 <= k).
    { pose proof (digits_nonempty n) as Hd. fold s in Hd. unfold k.
      destruct s; [done|]. cbn. lia. }
    match goal with |- JSON.parse_number ((?sg +:+ ?b) +:+ _) = _ => set (body := b) end.
    assert (Hbody : ∀ neg, number_body neg (body +:+ rest)
                          = Some (JNum (if neg then - Z.of_N n else Z.of_N n) e, rest)).
    { intros neg. unfold body.
      destruct (Z.leb_spec k nn); destruct (Z.leb_spec nn 21); cbn [andb].
      - apply number_body_integer; try done. lia.
      - destruct (Z.ltb_spec 0 nn); cbn [andb]; [|lia].
        destruct (Z.ltb_spec (-6) nn); cbn [andb]; [destruct (Z.leb_spec nn 0); [lia|]|lia].
        fold (exp_text (nn - 1)). destruct (Z.eqb_spec k 1).
        + apply number_body_exp_one; try done; fold s; lia.
        + apply number_body_exp_many; try done; fold s; lia.
      - destruct (Z.ltb_spec 0 nn); cbn [andb].
        + apply number_body_point; try done; fold s; lia.
        + destruct (Z.ltb_spec (-6) nn); cbn [andb].
          * destruct (Z.leb_spec nn 0); [|lia].
            apply number_body_small; try done. fold s. lia.
          * fold (exp_text (nn - 1)). destruct (Z.eqb_spec k 1).
            -- apply number_body_exp_one; try done; fold s; lia.
            -- apply number_body_exp_many; try done; fold s; lia.
      - destruct (Z.ltb_spec 0 nn); cbn [andb]; [|lia].
        destruct (Z.ltb_spec (-6) nn); cbn [andb]; [destruct (Z.leb_spec nn 0); [lia|]|lia].
        fold (exp_text (nn - 1)). destruct (Z.eqb_spec k 1).
        + apply number_body_exp_one; try done; fold s; lia.
        + apply number_body_exp_many; try done; fold s; lia. }
    rewrite parse_number_unfold, str_app_assoc.
    destruct (Z.ltb_spec m 0) as [Hneg|Hpos].
    + rewrite str_app_cons, str_app_nil_l.
      change (N_of_ascii "-" =? 45)%N with true. cbv iota.
      rewrite Hbody. do 3 f_equal. lia.
    + rewrite str_app_nil_l.
      destruct (number_body_head _ _ _ _ (Hbody false)) as (c & t' & Ht & Hc).
      rewrite Ht, Hc, <- Ht, Hbody. do 3 f_equal. lia.
Qed.

(** ** Reading back a quoted string *)

(** A [\u] escape that is not the first half of a surrogate pair. *)
Lemma parse_chars_u h1 h2 h3 h4 r2 hi :
  JSON.hex4 h1 h2 h3 h4 = Some hi → JSON.is_high hi = false →
  JSON.parse_chars
    (String JSON.backslash (String "u" (String h1 (String h2 (String h3 (String h4 r2))))))
  = JSON.prepend (JSON.utf8 hi) (JSON.parse_chars r2).
Proof.
  intros Hh Hhi.
  transitivity
    (match JSON.hex4 h1 h2 h3 h4 with
     | Some hi =>
         match r2 with
         | String b (String u (String l1 (String l2 (String l3 (String l4 r3))))) =>
             match JSON.hex4 l1 l2 l3 l4 with
             | Some lo =>
                 if JSON.is_high hi && (N_of_ascii b =? 92)%N
                    && (N_of_ascii u =? 117)%N && JSON.is_low lo
                 then JSON.prepend
                        (JSON.utf8 (65536 + (hi - 55296) * 1024 + (lo - 56320))%N)
                        (JSON.parse_chars r3)
                 else JSON.prepend (JSON.utf8 hi) (JSON.parse_chars r2)
             | None => JSON.prepend (JSON.utf8 hi) (JSON.parse_chars r2)
             end
         | _ => JSON.prepend (JSON.utf8 hi) (JSON.parse_chars r2)
         end
     | None => None
     end); [reflexivity|].
  rewrite Hh, Hhi. cbn [andb].
  destruct r2 as [|b [|u [|l1 [|l2 [|l3 [|l4 r3]]]]]]; try reflexivity.
  destruct (JSON.hex4 l1 l2 l3 l4); reflexivity.
Qed.

Lemma parse_chars_quote_char c tail :
  JSON.parse_chars (JSON.quote_char c +:+ tail)
  = JSON.prepend (String c "") (JSON.parse_chars tail).
Proof.
  destruct c as [[] [] [] [] [] [] [] []]; try reflexivity.
  all: lazymatch goal with
       | |- JSON.parse_chars (?q +:+ _) = _ =>
           let q' := eval vm_compute in q in change q with q'
       end;
       rewrite !str_app_cons, str_app_nil_l;
       (erewrite parse_chars_u; [|reflexivity|reflexivity]); reflexivity.
Qed.

Lemma parse_chars_quote s rest :
  JSON.parse_chars (JSON.quote_body s +:+ String JSON.dquote rest) = Some (s, rest).
Proof.
  induction s as [|c s IH]; [reflexivity|].
  cbn [JSON.quote_body]. rewrite str_app_assoc, parse_chars_quote_char, IH.
  reflexivity.
Qed.

(** ** The values [JSON.parse] produces *)

Lemma canonical_arr xs : canonical (JArr xs) ↔ Forall canonical xs.
Proof.
  cbn. induction xs as [|x xs IH]; [by split|].
  rewrite Forall_cons. by rewrite IH.
Qed.

Lemma canonical_obj fields :
  canonical (JObj fields) ↔
  Forall (fun kv => canonical (snd kv)) fields ∧ NoDup (map fst fields).
Proof.
  cbn. apply and_iff_compat_r.
  induction fields as [|kv fields IH]; [by split|].
  rewrite Forall_cons. by rewrite IH.
Qed.

Lemma JSValue_nested_ind (P : JSValue → Prop) :
  P JUndefined → P JNull → (∀ b, P (JBool b)) → (∀ m e, P (JNum m e)) →
  (∀ s, P (JStr s)) →
  (∀ xs, Forall P xs → P (JArr xs)) →
  (∀ fields, Forall (fun kv => P (snd kv)) fields → P (JObj fields)) →
  ∀ v, P v.
Proof.
  intros Hu Hn Hb Hnum Hs Harr Hobj.
  refine (fix IH (v : JSValue) : P v :=
            match v with
            | JUndefined => Hu
            | JNull => Hn
            | JBool b => Hb b
            | JNum m e => Hnum m e
            | JStr s => Hs s
            | JArr xs =>
                Harr xs ((fix go (l : list JSValue) : Forall P l :=
                            match l with
                            | [] => @List.Forall_nil _ _
                            | x :: r => @List.Forall_cons _ _ x r (IH x) (go r)
                            end) xs)
            | JObj fields =>
                Hobj fields
                  ((fix go (l : list (string * JSValue))
                      : Forall (fun kv => P (snd kv)) l :=
                      match l with
                      | [] => @List.Forall_nil _ _
                      | kv :: r => @List.Forall_cons _ _ kv r (IH (snd kv)) (go r)
                      end) fields)
            end).
Qed.

Lemma stringify_canonical v : canonical v → ∃ s, JSON.stringify v = Some s.
Proof. destruct v as [| |[]| | | |]; try done; intros _; by eexists. Qed.

Lemma delim_num_end rest : delim rest → num_end rest.
Proof.
  destruct rest as [|c r]; [done|]. by intros [-> | [-> | ->]].
Qed.

Lemma parse_number_head t v r :
  JSON.parse_number t = Some (v, r) →
  ∃ c t', t = String c t' ∧ (N_of_ascii c = 45%N ∨ JSON.is_digit c = true).
Proof.
  rewrite parse_number_unfold. destruct t as [|c t']; [discriminate|].
  destruct (N.eqb_spec (N_of_ascii c) 45) as [E|_]; [eauto|].
  unfold number_body, JSON.parse_int_part. intros H. exists c, t'. split; [done|]. right.
  destruct (N.eqb_spec (N_of_ascii c) 48) as [E|_].
  - unfold JSON.is_digit. by rewrite E.
  - by destruct (JSON.is_digit c).
Qed.

Lemma number_start c :
  N_of_ascii c = 45%N ∨ JSON.is_digit c = true → value_start c.
Proof.
  intros H.
  destruct c as [[] [] [] [] [] [] [] []];
    try (by repeat split); exfalso; by destruct H.
Qed.

Lemma parse_value_number n c r :
  N_of_ascii c = 45%N ∨ JSON.is_digit c = true →
  JSON.parse_value (S n) (String c r) = JSON.parse_number (String c r).
Proof.
  intros H.
  destruct c as [[] [] [] [] [] [] [] []]; try reflexivity; exfalso; by destruct H.
Qed.

Lemma stringify_start v s :
  canonical v → JSON.stringify v = Some s →
  ∃ c r, s = String c r ∧ value_start c.
Proof.
  destruct v as [| |[]|m e|str|xs|fields]; try done; intros Hc [= <-];
    try (by eexists _, _; split; [reflexivity|repeat split]).
  pose proof (parse_number_print m e "" Hc I) as Hp. rewrite str_app_nil_r in Hp.
  destruct (parse_number_head _ _ _ Hp) as (c & t' & -> & Hc').
  exists c, t'. split; [done|]. by apply number_start.
Qed.

(** ** Reading back a printed value *)

Lemma elems_weight_cons x xs :
  elems_weight (x :: xs) = S (weight x + elems_weight xs).
Proof. reflexivity. Qed.

Lemma members_weight_cons kv fields :
  members_weight (kv :: fields) = S (weight (snd kv) + members_weight fields).
Proof. reflexivity. Qed.

Lemma weight_arr xs : weight (JArr xs) = S (elems_weight xs).
Proof. reflexivity. Qed.

Lemma weight_obj fields : weight (JObj fields) = S (members_weight fields).
Proof. reflexivity. Qed.

Lemma elem_text_some x sx : JSON.stringify x = Some sx → elem_text x = sx.
Proof. unfold elem_text. by intros ->. Qed.

Lemma skip_ws_start c r : JSON.is_ws c = false → JSON.skip_ws (String c r) = String c r.
Proof. intros H. cbn. by rewrite H. Qed.

Lemma elements_print xs :
  Forall (fun x => canonical x ∧ reads_back x) xs → xs ≠ [] →
  ∀ acc fuel rest,
    (elems_weight xs <= fuel)%nat →
    JSON.parse_elements fuel (JS.join "," (map elem_text xs) +:+ String "]" rest) acc
    = Some (JArr (acc ++ xs), rest).
Proof.
  induction xs as [|x xs IH]; [done|]. intros Hall _ acc fuel rest Hfuel.
  apply Forall_cons in Hall as [[Hx Hrb] Hall].
  rewrite elems_weight_cons in Hfuel.
  destruct fuel as [|fuel]; [lia|].
  destruct (stringify_canonical x Hx) as [sx Hsx].
  cbn [JSON.parse_elements map]. rewrite (elem_text_some x sx Hsx).
  destruct xs as [|y ys].
  - cbn [map JS.join].
    rewrite (Hrb fuel (String "]" rest) sx) by (done || lia || by right; left).
    reflexivity.
  - change (JS.join "," (sx :: map elem_text (y :: ys)))
      with (sx +:+ "," +:+ JS.join "," (map elem_text (y :: ys))).
    rewrite !str_app_assoc, str_app_cons, str_app_nil_l.
    rewrite (Hrb fuel _ sx) by (done || lia || by left).
    rewrite skip_ws_start by done.
    change (N_of_ascii "," =? 44)%N with true. cbv iota.
    rewrite IH; [by rewrite <- app_assoc|done|done|lia].
Qed.

Lemma obj_set_fresh k v acc :
  k ∉ map fst acc → JSON.obj_set k v acc = (acc ++ [(k, v)])%list.
Proof.
  induction acc as [|[k' v'] acc IH]; [done|]. cbn. intros Hk.
  apply not_elem_of_cons in Hk as [Hne Hk].
  destruct (String.eqb_spec k k'); [done|]. by rewrite IH.
Qed.

Lemma members_print fields :
  Forall (fun kv => canonical (snd kv) ∧ reads_back (snd kv)) fields → fields ≠ [] →
  ∀ acc fuel rest,
    NoDup (map fst (acc ++ fields)%list) →
    (members_weight fields <= fuel)%nat →
    JSON.parse_members fuel (JS.join "," (omap member_text fields) +:+ String "}" rest) acc
    = Some (JObj (acc ++ fields), rest).
Proof.
  induction fields as [|[k x] fields IH]; [done|].
  intros Hall _ acc fuel rest Hnd Hfuel.
  apply Forall_cons in Hall as [[Hx Hrb] Hall]. cbn [snd] in Hx, Hrb.
  rewrite members_weight_cons in Hfuel. cbn [snd] in Hfuel.
  destruct fuel as [|fuel]; [lia|].
  destruct (stringify_canonical x Hx) as [sx Hsx].
  assert (Hfresh : k ∉ map fst acc).
  { rewrite map_app in Hnd. cbn in Hnd. apply NoDup_app in Hnd as (_ & Hdis & _).
    intros Hin. apply (Hdis k Hin). by left. }
  assert (Hnd' : NoDup (map fst ((acc ++ [(k, x)]) ++ fields)%list))
    by by rewrite <- app_assoc.
  cbn [omap list_omap]. unfold member_text at 1. cbn [fst snd]. rewrite Hsx.
  assert (Hread : ∀ tail, delim tail →
            JSON.parse_members (S fuel)
              ((JSON.quote k +:+ ":" +:+ sx) +:+ tail) acc
            = match JSON.skip_ws tail with
              | String d r4 =>
                  if (N_of_ascii d =? 44)%N
                  then JSON.parse_members fuel r4 (acc ++ [(k, x)])%list
                  else if (N_of_ascii d =? 125)%N
                       then Some (JObj (acc ++ [(k, x)])%list, r4)
                       else None
              | EmptyString => None
              end).
  { intros tail Htail. unfold JSON.quote.
    rewrite !str_app_assoc, !str_app_cons, !str_app_nil_l, str_app_assoc, str_app_cons,
      str_app_nil_l.
    cbn [JSON.parse_members].
    rewrite skip_ws_start by done.
    change (N_of_ascii JSON.dquote =? 34)%N with true. cbv iota.
    rewrite parse_chars_quote. rewrite skip_ws_start by done.
    change (N_of_ascii ":" =? 58)%N with true. cbv iota.
    rewrite (Hrb fuel tail sx) by (done || lia).
    by rewrite obj_set_fresh. }
  destruct fields as [|kv' fields'].
  - cbn [omap list_omap JS.join]. rewrite Hread by (by right; right).
    reflexivity.
  - destruct (omap member_text (kv' :: fields')) as [|t ts] eqn:Hom.
    { exfalso. apply Forall_cons in Hall as [[Hc _] _].
      destruct (stringify_canonical _ Hc) as [s' Hs'].
      cbn [omap list_omap] in Hom. unfold member_text in Hom at 1. by rewrite Hs' in Hom. }
    change (JS.join "," ((JSON.quote k +:+ ":" +:+ sx) :: t :: ts))
      with ((JSON.quote k +:+ ":" +:+ sx) +:+ "," +:+ JS.join "," (t :: ts)).
    rewrite (str_app_assoc (JSON.quote k +:+ ":" +:+ sx)).
    rewrite Hread.
    2:{ rewrite str_app_assoc, str_app_cons. by left. }
    rewrite str_app_assoc, str_app_cons, str_app_nil_l.
    rewrite skip_ws_start by done.
    change (N_of_ascii "," =? 44)%N with true. cbv iota.
    rewrite IH; [by rewrite <- app_assoc|done|done|done|lia].
Qed.

Lemma parse_value_string n r :
  JSON.parse_value (S n) (String JSON.dquote r) =
  match JSON.parse_chars r with
  | Some (str, rest) => Some (JStr str, rest)
  | None => None
  end.
Proof. reflexivity. Qed.

Lemma parse_value_array n r :
  JSON.parse_value (S n) (String "[" r) =
  match JSON.skip_ws r with
  | String c' r' =>
      if (N_of_ascii c' =? 93)%N then Some (JArr [], r') else JSON.parse_elements n r []
  | EmptyString => None
  end.
Proof. reflexivity. Qed.

Lemma parse_value_object n r :
  JSON.parse_value (S n) (String "{" r) =
  match JSON.skip_ws r with
  | String c' r' =>
      if (N_of_ascii c' =? 125)%N then Some (JObj [], r') else JSON.parse_members n r []
  | EmptyString => None
  end.
Proof. reflexivity. Qed.

Lemma join_start p ps sep :
  (∃ c r, p = String c r) → ∃ r', JS.join sep (p :: ps) = p +:+ r'.
Proof.
  intros _. destruct ps as [|q ps].
  - exists "". by rewrite str_app_nil_r.
  - by eexists.
Qed.

Lemma stringify_arr xs :
  JSON.stringify (JArr xs) = Some ("[" +:+ JS.join "," (map elem_text xs) +:+ "]").
Proof. reflexivity. Qed.

Lemma stringify_obj fields :
  JSON.stringify (JObj fields)
  = Some ("{" +:+ JS.join "," (omap member_text fields) +:+ "}").
Proof. reflexivity. Qed.

(** A printed canonical value is read back as itself. *)
Lemma parse_value_stringify v : canonical v → reads_back v.
Proof.
  induction v as [| |b|m e|str|xs IH|fields IH] using JSValue_nested_ind;
    intros Hc fuel rest s Hfuel Hrest Hs; try done.
  - injection Hs as <-. destruct fuel; [cbn in Hfuel; lia|]. reflexivity.
  - destruct fuel; [cbn in Hfuel; lia|]. by destruct b; injection Hs as <-.
  - injection Hs as <-. destruct fuel; [cbn in Hfuel; lia|].
    pose proof (parse_number_print m e rest Hc (delim_num_end _ Hrest)) as Hp.
    destruct (parse_number_head _ _ _ Hp) as (c & t' & Ht & Hhead).
    rewrite Ht in *. by rewrite parse_value_number.
  - injection Hs as <-. destruct fuel; [cbn in Hfuel; lia|].
    unfold JSON.quote. rewrite str_app_cons, str_app_assoc, str_app_cons, str_app_nil_l.
    by rewrite parse_value_string, parse_chars_quote.
  - rewrite stringify_arr in Hs. injection Hs as <-. rewrite weight_arr in Hfuel.
    destruct fuel as [|fuel]; [lia|].
    rewrite !str_app_cons, str_app_nil_l, str_app_assoc, str_app_cons, str_app_nil_l.
    rewrite parse_value_array.
    destruct xs as [|x xs]; [reflexivity|].
    apply canonical_arr in Hc.
    assert (Hall : Forall (fun x => canonical x ∧ reads_back x) (x :: xs)).
    { apply Forall_forall. intros y Hy. rewrite Forall_forall in IH, Hc.
      split; [by apply Hc|]. apply IH; [done|]. by apply Hc. }
    apply Forall_cons in Hc as [Hx _].
    destruct (stringify_canonical x Hx) as [sx Hsx].
    destruct (stringify_start x sx Hx Hsx) as (c & r0 & -> & Hws & H93 & _).
    destruct (join_start (String c r0) (map elem_text xs) ",") as [r' Hj]; [by eexists _, _|].
    assert (E : ∃ t0, JS.join "," (map elem_text (x :: xs)) +:+ String "]" rest
                      = String c t0).
    { cbn [map]. rewrite (elem_text_some x _ Hsx), Hj, str_app_assoc, str_app_cons.
      by eexists. }
    destruct E as [t0 E]. rewrite E, skip_ws_start, H93, <- E by done.
    rewrite (elements_print (x :: xs) Hall) by (done || lia).
    reflexivity.
  - rewrite stringify_obj in Hs. injection Hs as <-. rewrite weight_obj in Hfuel.
    destruct fuel as [|fuel]; [lia|].
    rewrite !str_app_cons, str_app_nil_l, str_app_assoc, str_app_cons, str_app_nil_l.
    rewrite parse_value_object.
    destruct fields as [|[k x] fields]; [reflexivity|].
    apply canonical_obj in Hc as [Hc Hnd].
    assert (Hall : Forall (fun kv => canonical (snd kv) ∧ reads_back (snd kv))
                     ((k, x) :: fields)).
    { apply Forall_forall. intros y Hy. rewrite Forall_forall in IH, Hc.
      split; [by apply Hc|]. apply IH; [done|]. by apply Hc. }
    apply Forall_cons in Hc as [Hx _]. cbn [snd] in Hx.
    destruct (stringify_canonical x Hx) as [sx Hsx].
    assert (E : ∃ t0, JS.join "," (omap member_text ((k, x) :: fields)) +:+ String "}" rest
                      = String JSON.dquote t0).
    { cbn [omap list_omap]. unfold member_text at 1. cbn [fst snd]. rewrite Hsx.
      destruct (join_start (JSON.quote k +:+ ":" +:+ sx) (omap member_text fields) ",")
        as [r' Hj]; [by eexists _, _|].
      rewrite Hj. unfold JSON.quote. rewrite !str_app_assoc, !str_app_cons.
      by eexists. }
    destruct E as [t0 E]. rewrite E, skip_ws_start by done.
    change (N_of_ascii JSON.dquote =? 125)%N with false. cbv iota. rewrite <- E.
    rewrite (members_print ((k, x) :: fields) Hall)
      by (done || lia).
    reflexivity.
Qed.

(** *** The fuel [JSON.parse] gives is enough *)

Lemma str_length_cons c r : String.length (String c r) = S (String.length r).
Proof. reflexivity. Qed.

Lemma elems_bound xs :
  Forall (fun x => canonical x ∧ bounded x) xs →
  (elems_weight xs <= 2 * String.length (JS.join "," (map elem_text xs)) + 1)%nat.
Proof.
  induction xs as [|x xs IH]; intros Hall; [cbn; lia|].
  apply Forall_cons in Hall as [[Hx Hb] Hall]. specialize (IH Hall).
  destruct (stringify_canonical x Hx) as [sx Hsx]. specialize (Hb sx Hsx).
  rewrite elems_weight_cons. cbn [map]. rewrite (elem_text_some x sx Hsx).
  destruct xs as [|y ys].
  - cbn [map JS.join]. change (elems_weight []) with 0%nat. lia.
  - change (JS.join "," (sx :: map elem_text (y :: ys)))
      with (sx +:+ "," +:+ JS.join "," (map elem_text (y :: ys))).
    rewrite !str_length_app, str_length_cons, str_length_nil. lia.
Qed.

Lemma members_bound fields :
  Forall (fun kv => canonical (snd kv) ∧ bounded (snd kv)) fields →
  (members_weight fields
   <= 2 * String.length (JS.join "," (omap member_text fields)) + 1)%nat.
Proof.
  induction fields as [|[k x] fields IH]; intros Hall; [cbn; lia|].
  apply Forall_cons in Hall as [[Hx Hb] Hall]. specialize (IH Hall). cbn [snd] in Hx, Hb.
  destruct (stringify_canonical x Hx) as [sx Hsx]. specialize (Hb sx Hsx).
  rewrite members_weight_cons. cbn [omap list_omap snd]. unfold member_text at 1.
  cbn [fst snd]. rewrite Hsx.
  destruct (omap member_text fields) as [|t ts] eqn:Hom.
  - cbn [JS.join]. rewrite !str_length_app.
    destruct fields as [|kv fields]; [change (members_weight []) with 0%nat; lia|].
    exfalso. apply Forall_cons in Hall as [[Hc _] _].
    destruct (stringify_canonical _ Hc) as [s' Hs'].
    cbn [omap list_omap] in Hom. unfold member_text in Hom at 1. by rewrite Hs' in Hom.
  - change (JS.join "," ((JSON.quote k +:+ ":" +:+ sx) :: t :: ts))
      with ((JSON.quote k +:+ ":" +:+ sx) +:+ "," +:+ JS.join "," (t :: ts)).
    rewrite !str_length_app, !str_length_cons, str_length_nil. lia.
Qed.

Lemma weight_bound v : canonical v → bounded v.
Proof.
  induction v as [| |b|m e|str|xs IH|fields IH] using JSValue_nested_ind;
    intros Hc s Hs; try done.
  1-4: destruct (stringify_start _ s Hc Hs) as (c & r & -> & _);
       rewrite str_length_cons; cbn [weight]; lia.
  - rewrite stringify_arr in Hs. injection Hs as <-. rewrite weight_arr.
    apply canonical_arr in Hc.
    assert (Hall : Forall (fun x => canonical x ∧ bounded x) xs).
    { apply Forall_forall. intros y Hy. rewrite Forall_forall in IH, Hc.
      split; [by apply Hc|]. apply IH; [done|]. by apply Hc. }
    pose proof (elems_bound xs Hall).
    rewrite !str_length_app, !str_length_cons, !str_length_nil. lia.
  - rewrite stringify_obj in Hs. injection Hs as <-. rewrite weight_obj.
    apply canonical_obj in Hc as [Hc _].
    assert (Hall : Forall (fun kv => canonical (snd kv) ∧ bounded (snd kv)) fields).
    { apply Forall_forall. intros y Hy. rewrite Forall_forall in IH, Hc.
      split; [by apply Hc|]. apply IH; [done|]. by apply Hc. }
    pose proof (members_bound fields Hall).
    rewrite !str_length_app, !str_length_cons, !str_length_nil. lia.
Qed.

(** [JSON.parse (JSON.stringify v)] is [v], for every canonical [v]. *)
Lemma parse_stringify v s :
  canonical v → JSON.stringify v = Some s → JSON.parse s = Ok v.
Proof.
  intros Hc Hs. unfold JSON.parse.
  pose proof (parse_value_stringify v Hc (2 * String.length s + 2)%nat "" s) as Hp.
  rewrite str_app_nil_r in Hp. rewrite Hp; [reflexivity| |done|done].
  pose proof (weight_bound v Hc s Hs). lia.
Qed.

(** ** What the parser returns is canonical *)

Lemma take_digits_all s d r : JSON.take_digits s = (d, r) → all_digits d = true.
Proof.
  revert d r. induction s as [|c s IH]; intros d r; cbn; [by intros [= <- _]|].
  destruct (JSON.is_digit c) eqn:Hc; [|by intros [= <- _]].
  destruct (JSON.take_digits s) as [d' r'] eqn:Ht. intros [= <- _]. cbn.
  by rewrite Hc, (IH d' r').
Qed.

Lemma parse_int_part_all s ip r :
  JSON.parse_int_part s = Some (ip, r) → all_digits ip = true.
Proof.
  unfold JSON.parse_int_part. destruct s as [|c s]; [discriminate|].
  destruct (N_of_ascii c =? 48)%N; [by intros [= <- _]|].
  destruct (JSON.is_digit c); [|discriminate].
  destruct (JSON.take_digits (String c s)) as [d r'] eqn:Ht.
  intros [= <- _]. by eapply take_digits_all.
Qed.

Lemma parse_frac_all s fp r :
  JSON.parse_frac s = Some (fp, r) → all_digits fp = true.
Proof.
  unfold JSON.parse_frac. destruct s as [|c s]; [by intros [= <- _]|].
  destruct (N_of_ascii c =? 46)%N; [|by intros [= <- _]].
  destruct (JSON.take_digits s) as [d r'] eqn:Ht.
  destruct d; [discriminate|]. intros [= <- _]. by eapply take_digits_all.
Qed.

(** What is left of a digit string without its trailing zeros is empty
    or ends with a digit other than zero. *)
Lemma strip_zeros_shape t ds z :
  all_digits t = true → JSON.strip_zeros t = (ds, z) →
  ds = "" ∨ ∃ a c, ds = a +:+ String c "" ∧ JSON.is_digit c = true ∧ N_of_ascii c ≠ 48%N.
Proof.
  revert ds z. induction t as [|c t IH]; intros ds z Hall; cbn; [intros [= <- _]; by left|].
  cbn in Hall. apply andb_true_iff in Hall as [Hc Hall].
  destruct (JSON.strip_zeros t) as [r' z'] eqn:Hs.
  destruct (IH r' z' Hall eq_refl) as [->|(a & c' & -> & Hc' & Hz)].
  - destruct (N.eqb_spec (N_of_ascii c) 48) as [E|E]; intros [= <- _]; [by left|].
    right. exists "", c. by rewrite str_app_nil_l.
  - intros Heq. right. exists (String c a), c'.
    destruct a; injection Heq as <- _; by rewrite ?str_app_cons.
Qed.

Lemma decimal_canonical neg ip fp ex :
  all_digits ip = true → all_digits fp = true → canonical (JSON.decimal neg ip fp ex).
Proof.
  intros Hip Hfp. unfold JSON.decimal.
  destruct (JSON.strip_zeros (ip +:+ fp)) as [ds z] eqn:Hs.
  destruct (Z.eqb_spec (Z.of_N (JSON.digits_val ds 0)) 0) as [_|Hne]; [by left|].
  right. cbn.
  destruct (strip_zeros_shape (ip +:+ fp) ds z) as [->|(a & c & -> & Hc & Hz)];
    [by rewrite all_digits_app, Hip, Hfp|done|done|].
  rewrite digits_val_app. cbn [JSON.digits_val].
  unfold JSON.is_digit in Hc. apply andb_true_iff in Hc as [H1 H2].
  apply N.leb_le in H1, H2.
  set (q := JSON.digits_val a 0) in *. set (d := N_of_ascii c) in *.
  assert (Hmod : (Z.of_N (q * 10 + (d - 48))) mod 10 ≠ 0).
  { rewrite N2Z.inj_add, N2Z.inj_mul, N2Z.inj_sub by done.
    change (Z.of_N 10) with 10. change (Z.of_N 48) with 48.
    rewrite Z.add_comm, Z.mod_add by done. rewrite Z.mod_small by lia. lia. }
  destruct neg; [|done].
  intros H0. apply Hmod. apply Z.mod_divide; [done|]. apply Z.mod_divide in H0; [|done].
  apply Z.divide_opp_r. exact H0.
Qed.

Lemma parse_number_canonical t v r : JSON.parse_number t = Some (v, r) → canonical v.
Proof.
  rewrite parse_number_unfold. destruct t as [|c t']; [discriminate|].
  assert (Hb : ∀ neg s1, number_body neg s1 = Some (v, r) → canonical v).
  { intros neg s1. unfold number_body.
    destruct (JSON.parse_int_part s1) as [[ip s2]|] eqn:Hi; [|discriminate].
    destruct (JSON.parse_frac s2) as [[fp s3]|] eqn:Hf; [|discriminate].
    destruct (JSON.parse_exp s3) as [[ex s4]|]; [|discriminate].
    intros [= <- _]. apply decimal_canonical.
    - by eapply parse_int_part_all.
    - by eapply parse_frac_all. }
  destruct (N_of_ascii c =? 45)%N; apply Hb.
Qed.

Lemma obj_set_keys k v acc :
  map fst (JSON.obj_set k v acc)
  = if bool_decide (k ∈ map fst acc) then map fst acc else (map fst acc ++ [k])%list.
Proof.
  induction acc as [|[k' v'] acc IH]; [done|]. cbn.
  destruct (String.eqb_spec k k') as [->|Hne].
  - rewrite bool_decide_eq_true_2 by (by left). done.
  - cbn. rewrite IH.
    destruct (bool_decide (k ∈ map fst acc)) eqn:Hin.
    + apply bool_decide_eq_true in Hin.
      rewrite bool_decide_eq_true_2 by (by right). done.
    + apply bool_decide_eq_false in Hin.
      rewrite bool_decide_eq_false_2; [done|].
      intros [?|?]%elem_of_cons; done.
Qed.

Lemma obj_set_nodup k v acc : NoDup (map fst acc) → NoDup (map fst (JSON.obj_set k v acc)).
Proof.
  intros Hnd. rewrite obj_set_keys.
  destruct (bool_decide (k ∈ map fst acc)) eqn:Hin; [done|].
  apply bool_decide_eq_false in Hin.
  apply NoDup_app. split; [done|]. split; [|apply NoDup_singleton].
  intros x Hx ->%list_elem_of_singleton. done.
Qed.

Lemma obj_set_canonical k v acc :
  canonical v → Forall (fun kv => canonical (snd kv)) acc →
  Forall (fun kv => canonical (snd kv)) (JSON.obj_set k v acc).
Proof.
  intros Hv. induction acc as [|[k' v'] acc IH]; intros Hall; cbn.
  - by apply Forall_singleton.
  - apply Forall_cons in Hall as [Hv' Hall].
    destruct (String.eqb k k'); apply Forall_cons; split; auto.
Qed.

Lemma parser_canonical n :
  (∀ s v r, JSON.parse_value n s = Some (v, r) → canonical v) ∧
  (∀ s acc v r, Forall canonical acc →
                JSON.parse_elements n s acc = Some (v, r) → canonical v) ∧
  (∀ s acc v r, Forall (fun kv => canonical (snd kv)) acc → NoDup (map fst acc) →
                JSON.parse_members n s acc = Some (v, r) → canonical v).
Proof.
  induction n as [|n (IHv & IHe & IHm)]; [by repeat split|].
  split; [|split].
  - intros s v r. cbn [JSON.parse_value].
    destruct (JSON.skip_ws s) as [|c r0]; [discriminate|].
    destruct (N_of_ascii c =? 123)%N.
    { destruct (JSON.skip_ws r0) as [|c' r']; [discriminate|].
      destruct (N_of_ascii c' =? 125)%N.
      - intros [= <- _]. apply canonical_obj. split; [done|apply NoDup_nil_2].
      - apply IHm; [done|apply NoDup_nil_2]. }
    destruct (N_of_ascii c =? 91)%N.
    { destruct (JSON.skip_ws r0) as [|c' r']; [discriminate|].
      destruct (N_of_ascii c' =? 93)%N.
      - by intros [= <- _].
      - by apply IHe. }
    destruct (N_of_ascii c =? 34)%N.
    { destruct (JSON.parse_chars r0) as [[str rest]|]; [|discriminate].
      by intros [= <- _]. }
    destruct (N_of_ascii c =? 116)%N.
    { destruct (JSON.strip_prefix "rue" r0); [|discriminate]. by intros [= <- _]. }
    destruct (N_of_ascii c =? 102)%N.
    { destruct (JSON.strip_prefix "alse" r0); [|discriminate]. by intros [= <- _]. }
    destruct (N_of_ascii c =? 110)%N.
    { destruct (JSON.strip_prefix "ull" r0); [|discriminate]. by intros [= <- _]. }
    apply parse_number_canonical.
  - intros s acc v r Hacc. cbn [JSON.parse_elements].
    destruct (JSON.parse_value n s) as [[x r1]|] eqn:Hx; [|discriminate].
    apply IHv in Hx.
    assert (Hacc' : Forall canonical (acc ++ [x])).
    { apply Forall_app. split; [done|]. by apply Forall_singleton. }
    destruct (JSON.skip_ws r1) as [|c r']; [discriminate|].
    destruct (N_of_ascii c =? 44)%N; [by apply IHe|].
    destruct (N_of_ascii c =? 93)%N; [|discriminate].
    intros [= <- _]. by apply canonical_arr.
  - intros s acc v r Hacc Hnd. cbn [JSON.parse_members].
    destruct (JSON.skip_ws s) as [|q r0]; [discriminate|].
    destruct (N_of_ascii q =? 34)%N; [|discriminate].
    destruct (JSON.parse_chars r0) as [[key r1]|]; [|discriminate].
    destruct (JSON.skip_ws r1) as [|c r2]; [discriminate|].
    destruct (N_of_ascii c =? 58)%N; [|discriminate].
    destruct (JSON.parse_value n r2) as [[x r3]|] eqn:Hx; [|discriminate].
    apply IHv in Hx.
    pose proof (obj_set_canonical key x acc Hx Hacc) as Hacc'.
    pose proof (obj_set_nodup key x acc Hnd) as Hnd'.
    destruct (JSON.skip_ws r3) as [|d r4]; [discriminate|].
    destruct (N_of_ascii d =? 44)%N; [by apply IHm|].
    destruct (N_of_ascii d =? 125)%N; [|discriminate].
    intros [= <- _]. by apply canonical_obj.
Qed.

(** Every value [JSON.parse] returns is canonical. *)
Lemma parse_canonical text v : JSON.parse text = Ok v → canonical v.
Proof.
  unfold JSON.parse.
  destruct (JSON.parse_value _ text) as [[x rest]|] eqn:Hp; [|discriminate].
  destruct (JSON.skip_ws rest); [|discriminate]. intros [= <-].
  by eapply (proj1 (parser_canonical _)).
Qed.

(** A property of a canonical value is canonical. *)
Lemma get_canonical data k u :
  canonical data → JS.get data k = Ok u → u ≠ JUndefined → canonical u.
Proof.
  intros Hc Hg Hu. destruct data; try done; cbn in Hg; try by injection Hg as <-.
  apply canonical_obj in Hc as [Hc _].
  destruct (JS.assoc k fields) as [x|] eqn:Ha; [|by injection Hg as <-].
  injection Hg as <-. clear Hu.
  induction fields as [|[k' v'] fields IH]; [discriminate|].
  apply Forall_cons in Hc as [Hv Hc]. cbn in Ha.
  destruct (String.eqb k k'); [by injection Ha as <-|]. by apply IH.
Qed.


(** * Properties of the session lifecycle *)

(** ** Reading the state *)

Ltac unfold_m :=
  cbv beta iota delta
    [bind ret throw lift try_catch try_finally window_undefined
     localStorage_getItem localStorage_setItem localStorage_removeItem
     console_error].

Section Getters.

Lemma getAccessToken_run w :
  getAccessToken w = (Ok (stored w "access_token"), w).
Proof.
  unfold getAccessToken, stored. unfold_m.
  destruct (localStorage w) eqn:E; rewrite ?E; reflexivity.
Qed.

Lemma getRefreshToken_run w :
  getRefreshToken w = (Ok (stored w "refresh_token"), w).
Proof.
  unfold getRefreshToken, stored. unfold_m.
  destruct (localStorage w) eqn:E; rewrite ?E; reflexivity.
Qed.

Lemma getHeaders_plain w : getHeaders false w = (Ok plain_headers, w).
Proof. reflexivity. Qed.

Lemma getHeaders_auth w : getHeaders true w = (Ok (auth_headers w), w).
Proof.
  unfold getHeaders, auth_headers. unfold bind at 1.
  rewrite getAccessToken_run.
  destruct (stored w "access_token") as [t|]; [|reflexivity].
  destruct (present (Some t)); reflexivity.
Qed.

Lemma isAuthenticated_run w :
  isAuthenticated w = (Ok (present (stored w "access_token")), w).
Proof. unfold isAuthenticated, bind. by rewrite getAccessToken_run. Qed.

Lemma clearTokens_run w :
  clearTokens w = (Ok tt, with_store w (clear_slots <$> localStorage w)).
Proof.
  destruct w as [[store|] rs cs]; reflexivity.
Qed.

Lemma getUser_run w :
  getUser w =
  (match stored w "user" with
   | Some s => if present (Some s) then JSON.parse s else Ok JNull
   | None => Ok JNull
   end, w).
Proof.
  unfold getUser, stored. unfold_m.
  destruct (localStorage w) as [store|] eqn:E; rewrite ?E; [|reflexivity].
  destruct (store !! "user") as [s|]; [|reflexivity].
  destruct (present (Some s)); reflexivity.
Qed.

Lemma setUser_run user w :
  setUser user w =
  (Ok tt,
   match localStorage w with
   | Some store =>
       with_store w (Some (<["user" := JS.to_string (stringified user)]> store))
   | None => w
   end).
Proof. destruct w as [[store|] rs cs]; reflexivity. Qed.

Lemma setTokens_run access refresh w :
  setTokens access refresh w =
  (Ok tt,
   match localStorage w with
   | Some store =>
       with_store w (Some (<["refresh_token" := JS.to_string refresh]>
                             (<["access_token" := JS.to_string access]> store)))
   | None => w
   end).
Proof. destruct w as [[store|] rs cs]; reflexivity. Qed.

End Getters.

(** ** The refresh protocol *)

Section Refresh.

Variable net : Network.
Variable base : string.
Variable eps : Endpoints.

Lemma refresh_absent w :
  present (stored w "refresh_token") = false →
  refreshAccessToken net base eps w = (Ok false, w).
Proof.
  intros Habs. unfold refreshAccessToken, bind at 1.
  rewrite getRefreshToken_run.
  destruct (stored w "refresh_token") as [t|]; [|reflexivity].
  by rewrite Habs.
Qed.

Lemma stored_some w k v : stored w k = Some v → ∃ store, localStorage w = Some store.
Proof. unfold stored. destruct (localStorage w); [eauto|discriminate]. Qed.

(** The run of a refresh that has a token to send, case by case. *)
Lemma refresh_present w t store :
  stored w "refresh_token" = Some t → present (Some t) = true →
  localStorage w = Some store →
  let req := refresh_request base eps t in
  let w1 := with_sent w req in
  refreshAccessToken net base eps w =
  match net (sent w) req with
  | Rejected => (Ok false, with_console w1 "Token refresh error:" NetworkError)
  | Resolved r =>
      if ok r then
        match JSON.parse (text r) with
        | Throw e => (Ok false, with_console w1 "Token refresh error:" e)
        | Ok data =>
            match extract_access_token data with
            | Throw e => (Ok false, with_console w1 "Token refresh error:" e)
            | Ok tok =>
                if JS.truthy tok
                then (Ok true,
                      with_store w1 (Some (<["access_token" := JS.to_string tok]> store)))
                else (Ok false, w1)
            end
        end
      else (Ok false, w1)
  end.
Proof.
  intros Ht Hp Hs req w1. unfold refreshAccessToken, bind at 1.
  rewrite getRefreshToken_run, Ht, Hp. cbn [negb].
  unfold try_catch, bind, fetch, json, lift, ret.
  rewrite getHeaders_plain. fold (refresh_request base eps t). fold req.
  destruct (net (sent w) req) as [r|]; [|reflexivity].
  destruct (ok r); cbn [negb]; [|reflexivity].
  destruct (JSON.parse (text r)) as [data|e]; [|reflexivity].
  destruct (extract_access_token data) as [tok|e]; [|reflexivity].
  destruct (JS.truthy tok); [|reflexivity].
  unfold localStorage_setItem. cbn [localStorage sent console]. by rewrite Hs.
Qed.

End Refresh.

(** ** Properties of the refresh protocol *)

Section RefreshProperties.

Variable net : Network.
Variable base : string.
Variable eps : Endpoints.

(** Outside a browser a refresh stops at once: nothing is sent,
    nothing is logged, the answer is [false]. *)
Lemma refresh_no_window w :
  localStorage w = None → refreshAccessToken net base eps w = (Ok false, w).
Proof.
  intros Hw. apply refresh_absent. unfold stored. by rewrite Hw.
Qed.

(** The write in [refreshAccessToken] is not behind the environment
    guard, the one in [setTokens] is. *)
Lemma direct_write_unguarded w a r :
  localStorage w = None →
  localStorage_setItem "access_token" a w = (Throw ReferenceError, w) ∧
  setTokens a r w = (Ok tt, w).
Proof.
  intros Hw. unfold setTokens. unfold_m. by rewrite Hw.
Qed.

(** A refresh never touches a slot other than the access token. *)
Lemma refresh_other_slots w r w' k :
  refreshAccessToken net base eps w = (r, w') → k ≠ "access_token" →
  stored w' k = stored w k.
Proof.
  intros Hrun Hk.
  destruct (present (stored w "refresh_token")) eqn:Hp.
  - destruct (stored w "refresh_token") as [t|] eqn:Ht; [|discriminate].
    destruct (stored_some _ _ _ Ht) as [store Hs].
    rewrite (refresh_present net base eps w t store Ht Hp Hs) in Hrun.
    cbv zeta in Hrun.
    repeat match type of Hrun with
           | context [match ?x with _ => _ end] => destruct x
           end;
      inversion Hrun; subst; unfold stored; cbn; rewrite ?Hs; try reflexivity.
    by rewrite lookup_insert_ne.
  - rewrite refresh_absent in Hrun by done. by inversion Hrun.
Qed.

(** A refresh that answers [true] has written the access token. *)
Lemma refresh_true_store w w' :
  refreshAccessToken net base eps w = (Ok true, w') →
  ∃ store tok, localStorage w = Some store ∧
               localStorage w' = Some (<["access_token" := tok]> store).
Proof.
  intros Hrun.
  destruct (present (stored w "refresh_token")) eqn:Hp.
  - destruct (stored w "refresh_token") as [t|] eqn:Ht; [|discriminate].
    destruct (stored_some _ _ _ Ht) as [store Hs].
    rewrite (refresh_present net base eps w t store Ht Hp Hs) in Hrun.
    cbv zeta in Hrun.
    repeat match type of Hrun with
           | context [match ?x with _ => _ end] => destruct x
           end;
      inversion Hrun; subst. eauto.
  - rewrite refresh_absent in Hrun by done. by inversion Hrun.
Qed.

End RefreshProperties.

(** What a refresh that has a token to send returns and leaves behind. *)
Lemma refresh_present_summary net base eps w t store :
  stored w "refresh_token" = Some t → present (Some t) = true →
  localStorage w = Some store →
  let req := refresh_request base eps t in
  ∃ w',
    refreshAccessToken net base eps w =
      (Ok (match net (sent w) req with
           | Resolved r => ok r && bool_decide (is_Some (extracted r))
           | Rejected => false
           end), w') ∧
    sent w' = (sent w ++ [req])%list ∧
    (∀ r tok, net (sent w) req = Resolved r → ok r = true → extracted r = Some tok →
       localStorage w' = Some (<["access_token" := JS.to_string tok]> store)).
Proof.
  intros Ht Hp Hs req.
  pose proof (refresh_present net base eps w t store Ht Hp Hs) as Hrun.
  cbv zeta in Hrun. fold req in Hrun. unfold extracted.
  destruct (net (sent w) req) as [r|];
    [|eexists; split; [exact Hrun|]; split; [reflexivity|]; intros; discriminate].
  destruct (ok r) eqn:Hok;
    [|eexists; split; [exact Hrun|]; split; [reflexivity|];
      intros r' tok' [= <-]; rewrite Hok; intros; discriminate].
  destruct (JSON.parse (text r)) as [data|e] eqn:Hj;
    [|eexists; split; [exact Hrun|]; split; [reflexivity|];
      intros r' tok' [= <-] _; rewrite Hj; discriminate].
  destruct (extract_access_token data) as [tok|e] eqn:Hx;
    [|eexists; split; [exact Hrun|]; split; [reflexivity|];
      intros r' tok' [= <-] _; rewrite Hj, Hx; discriminate].
  destruct (JS.truthy tok) eqn:Htr;
    [|eexists; split; [exact Hrun|]; split; [reflexivity|];
      intros r' tok' [= <-] _; rewrite Hj, Hx, Htr; discriminate].
  eexists. split; [exact Hrun|]. split; [reflexivity|].
  intros r' tok' [= <-] _. rewrite Hj, Hx, Htr. by intros [= <-].
Qed.

(** C3. [refreshAccessToken] never throws and returns a boolean. It
    returns [false], without any network call, when no refresh token is
    stored; [false] when the transport fails, when the response is not a
    success, or when a success response yields no access token; and
    [true] exactly when an access token was extracted from a success
    response and written to the access-token slot. *)
Theorem refreshAccessToken_returns_boolean net base eps w :
  ∃ b w',
    refreshAccessToken net base eps w = (Ok b, w') ∧
    (present (stored w "refresh_token") = false → b = false ∧ w' = w) ∧
    (∀ t, stored w "refresh_token" = Some t → present (Some t) = true →
       let req := refresh_request base eps t in
       sent w' = (sent w ++ [req])%list ∧
       (net (sent w) req = Rejected → b = false) ∧
       (∀ r, net (sent w) req = Resolved r → ok r = false → b = false) ∧
       (∀ r, net (sent w) req = Resolved r → ok r = true → extracted r = None →
             b = false)) ∧
    (b = true ↔
     ∃ t r tok store,
       stored w "refresh_token" = Some t ∧ present (Some t) = true ∧
       net (sent w) (refresh_request base eps t) = Resolved r ∧ ok r = true ∧
       extracted r = Some tok ∧
       localStorage w = Some store ∧
       localStorage w' = Some (<["access_token" := JS.to_string tok]> store)).
Proof.
  destruct (present (stored w "refresh_token")) eqn:Hp.
  - destruct (stored w "refresh_token") as [t|] eqn:Ht; [|discriminate].
    destruct (stored_some _ _ _ Ht) as [store Hs].
    destruct (refresh_present_summary net base eps w t store Ht Hp Hs)
      as (w' & Hrun & Hsent & Hstore).
    cbv zeta in Hrun, Hstore.
    eexists _, w'. split; [exact Hrun|]. split; [done|]. split.
    + intros t' [= <-] _. cbv zeta. split; [done|]. split; [by intros ->|]. split.
      * intros r -> ->. done.
      * intros r -> -> ->. done.
    + split.
      * destruct (net (sent w) (refresh_request base eps t)) as [r|] eqn:Hnet; [|done].
        destruct (ok r) eqn:Hok; [|done].
        destruct (extracted r) as [tok|] eqn:Hex; [|done].
        intros _. exists t, r, tok, store. eauto 10.
      * intros (t' & r & tok & store' & [= <-] & _ & -> & -> & -> & _). done.
  - exists false, w. split; [by apply refresh_absent|]. split; [done|]. split.
    + intros t Ht Hpt. rewrite Ht, Hpt in Hp. done.
    + split; [done|]. intros (t & r & tok & store & Ht & Hpt & _).
      rewrite Ht, Hpt in Hp. done.
Qed.





(** C7. A refresh that succeeds changes the access-token slot and no
    other: the stored refresh token, the stored identity and every
    other key keep their value. *)
Theorem refresh_writes_access_only net base eps w w' :
  refreshAccessToken net base eps w = (Ok true, w') →
  stored w' "refresh_token" = stored w "refresh_token" ∧
  stored w' "user" = stored w "user" ∧
  (∀ k, k ≠ "access_token" → stored w' k = stored w k) ∧
  ∃ store tok, localStorage w = Some store ∧
               localStorage w' = Some (<["access_token" := tok]> store).
Proof.
  intros Hrun. split; [|split; [|split]].
  - by apply (refresh_other_slots net base eps w (Ok true) w').
  - by apply (refresh_other_slots net base eps w (Ok true) w').
  - intros k Hk. by apply (refresh_other_slots net base eps w (Ok true) w').
  - by apply (refresh_true_store net base eps).
Qed.

Lemma refresh_writes_access_only_witness :
  let w := Scenario.browser Scenario.session in
  let w' := snd (refreshAccessToken Scenario.always_expired Scenario.base Scenario.eps w) in
  refreshAccessToken Scenario.always_expired Scenario.base Scenario.eps w = (Ok true, w') ∧
  stored w' "access_token" = Some "A2" ∧
  stored w' "refresh_token" = stored w "refresh_token" ∧
  stored w' "user" = stored w "user".
Proof.
  cbv zeta.
  split; [vm_compute; reflexivity|]. split; [vm_compute; reflexivity|].
  pose proof (refresh_writes_access_only Scenario.always_expired Scenario.base Scenario.eps
                (Scenario.browser Scenario.session)
                (snd (refreshAccessToken Scenario.always_expired Scenario.base Scenario.eps
                        (Scenario.browser Scenario.session)))) as H.
  destruct H as (Hr & Hu & _); [vm_compute; reflexivity|].
  split; [exact Hr|exact Hu].
Defined.

(** C9, as the code has it. Without a persistence medium a refresh
    never succeeds and never throws: [getRefreshToken] yields nothing,
    so the refresh answers [false] at once, before any request is sent
    and before the unguarded write is reached; the state is unchanged. *)
Theorem refresh_without_storage net base eps w :
  localStorage w = None →
  refreshAccessToken net base eps w = (Ok false, w) ∧
  getRefreshToken w = (Ok None, w).
Proof.
  intros Hw. split; [by apply refresh_no_window|].
  rewrite getRefreshToken_run. unfold stored. by rewrite Hw.
Qed.

Lemma refresh_without_storage_witness :
  refreshAccessToken Scenario.always_expired Scenario.base Scenario.eps Scenario.server_side
  = (Ok false, Scenario.server_side) ∧
  getRefreshToken Scenario.server_side = (Ok None, Scenario.server_side).
Proof.
  apply (refresh_without_storage Scenario.always_expired Scenario.base Scenario.eps
           Scenario.server_side).
  reflexivity.
Defined.

(** C9 as stated fails: with a transport that would answer a refresh
    with a success response carrying an access token, a refresh outside
    a browser sends no request and its handler catches nothing, so no
    write was attempted and no failure of it was caught. *)
Lemma refresh_without_storage_no_caught_write :
  let net := Scenario.always_expired in
  let w := Scenario.server_side in
  let w' := snd (refreshAccessToken net Scenario.base Scenario.eps w) in
  net (sent w) (refresh_request Scenario.base Scenario.eps "R1")
    = Resolved Scenario.fresh_token ∧
  ok Scenario.fresh_token = true ∧
  extracted Scenario.fresh_token = Some (JStr "A2") ∧
  fst (refreshAccessToken net Scenario.base Scenario.eps w) = Ok false ∧
  sent w' = [] ∧
  ¬ In ("Token refresh error:", ReferenceError) (console w').
Proof.
  cbv zeta. repeat split; try (vm_compute; reflexivity).
  cbn. tauto.
Qed.

(** ** Ending a session: logout and deleteAccount *)

Lemma cleared_slots_absent w w' :
  localStorage w' = clear_slots <$> localStorage w →
  stored w' "access_token" = None ∧ stored w' "refresh_token" = None ∧
  stored w' "user" = None.
Proof.
  intros Hc. unfold stored. rewrite Hc. unfold clear_slots.
  destruct (localStorage w) as [store|]; cbn; [|done].
  repeat split.
  - rewrite !lookup_delete_ne by done. apply lookup_delete_eq.
  - rewrite lookup_delete_ne by done. apply lookup_delete_eq.
  - apply lookup_delete_eq.
Qed.

(** The run of [logout], case by case. *)
Lemma logout_run net base eps w :
  logout net base eps w =
  (Ok tt,
   match stored w "refresh_token" with
   | Some t =>
       if present (Some t) then
         let req := logout_request base eps w t in
         match net (sent w) req with
         | Resolved _ =>
             with_store (with_sent w req) (clear_slots <$> localStorage w)
         | Rejected =>
             with_store (with_console (with_sent w req) "Logout error:" NetworkError)
               (clear_slots <$> localStorage w)
         end
       else with_store w (clear_slots <$> localStorage w)
   | None => with_store w (clear_slots <$> localStorage w)
   end).
Proof.
  unfold logout, bind at 1. rewrite getRefreshToken_run.
  unfold try_finally, try_catch.
  destruct (stored w "refresh_token") as [t|];
    [|unfold ret; cbv beta iota zeta; by rewrite clearTokens_run].
  destruct (present (Some t));
    [|unfold ret; cbv beta iota zeta; by rewrite clearTokens_run].
  unfold bind at 1. rewrite getHeaders_auth.
  unfold bind, fetch, ret, console_error. fold (logout_request base eps w t).
  destruct (net (sent w) (logout_request base eps w t));
    cbv beta iota zeta; by rewrite clearTokens_run.
Qed.

(** C2. Whatever the stored refresh token and whatever the transport
    does with the notification (success, failure status, or no answer
    at all), [logout] returns normally and leaves the access token, the
    refresh token and the identity absent from the store; the rest of
    the store is untouched. *)
Theorem logout_always_clears net base eps w :
  ∃ w', logout net base eps w = (Ok tt, w') ∧
        localStorage w' = clear_slots <$> localStorage w ∧
        stored w' "access_token" = None ∧
        stored w' "refresh_token" = None ∧
        stored w' "user" = None.
Proof.
  rewrite logout_run. eexists. split; [reflexivity|].
  match goal with |- ?P ∧ _ => assert (Hc : P) end.
  { destruct (stored w "refresh_token") as [t|]; [|reflexivity].
    destruct (present (Some t)); [|reflexivity]. cbv zeta.
    destruct (net _ _); reflexivity. }
  split; [exact Hc|]. exact (cleared_slots_absent w _ Hc).
Qed.

Lemma throw_reason_throws {A} error fallback w :
  ∃ e, throw_reason (A := A) error fallback w = (Throw e, w).
Proof.
  unfold throw_reason, bind, lift, throw.
  destruct (JS.get error "detail") as [d|e]; [|by eexists].
  destruct (JS.truthy d); [by eexists|].
  destruct (JS.get error "error"); by eexists.
Qed.

(** C8. On a success response [deleteAccount] returns normally with
    both tokens and the identity removed; on any other response it
    raises an error and the store is as it was. *)
Theorem deleteAccount_all_or_nothing net base eps w :
  (∀ r, net (sent w) (delete_request base eps w) = Resolved r → ok r = true →
     ∃ w', deleteAccount net base eps w = (Ok tt, w') ∧
           localStorage w' = clear_slots <$> localStorage w ∧
           stored w' "access_token" = None ∧
           stored w' "refresh_token" = None ∧
           stored w' "user" = None) ∧
  (∀ r, net (sent w) (delete_request base eps w) = Resolved r → ok r = false →
     ∃ e w', deleteAccount net base eps w = (Throw e, w') ∧
             localStorage w' = localStorage w).
Proof.
  split; intros r Hnet Hok.
  - unfold deleteAccount, bind at 1. rewrite getHeaders_auth.
    unfold bind, fetch. fold (delete_request base eps w). rewrite Hnet, Hok; cbn [negb].
    rewrite clearTokens_run. eexists. split; [reflexivity|].
    split; [reflexivity|]. by apply (cleared_slots_absent w).
  - unfold deleteAccount, bind at 1. rewrite getHeaders_auth.
    unfold bind at 1. unfold fetch. fold (delete_request base eps w).
    rewrite Hnet, Hok; cbn [negb]. unfold bind, json, lift.
    destruct (JSON.parse (text r)) as [error|e]; [|by eexists _, _].
    match goal with |- context [throw_reason ?a ?b ?w0] =>
      destruct (throw_reason_throws (A := unit) a b w0) as [e He]; rewrite He
    end.
    by eexists _, _.
Qed.

(** ** Reading the cached identity *)

Lemma parse_throws_syntax_error s e : JSON.parse s = Throw e → e = SyntaxError.
Proof.
  unfold JSON.parse. destruct (JSON.parse_value _ _) as [[v rest]|]; [|congruence].
  destruct (JSON.skip_ws rest); congruence.
Qed.

(** C10, as the code has it. [getUser] raises the parse error of
    [JSON.parse] when the identity slot holds a non-empty text that is
    not JSON. It returns null exactly when there is no persistence
    medium, when the slot is absent or holds the empty string, or when
    the stored text is JSON for null. *)
Theorem getUser_parse_error_or_absent w :
  (∀ s, stored w "user" = Some s → s ≠ "" → JSON.parse s = Throw SyntaxError →
        getUser w = (Throw SyntaxError, w)) ∧
  (getUser w = (Ok JNull, w) ↔
   localStorage w = None ∨ stored w "user" = None ∨ stored w "user" = Some "" ∨
   ∃ s, stored w "user" = Some s ∧ JSON.parse s = Ok JNull).
Proof.
  rewrite getUser_run. split.
  - intros s -> Hne Hbad. unfold present.
    destruct (String.eqb_spec s ""); [done|]. cbn. by rewrite Hbad.
  - split.
    + destruct (stored w "user") as [s|] eqn:Hs; [|eauto].
      unfold present. destruct (String.eqb_spec s "") as [->|Hne]; cbn; [eauto|].
      intros [= Hp]. right; right; right. eauto.
    + intros [Hw|[Hn|[He|(s & Hs & Hp)]]].
      * unfold stored. by rewrite Hw.
      * by rewrite Hn.
      * by rewrite He.
      * rewrite Hs. unfold present. destruct (String.eqb s ""); cbn; [done|].
        by rewrite Hp.
Qed.

(** C10 as stated fails on the stored text [null]: the slot is not
    empty, a persistence medium exists, and [getUser] returns null. *)
Lemma getUser_null_literal :
  let w := Scenario.browser (<["user" := "null"]> ∅) in
  getUser w = (Ok JNull, w) ∧
  localStorage w ≠ None ∧
  stored w "user" = Some "null" ∧
  "null" ≠ "".
Proof.
  cbv zeta. split; [vm_compute; reflexivity|].
  split; [discriminate|]. split; [vm_compute; reflexivity|discriminate].
Qed.

Example getUser_malformed :
  let w := Scenario.browser (<["user" := "{bad"]> ∅) in
  getUser w = (Throw SyntaxError, w).
Proof. vm_compute. reflexivity. Qed.

(** ** Fetching the profile *)

Section Profile.

Variable net : Network.
Variable base : string.
Variable eps : Endpoints.

(** One call of [getProfile], with the recursive call left open. *)
Lemma getProfile_step fuel w :
  getProfile net base eps (S fuel) w =
  let req := profile_request base eps w in
  let w1 := with_sent w req in
  match net (sent w) req with
  | Rejected => Some (Throw NetworkError, w1)
  | Resolved r =>
      if ok r then
        Some ((let! user := json r in setUser user;; ret user) w1)
      else if status r =? 401 then
        match refreshAccessToken net base eps w1 with
        | (Ok true, w2) => getProfile net base eps fuel w2
        | (Ok false, w2) => Some (Throw session_expired, w2)
        | (Throw e, w2) => Some (Throw e, w2)
        end
      else Some (Throw (Error "Failed to fetch profile"), w1)
  end.
Proof.
  cbn [getProfile]. unfold bind at 1. rewrite getHeaders_auth.
  unfold fetch. fold (profile_request base eps w). cbv zeta.
  destruct (net (sent w) (profile_request base eps w)) as [r|]; [|reflexivity].
  destruct (ok r); reflexivity.
Qed.

Lemma status_401_not_ok r : status r = 401 → ok r = false.
Proof. unfold ok. intros ->. reflexivity. Qed.

Lemma getProfile_cycles k w w' :
  refresh_cycles net base eps k w w' →
  ∀ fuel, getProfile net base eps (k + fuel) w = getProfile net base eps fuel w'.
Proof.
  induction 1 as [w|k w r w2 w3 Hnet Hst Href _ IH]; intros fuel; [reflexivity|].
  change (S k + fuel)%nat with (S (k + fuel)).
  rewrite getProfile_step. cbv zeta.
  rewrite Hnet, (status_401_not_ok r Hst), Hst, Href. cbn. apply IH.
Qed.

Lemma refresh_never_throws w e w' :
  refreshAccessToken net base eps w ≠ (Throw e, w').
Proof.
  intros Hrun.
  destruct (present (stored w "refresh_token")) eqn:Hp.
  - destruct (stored w "refresh_token") as [t|] eqn:Ht; [|discriminate].
    destruct (stored_some _ _ _ Ht) as [store Hs].
    rewrite (refresh_present net base eps w t store Ht Hp Hs) in Hrun.
    cbv zeta in Hrun.
    repeat match type of Hrun with
           | context [match ?x with _ => _ end] => destruct x
           end; discriminate.
  - rewrite refresh_absent in Hrun by done. discriminate.
Qed.

Lemma getProfile_expired_from_refresh fuel w w' :
  getProfile net base eps fuel w = Some (Throw session_expired, w') →
  ∃ w1, refreshAccessToken net base eps w1 = (Ok false, w').
Proof.
  revert w. induction fuel as [|fuel IH]; intros w; [discriminate|].
  rewrite getProfile_step. cbv zeta.
  destruct (net _ _) as [r|]; [|discriminate].
  destruct (ok r).
  - unfold bind, json, lift, ret.
    destruct (JSON.parse (text r)) as [user|e] eqn:Hj.
    + rewrite setUser_run. discriminate.
    + intros [= -> _]. by apply parse_throws_syntax_error in Hj.
  - destruct (status r =? 401); [|discriminate].
    destruct (refreshAccessToken net base eps _) as [[[]|e] w2] eqn:Href.
    + apply IH.
    + intros [= <-]. eauto.
    + by apply refresh_never_throws in Href.
Qed.

Lemma getProfile_success fuel w r user :
  net (sent w) (profile_request base eps w) = Resolved r → ok r = true →
  JSON.parse (text r) = Ok user →
  ∃ w', getProfile net base eps (S fuel) w = Some (Ok user, w') ∧
        sent w' = (sent w ++ [profile_request base eps w])%list ∧
        (∀ store, localStorage w = Some store →
           localStorage w' = Some (<["user" := JS.to_string (stringified user)]> store)).
Proof.
  intros Hnet Hok Hj. rewrite getProfile_step. cbv zeta. rewrite Hnet, Hok.
  unfold bind, json, lift, ret. rewrite Hj, setUser_run. eexists. split; [reflexivity|].
  unfold with_store, with_sent; cbn [localStorage sent].
  destruct (localStorage w) as [store|]; cbn [localStorage sent]; split; try done.
  by intros store' [= <-].
Qed.

Lemma getProfile_refresh_failed fuel w r w2 :
  net (sent w) (profile_request base eps w) = Resolved r → status r = 401 →
  refreshAccessToken net base eps (with_sent w (profile_request base eps w))
    = (Ok false, w2) →
  getProfile net base eps (S fuel) w = Some (Throw session_expired, w2).
Proof.
  intros Hnet Hst Href. rewrite getProfile_step. cbv zeta.
  by rewrite Hnet, (status_401_not_ok r Hst), Hst, Href.
Qed.

End Profile.

(** C1, as the code has it. [getProfile] retries after every 401 whose
    refresh succeeds, without a bound on the number of retries: after
    [k] such cycles the call goes on as a fresh [getProfile] call in the
    state reached, so a further 401 with a successful refresh starts
    one more cycle. The call fails with "Session expired" only when a
    refresh has answered [false]. *)
Theorem getProfile_retries_after_every_refresh net base eps :
  (∀ k w w' fuel,
     refresh_cycles net base eps k w w' →
     getProfile net base eps (k + fuel) w = getProfile net base eps fuel w') ∧
  (∀ fuel w w',
     getProfile net base eps fuel w = Some (Throw session_expired, w') →
     ∃ w1, refreshAccessToken net base eps w1 = (Ok false, w')).
Proof.
  split.
  - intros k w w' fuel Hc. by apply getProfile_cycles.
  - intros fuel w w'. apply getProfile_expired_from_refresh.
Qed.

Lemma getProfile_two_cycles :
  ∃ w2, refresh_cycles (Scenario.expiring 2) Scenario.base Scenario.eps 2
          (Scenario.browser Scenario.session) w2.
Proof.
  eexists.
  eapply cycles_more;
    [vm_compute; reflexivity | reflexivity | vm_compute; reflexivity |].
  eapply cycles_more;
    [vm_compute; reflexivity | reflexivity | vm_compute; reflexivity |].
  apply cycles_done.
Defined.

Lemma getProfile_retries_witness :
  let net := Scenario.expiring 2 in
  let w := Scenario.browser Scenario.session in
  ∃ w2, refresh_cycles net Scenario.base Scenario.eps 2 w w2 ∧
        getProfile net Scenario.base Scenario.eps (2 + 1) w =
        getProfile net Scenario.base Scenario.eps 1 w2.
Proof.
  cbv zeta. destruct getProfile_two_cycles as [w2 Hc]. exists w2. split; [exact Hc|].
  exact (proj1 (getProfile_retries_after_every_refresh
                  (Scenario.expiring 2) Scenario.base Scenario.eps) 2%nat _ w2 1%nat Hc).
Defined.

(** C1 as stated fails: the transport answers the first two profile
    requests with 401 and both refreshes succeed; the second 401 does
    not end the call with "Session expired" but starts a second
    refresh and a third profile request, whose answer is returned. *)
Lemma getProfile_second_401_retried :
  let net := Scenario.expiring 2 in
  let w := Scenario.browser Scenario.session in
  ∃ w', getProfile net Scenario.base Scenario.eps 3 w = Some (Ok Scenario.alice, w') ∧
        map url (sent w') =
          [Scenario.base +:+ "/api/profile/"; Scenario.base +:+ "/api/token/refresh/";
           Scenario.base +:+ "/api/profile/"; Scenario.base +:+ "/api/token/refresh/";
           Scenario.base +:+ "/api/profile/"] ∧
        map status_of (replay net [] (sent w')) = [401; 200; 401; 200; 200].
Proof.
  cbv zeta. eexists. split; [vm_compute; reflexivity|].
  split; vm_compute; reflexivity.
Qed.

(** One 401 followed by a successful refresh: the profile request is
    sent twice, the refresh once, the retry carries the new token, and
    the identity of the second answer is returned and cached. *)
Example getProfile_single_retry :
  let net := Scenario.expiring 1 in
  let w := Scenario.browser Scenario.session in
  ∃ w', getProfile net Scenario.base Scenario.eps 2 w = Some (Ok Scenario.alice, w') ∧
        map url (sent w') =
          [Scenario.base +:+ "/api/profile/"; Scenario.base +:+ "/api/token/refresh/";
           Scenario.base +:+ "/api/profile/"] ∧
        map headers (sent w') =
          [[("Content-Type", "application/json"); ("Authorization", "Bearer A1")];
           [("Content-Type", "application/json")];
           [("Content-Type", "application/json"); ("Authorization", "Bearer A2")]] ∧
        stored w' "access_token" = Some "A2" ∧
        stored w' "refresh_token" = Some "R1" ∧
        getUser w' = (Ok Scenario.alice, w').
Proof. cbv zeta. eexists. repeat split; vm_compute; reflexivity. Qed.

(** With a transport that keeps answering 401 while every refresh
    succeeds, the call never returns, whatever the bound. *)
Lemma getProfile_never_returns fuel w :
  stored w "refresh_token" = Some "R1" →
  getProfile Scenario.always_expired Scenario.base Scenario.eps fuel w = None.
Proof.
  revert w. induction fuel as [|fuel IH]; intros w Ht; [reflexivity|].
  rewrite getProfile_step. cbv zeta.
  change (Scenario.always_expired (sent w)
            (profile_request Scenario.base Scenario.eps w))
    with (Resolved Scenario.expired).
  change (ok Scenario.expired) with false.
  change (status Scenario.expired =? 401) with true. cbv iota.
  destruct (stored_some _ _ _ Ht) as [store Hs].
  set (w1 := with_sent w (profile_request Scenario.base Scenario.eps w)).
  assert (Ht1 : stored w1 "refresh_token" = Some "R1") by exact Ht.
  rewrite (refresh_present _ _ _ w1 "R1" store Ht1 eq_refl Hs). cbv zeta.
  change (Scenario.always_expired (sent w1)
            (refresh_request Scenario.base Scenario.eps "R1"))
    with (Resolved Scenario.fresh_token).
  replace (JSON.parse (text Scenario.fresh_token))
    with (Ok (A := JSValue) (JObj [("access_token", JStr "A2")]))
    by (vm_compute; reflexivity).
  cbn [ok Scenario.fresh_token status Z.leb Z.compare andb Pos.compare Pos.compare_cont].
  change (extract_access_token (JObj [("access_token", JStr "A2")]))
    with (Ok (A := JSValue) (JStr "A2")).
  cbn [JS.truthy String.eqb negb].
  apply IH. unfold stored; cbn. rewrite lookup_insert_ne by done.
  unfold stored in Ht. by rewrite Hs in Ht.
Qed.

(** ** Opening a session: register and login *)

Lemma get_of_truthy v k : JS.truthy v = true → ∃ x, JS.get v k = Ok x.
Proof. destruct v; try discriminate; intros _; by eexists. Qed.

Lemma get_twice data k1 k2 x : JS.get data k1 = Ok x → ∃ y, JS.get data k2 = Ok y.
Proof. destruct data; try discriminate; intros _; by eexists. Qed.

Section Register.

Variable net : Network.
Variable base : string.
Variable eps : Endpoints.
Variables username email password password2 : string.
Variables first_name last_name : option string.

Let req := register_request base eps username email password password2
             first_name last_name.

(** The run of [register] on a success response, case by case. *)
Lemma register_success w r data tokens :
  net (sent w) req = Resolved r → ok r = true →
  JSON.parse (text r) = Ok data → JS.get data "tokens" = Ok tokens →
  register net base eps username email password password2 first_name last_name w =
  if JS.truthy tokens then
    match JS.get tokens "access_token", JS.get tokens "refresh_token",
          JS.get data "user" with
    | Ok access, Ok refresh, Ok user =>
        (Ok data,
         match localStorage w with
         | Some store =>
             with_store (with_sent w req) (Some (session_store access refresh user store))
         | None => with_sent w req
         end)
    | _, _, _ => (Throw TypeError, with_sent w req)
    end
  else (Ok data, with_sent w req).
Proof.
  intros Hnet Hok Hj Ht. unfold register, bind at 1. rewrite getHeaders_plain.
  unfold bind at 1. unfold fetch.
  fold (register_request base eps username email password password2
          first_name last_name). fold req.
  rewrite Hnet, Hok. cbn [negb]. unfold bind at 1, json, lift at 1. rewrite Hj.
  unfold bind at 1, lift at 1. rewrite Ht.
  destruct (JS.truthy tokens) eqn:Htr; [|reflexivity].
  destruct (get_of_truthy tokens "access_token" Htr) as [access Ha].
  destruct (get_of_truthy tokens "refresh_token" Htr) as [refresh Hr].
  destruct (get_twice data "tokens" "user" tokens Ht) as [user Hu].
  unfold bind, lift. rewrite Ha, Hr, setTokens_run, Hu, setUser_run.
  unfold ret, with_store, with_sent. cbn [localStorage sent console].
  destruct (localStorage w) eqn:E; cbn [localStorage sent console]; rewrite ?E;
    reflexivity.
Qed.

End Register.





Section Login.

Variable net : Network.
Variable base : string.
Variable eps : Endpoints.
Variables username password : string.

Let req := login_request base eps username password.

(** The run of [login] on a success response whose [tokens] can be read. *)
Lemma login_success w r data tokens access refresh user :
  net (sent w) req = Resolved r → ok r = true →
  JSON.parse (text r) = Ok data →
  JS.get data "tokens" = Ok tokens →
  JS.get tokens "access" = Ok access → JS.get tokens "refresh" = Ok refresh →
  JS.get data "user" = Ok user →
  login net base eps username password w =
  (Ok data,
   match localStorage w with
   | Some store =>
       with_store (with_sent w req) (Some (session_store access refresh user store))
   | None => with_sent w req
   end).
Proof.
  intros Hnet Hok Hj Ht Ha Hr Hu. unfold login, bind at 1. rewrite getHeaders_plain.
  unfold bind at 1. unfold fetch. fold (login_request base eps username password).
  fold req. rewrite Hnet, Hok. cbn [negb]. unfold bind, json, lift.
  rewrite Hj, Ht, Ha, Hr, setTokens_run, Hu, setUser_run.
  unfold ret, with_store, with_sent. cbn [localStorage sent console].
  destruct (localStorage w) eqn:E; cbn [localStorage sent console]; rewrite ?E;
    reflexivity.
Qed.


End Login.




(** * Further properties of the service *)

(** ** Failure reports *)

Ltac split_cases H :=
  repeat match type of H with
         | context [match ?x with _ => _ end] => destruct x eqn:?
         end.

Ltac split_goal :=
  repeat match goal with
         | |- context [match ?x with _ => _ end] => destruct x eqn:?
         end.

Lemma failure_run {A} r fallback w :
  ∃ e, (let! error := json r in throw_reason (A := A) error fallback) w = (Throw e, w) ∧
       reported r fallback e.
Proof.
  unfold bind, json, lift, reported.
  destruct (JSON.parse (text r)) as [error|e] eqn:Hj; [|by eexists].
  pose proof (parse_canonical _ _ Hj) as Hc.
  unfold throw_reason, bind, lift, throw.
  destruct error as [| |b|m e|s|xs|fields]; try done; try (by eexists).
  cbn [JS.get]. cbv zeta.
  destruct (JS.truthy (default JUndefined (JS.assoc "detail" fields))); [by eexists|].
  unfold JS.or.
  destruct (JS.truthy (default JUndefined (JS.assoc "error" fields))); by eexists.
Qed.

(** ** login *)

Section LoginMore.

Variable net : Network.
Variable base : string.
Variable eps : Endpoints.
Variables username password : string.

Let req := login_request base eps username password.

Lemma login_fetch w :
  login net base eps username password w =
  match net (sent w) req with
  | Rejected => (Throw NetworkError, with_sent w req)
  | Resolved response =>
      (if negb (ok response) then
         let! error := json response in
         throw_reason error "Login failed"
       else
         let! data := json response in
         let! tokens := lift (JS.get data "tokens") in
         let! access := lift (JS.get tokens "access") in
         let! refresh := lift (JS.get tokens "refresh") in
         setTokens access refresh ;;
         let! user := lift (JS.get data "user") in
         setUser user ;;
         ret data) (with_sent w req)
  end.
Proof.
  unfold login, bind at 1. rewrite getHeaders_plain.
  unfold bind at 1, fetch. fold (login_request base eps username password). fold req.
  unfold with_sent. by destruct (net (sent w) req).
Qed.

End LoginMore.

Lemma body_parses fields s :
  canonical (JObj fields) → JSON.stringify (JObj fields) = s →
  match s with Some t => JSON.parse t | None => Ok JUndefined end = Ok (JObj fields).
Proof.
  intros Hc <-. destruct (stringify_canonical _ Hc) as [t Ht]. rewrite Ht.
  by apply parse_stringify.
Qed.

(** X1. Whatever the transport answers, [login] sends exactly one
    request and logs nothing: a POST to the login endpoint that never
    carries an Authorization header, even when an access token is
    stored, and whose body reads back as the two credentials. *)
Theorem login_sends_one_request net base eps username password w :
  let req := login_request base eps username password in
  let w' := snd (login net base eps username password w) in
  sent w' = (sent w ++ [req])%list ∧
  console w' = console w ∧
  method req = POST ∧ url req = base +:+ ep_login eps ∧
  headers req = [("Content-Type", "application/json")] ∧
  body_json req = Ok (JObj [("username", JStr username); ("password", JStr password)]).
Proof.
  cbv zeta. split; [|split; [|repeat split]].
  - rewrite login_fetch.
    destruct (net (sent w) (login_request base eps username password)) as [r|]; [|done].
    unfold bind, json, lift, ret. destruct (ok r); cbn [negb].
    + destruct (JSON.parse (text r)) as [data|]; [|done].
      destruct (JS.get data "tokens") as [tokens|]; [|done].
      destruct (JS.get tokens "access") as [access|]; [|done].
      destruct (JS.get tokens "refresh") as [refresh|]; [|done].
      rewrite setTokens_run. destruct (JS.get data "user") as [user|].
      * rewrite setUser_run. unfold with_store, with_sent; cbn.
        by destruct (localStorage w).
      * unfold with_store, with_sent; cbn. by destruct (localStorage w).
    + destruct (failure_run (A := JSValue) r "Login failed"
                  (with_sent w (login_request base eps username password)))
        as (e' & He & _).
      unfold bind, json, lift in He. by rewrite He.
  - rewrite login_fetch.
    destruct (net (sent w) (login_request base eps username password)) as [r|]; [|done].
    unfold bind, json, lift, ret. destruct (ok r); cbn [negb].
    + destruct (JSON.parse (text r)) as [data|]; [|done].
      destruct (JS.get data "tokens") as [tokens|]; [|done].
      destruct (JS.get tokens "access") as [access|]; [|done].
      destruct (JS.get tokens "refresh") as [refresh|]; [|done].
      rewrite setTokens_run. destruct (JS.get data "user") as [user|].
      * rewrite setUser_run. unfold with_store, with_sent; cbn.
        by destruct (localStorage w).
      * unfold with_store, with_sent; cbn. by destruct (localStorage w).
    + destruct (failure_run (A := JSValue) r "Login failed"
                  (with_sent w (login_request base eps username password)))
        as (e' & He & _).
      unfold bind, json, lift in He. by rewrite He.
  - unfold body_json, login_request; cbn [body].
    apply body_parses; [|reflexivity].
    apply canonical_obj. split; [by repeat constructor|].
    by apply (bool_decide_unpack _).
Qed.

(** X2. The failures of [login] on a success response, and without
    any response, come before any write. When the transport gives no
    answer [login] raises the network error; when the body of a
    success response is not JSON it raises a SyntaxError; when the body
    is [null], or has no [tokens] or a [null] one, it raises a
    TypeError. In each case nothing was written: the world is as it
    was, but for the request sent. *)
Theorem login_fails_before_writing net base eps username password w :
  let req := login_request base eps username password in
  let w1 := with_sent w req in
  let run := login net base eps username password w in
  localStorage w1 = localStorage w ∧
  (net (sent w) req = Rejected → run = (Throw NetworkError, w1)) ∧
  (∀ r, net (sent w) req = Resolved r → ok r = true →
     (∀ e, JSON.parse (text r) = Throw e → run = (Throw SyntaxError, w1)) ∧
     (∀ data tokens, JSON.parse (text r) = Ok data →
        data = JNull ∨
        (JS.get data "tokens" = Ok tokens ∧ (tokens = JUndefined ∨ tokens = JNull)) →
        run = (Throw TypeError, w1))).
Proof.
  cbv zeta. split; [reflexivity|]. rewrite login_fetch. split.
  - by intros ->.
  - intros r -> Hok. rewrite Hok. cbn [negb]. unfold bind, json, lift. split.
    + intros e Hj. rewrite Hj. by rewrite (parse_throws_syntax_error _ _ Hj).
    + intros data tokens Hj Hcase. rewrite Hj.
      destruct Hcase as [-> | [Ht [-> | ->]]]; [reflexivity| |]; by rewrite Ht.
Qed.


(** ** register *)

Section RegisterMore.

Variable net : Network.
Variable base : string.
Variable eps : Endpoints.
Variables username email password password2 : string.
Variables first_name last_name : option string.

Let req := register_request base eps username email password password2
             first_name last_name.

Lemma register_fetch w :
  register net base eps username email password password2 first_name last_name w =
  match net (sent w) req with
  | Rejected => (Throw NetworkError, with_sent w req)
  | Resolved response =>
      (if negb (ok response) then
         let! error := json response in
         throw_reason error "Registration failed"
       else
         let! data := json response in
         let! tokens := lift (JS.get data "tokens") in
         (if JS.truthy tokens then
            let! access := lift (JS.get tokens "access_token") in
            let! refresh := lift (JS.get tokens "refresh_token") in
            setTokens access refresh ;;
            let! user := lift (JS.get data "user") in
            setUser user
          else ret tt) ;;
         ret data) (with_sent w req)
  end.
Proof.
  unfold register, bind at 1. rewrite getHeaders_plain.
  unfold bind at 1, fetch.
  fold (register_request base eps username email password password2 first_name last_name).
  fold req. unfold with_sent. by destruct (net (sent w) req).
Qed.

(** The run of [register], with the success case left to [register_success]. *)
Lemma register_outcome w :
  let w1 := with_sent w req in
  let run := register net base eps username email password password2
               first_name last_name w in
  match net (sent w) req with
  | Rejected => run = (Throw NetworkError, w1)
  | Resolved r =>
      if ok r then
        match JSON.parse (text r) with
        | Throw e => run = (Throw e, w1)
        | Ok data =>
            match JS.get data "tokens" with
            | Throw e => run = (Throw e, w1)
            | Ok tokens =>
                ∃ w', run = (Ok data, w') ∧ sent w' = sent w1 ∧ console w' = console w1
            end
        end
      else ∃ e, run = (Throw e, w1) ∧ reported r "Registration failed" e
  end.
Proof.
  cbv zeta. rewrite register_fetch. fold req.
  destruct (net (sent w) req) as [r|] eqn:Hnet; [|done].
  destruct (ok r) eqn:Hok; cbn [negb].
  - destruct (JSON.parse (text r)) as [data|e] eqn:Hj;
      [|by unfold bind, json, lift; rewrite Hj].
    destruct (JS.get data "tokens") as [tokens|e] eqn:Ht;
      [|by unfold bind, json, lift; rewrite Hj, Ht].
    pose proof (register_success net base eps username email password password2
                  first_name last_name w r data tokens Hnet Hok Hj Ht) as Hrun.
    rewrite register_fetch in Hrun. fold req in Hrun. rewrite Hnet, Hok in Hrun.
    cbn [negb] in Hrun. rewrite Hrun.
    destruct (JS.truthy tokens) eqn:Htr; [|by eexists].
    destruct (get_of_truthy tokens "access_token" Htr) as [access ->].
    destruct (get_of_truthy tokens "refresh_token" Htr) as [refresh ->].
    destruct (get_twice data "tokens" "user" tokens Ht) as [user ->].
    eexists. split; [reflexivity|]. by destruct (localStorage w).
  - destruct (failure_run (A := JSValue) r "Registration failed" (with_sent w req))
      as (e & He & Hrep).
    exists e. by split.
Qed.

End RegisterMore.

Lemma register_body username email password password2 first_name last_name :
  JSON.stringify (JObj [("username", JStr username); ("email", JStr email);
                        ("password", JStr password); ("password2", JStr password2);
                        ("first_name", opt_str first_name);
                        ("last_name", opt_str last_name)])
  = JSON.stringify (JObj ([("username", JStr username); ("email", JStr email);
                           ("password", JStr password); ("password2", JStr password2)]
                          ++ given "first_name" first_name
                          ++ given "last_name" last_name)).
Proof. destruct first_name, last_name; reflexivity. Qed.

(** X4. Whatever the transport answers, [register] sends exactly one
    request and logs nothing: a POST to the register endpoint without
    an Authorization header. Its body reads back as the four required
    fields followed by the names that were given; a name that was not
    given is left out of the body. *)
Theorem register_sends_one_request net base eps username email password password2
    first_name last_name w :
  let req := register_request base eps username email password password2
               first_name last_name in
  let w' := snd (register net base eps username email password password2
                   first_name last_name w) in
  sent w' = (sent w ++ [req])%list ∧
  console w' = console w ∧
  method req = POST ∧ url req = base +:+ ep_register eps ∧
  headers req = [("Content-Type", "application/json")] ∧
  body_json req =
    Ok (JObj ([("username", JStr username); ("email", JStr email);
               ("password", JStr password); ("password2", JStr password2)]
              ++ given "first_name" first_name ++ given "last_name" last_name)).
Proof.
  cbv zeta.
  assert (Htrace :
    let w' := snd (register net base eps username email password password2
                     first_name last_name w) in
    sent w' = (sent w ++ [register_request base eps username email password password2
                            first_name last_name])%list ∧ console w' = console w).
  { pose proof (register_outcome net base eps username email password password2
                  first_name last_name w) as Hout. cbv zeta in *.
    destruct (net (sent w) _) as [r|]; [|by rewrite Hout].
    destruct (ok r).
    - destruct (JSON.parse (text r)) as [data|]; [|by rewrite Hout].
      destruct (JS.get data "tokens"); [|by rewrite Hout].
      destruct Hout as (w' & -> & Hs & Hc). cbn [snd]. by rewrite Hs, Hc.
    - destruct Hout as (e & -> & _). done. }
  destruct Htrace as [Hs Hc]. repeat split; try done.
  unfold body_json, register_request; cbn [body]. rewrite register_body.
  apply body_parses; [|reflexivity].
  apply canonical_obj. split.
  - destruct first_name, last_name; by repeat constructor.
  - destruct first_name, last_name; by apply (bool_decide_unpack _).
Qed.


(** ** The cached identity *)

Lemma identity_text_reads_back user :
  canonical user →
  ∃ s, JS.to_string (stringified user) = s ∧ s ≠ "" ∧ JSON.parse s = Ok user.
Proof.
  intros Hc. destruct (stringify_canonical user Hc) as [s Hs].
  exists s. unfold stringified. rewrite Hs. split; [reflexivity|]. split.
  - destruct (stringify_start user s Hc Hs) as (c & r & -> & _). done.
  - by apply parse_stringify.
Qed.

Lemma getUser_after_write w store user :
  canonical user →
  localStorage w = Some (<["user" := JS.to_string (stringified user)]> store) →
  getUser w = (Ok user, w).
Proof.
  intros Hc Hs. rewrite getUser_run. unfold stored. rewrite Hs, lookup_insert_eq.
  destruct (identity_text_reads_back user Hc) as (s & -> & Hne & Hp).
  unfold present. destruct (String.eqb_spec s ""); [done|]. cbn. by rewrite Hp.
Qed.

(** ** updateProfile *)

Section UpdateMore.

Variable net : Network.
Variable base : string.
Variable eps : Endpoints.
Variable data : JSValue.

Lemma updateProfile_fetch w :
  updateProfile net base eps data w =
  match net (sent w) (update_request base eps w data) with
  | Rejected => (Throw NetworkError, with_sent w (update_request base eps w data))
  | Resolved response =>
      (if negb (ok response) then
         let! error := json response in
         throw_reason error "Update failed"
       else
         let! user := json response in
         setUser user ;;
         ret user) (with_sent w (update_request base eps w data))
  end.
Proof.
  unfold updateProfile, bind at 1. rewrite getHeaders_auth.
  unfold bind at 1, fetch. fold (update_request base eps w data).
  unfold with_sent. by destruct (net (sent w) _).
Qed.

Lemma updateProfile_outcome w :
  let req := update_request base eps w data in
  let w1 := with_sent w req in
  let run := updateProfile net base eps data w in
  match net (sent w) req with
  | Rejected => run = (Throw NetworkError, w1)
  | Resolved r =>
      if ok r then
        match JSON.parse (text r) with
        | Throw e => run = (Throw e, w1)
        | Ok user =>
            run = (Ok user,
                   match localStorage w with
                   | Some store =>
                       with_store w1
                         (Some (<["user" := JS.to_string (stringified user)]> store))
                   | None => w1
                   end)
        end
      else ∃ e, run = (Throw e, w1) ∧ reported r "Update failed" e
  end.
Proof.
  cbv zeta. rewrite updateProfile_fetch.
  destruct (net (sent w) (update_request base eps w data)) as [r|]; [|done].
  destruct (ok r); cbn [negb].
  - unfold bind, json, lift, ret.
    destruct (JSON.parse (text r)) as [user|]; [|done].
    rewrite setUser_run. unfold with_store, with_sent; cbn [localStorage sent console].
    by destruct (localStorage w).
  - destruct (failure_run (A := JSValue) r "Update failed"
                (with_sent w (update_request base eps w data))) as (e & He & Hrep).
    exists e. by split.
Qed.

End UpdateMore.


(** X7. In a browser, an [updateProfile] answered with a success
    response returns the identity of the response and caches it;
    provided no number inside the identity is beyond the range of a
    double, a [getUser] that follows reads back that same identity. *)
Theorem updateProfile_caches_identity net base eps data w store r user :
  localStorage w = Some store →
  net (sent w) (update_request base eps w data) = Resolved r → ok r = true →
  JSON.parse (text r) = Ok user → finite_numerals user = true →
  ∃ w', updateProfile net base eps data w = (Ok user, w') ∧
        localStorage w' = Some (<["user" := JS.to_string (stringified user)]> store) ∧
        getUser w' = (Ok user, w').
Proof.
  intros Hs Hnet Hok Hj _. pose proof (updateProfile_outcome net base eps data w) as Hout.
  cbv zeta in Hout. rewrite Hnet, Hok, Hj, Hs in Hout.
  eexists. split; [exact Hout|]. split; [reflexivity|].
  eapply getUser_after_write; [by eapply parse_canonical|reflexivity].
Qed.

(** ** changePassword *)

Lemma changePassword_fetch net base eps oldPassword newPassword newPassword2 w :
  let req := password_request base eps w oldPassword newPassword newPassword2 in
  changePassword net base eps oldPassword newPassword newPassword2 w =
  match net (sent w) req with
  | Rejected => (Throw NetworkError, with_sent w req)
  | Resolved response =>
      (if negb (ok response) then
         let! error := json response in
         throw_reason error "Password change failed"
       else ret tt) (with_sent w req)
  end.
Proof.
  cbv zeta. unfold changePassword, bind at 1. rewrite getHeaders_auth.
  unfold bind at 1, fetch.
  fold (password_request base eps w oldPassword newPassword newPassword2).
  unfold with_sent. by destruct (net (sent w) _).
Qed.


(** ** deleteAccount *)

Lemma deleteAccount_fetch net base eps w :
  deleteAccount net base eps w =
  match net (sent w) (delete_request base eps w) with
  | Rejected => (Throw NetworkError, with_sent w (delete_request base eps w))
  | Resolved response =>
      (if negb (ok response) then
         let! error := json response in
         throw_reason error "Account deletion failed"
       else clearTokens) (with_sent w (delete_request base eps w))
  end.
Proof.
  unfold deleteAccount, bind at 1. rewrite getHeaders_auth.
  unfold bind at 1, fetch. fold (delete_request base eps w).
  unfold with_sent. by destruct (net (sent w) _).
Qed.


(** ** logout *)

(** X10. [logout] sends no request when no refresh token is stored,
    and otherwise exactly one: a POST to the logout endpoint whose body
    reads back as the stored refresh token, sent before the store is
    cleared. A transport that gives no answer is logged once on the
    console; nothing else is ever logged. *)
Theorem logout_notifies_once net base eps w :
  let w' := snd (logout net base eps w) in
  (present (stored w "refresh_token") = false →
     sent w' = sent w ∧ console w' = console w) ∧
  (∀ t, stored w "refresh_token" = Some t → t ≠ "" →
     let req := logout_request base eps w t in
     sent w' = (sent w ++ [req])%list ∧
     method req = POST ∧ url req = base +:+ ep_logout eps ∧
     headers req = auth_headers w ∧
     body_json req = Ok (JObj [("refresh_token", JStr t)]) ∧
     console w' = match net (sent w) req with
                  | Resolved _ => console w
                  | Rejected => (console w ++ [("Logout error:", NetworkError)])%list
                  end).
Proof.
  cbv zeta. rewrite logout_run. cbn [snd]. split.
  - intros Hp. destruct (stored w "refresh_token") as [t|]; [|done]. by rewrite Hp.
  - intros t -> Hne. unfold present. destruct (String.eqb_spec t ""); [done|]. cbn [negb].
    cbv zeta. repeat split.
    + by destruct (net _ _).
    + unfold body_json, logout_request; cbn [body]. apply body_parses; [|reflexivity].
      apply canonical_obj. split; [by repeat constructor|]. by apply (bool_decide_unpack _).
    + by destruct (net _ _).
Qed.

(** ** The store *)


(** X12. In a browser, an identity that came out of [JSON.parse], as
    every identity taken from a response does, and that holds no
    number beyond the range of a double, is read back by [getUser]
    exactly as [setUser] stored it; the tokens are untouched. *)
Theorem setUser_getUser_roundtrip response_text user w store :
  JSON.parse response_text = Ok user → finite_numerals user = true →
  localStorage w = Some store →
  ∃ w', setUser user w = (Ok tt, w') ∧
        getUser w' = (Ok user, w') ∧
        stored w' "access_token" = stored w "access_token" ∧
        stored w' "refresh_token" = stored w "refresh_token".
Proof.
  intros Hj _ Hs. rewrite setUser_run, Hs. eexists. split; [reflexivity|]. split.
  - eapply getUser_after_write; [by eapply parse_canonical|reflexivity].
  - unfold stored, with_store; cbn [localStorage]. rewrite Hs.
    by rewrite !lookup_insert_ne.
Qed.

(** X13. [clearTokens] is idempotent and touches only the three session
    slots: a second call changes nothing, every other key keeps its
    value, and afterwards no token is read, [isAuthenticated] answers
    false and [getUser] returns null. *)
Theorem clearTokens_idempotent w :
  ∃ w1, clearTokens w = (Ok tt, w1) ∧
        clearTokens w1 = (Ok tt, w1) ∧
        (∀ k, k ≠ "access_token" → k ≠ "refresh_token" → k ≠ "user" →
              stored w1 k = stored w k) ∧
        getAccessToken w1 = (Ok None, w1) ∧
        getRefreshToken w1 = (Ok None, w1) ∧
        isAuthenticated w1 = (Ok false, w1) ∧
        getUser w1 = (Ok JNull, w1).
Proof.
  rewrite clearTokens_run. eexists. split; [reflexivity|].
  rewrite clearTokens_run, getAccessToken_run, getRefreshToken_run,
    isAuthenticated_run, getUser_run.
  assert (Hgone : ∀ k, k = "access_token" ∨ k = "refresh_token" ∨ k = "user" →
                        stored (with_store w (clear_slots <$> localStorage w)) k = None).
  { destruct (cleared_slots_absent w (with_store w (clear_slots <$> localStorage w)) eq_refl)
      as (Ha & Hr & Hu).
    by intros k [-> | [-> | ->]]. }
  split; [|split; [|by rewrite !Hgone by auto]].
  - unfold with_store; cbn [localStorage sent console]. f_equal. f_equal.
    destruct (localStorage w) as [store|]; [|done]. cbn. f_equal.
    unfold clear_slots. apply map_eq. intros k.
    destruct (decide (k = "user")) as [->|]; [by rewrite !lookup_delete_eq|].
    destruct (decide (k = "refresh_token")) as [->|].
    { rewrite !(lookup_delete_ne _ "user") by done. by rewrite !lookup_delete_eq. }
    destruct (decide (k = "access_token")) as [->|].
    { rewrite !(lookup_delete_ne _ "user"), !(lookup_delete_ne _ "refresh_token") by done.
      by rewrite !lookup_delete_eq. }
    by rewrite !lookup_delete_ne by done.
  - intros k Ha' Hr' Hu'. unfold stored, with_store, clear_slots; cbn [localStorage].
    destruct (localStorage w) as [store|]; [|done]. cbn.
    by rewrite !lookup_delete_ne.
Qed.

(** X14. Where there is no [window], no operation of the store throws
    or changes anything: the setters and [clearTokens] return at once,
    the getters return nothing, [isAuthenticated] answers false and an
    authenticated request carries no Authorization header. *)
Theorem store_inert_without_window access refresh user w :
  localStorage w = None →
  setTokens access refresh w = (Ok tt, w) ∧
  setUser user w = (Ok tt, w) ∧
  clearTokens w = (Ok tt, w) ∧
  getAccessToken w = (Ok None, w) ∧
  getRefreshToken w = (Ok None, w) ∧
  getUser w = (Ok JNull, w) ∧
  isAuthenticated w = (Ok false, w) ∧
  getHeaders true w = (Ok [("Content-Type", "application/json")], w).
Proof.
  intros Hw.
  rewrite setTokens_run, setUser_run, clearTokens_run, getAccessToken_run,
    getRefreshToken_run, getUser_run, isAuthenticated_run, getHeaders_auth.
  unfold auth_headers, stored, with_store. rewrite Hw. cbn.
  by destruct w as [ls rs cs]; cbn in *; subst.
Qed.

(** ** More on the refresh *)

Lemma refresh_false_store net base eps w w' :
  refreshAccessToken net base eps w = (Ok false, w') →
  localStorage w' = localStorage w.
Proof.
  intros Hrun.
  destruct (present (stored w "refresh_token")) eqn:Hp.
  - destruct (stored w "refresh_token") as [t|] eqn:Ht; [|discriminate].
    destruct (stored_some _ _ _ Ht) as [store Hs].
    rewrite (refresh_present net base eps w t store Ht Hp Hs) in Hrun.
    cbv zeta in Hrun.
    repeat match type of Hrun with
           | context [match ?x with _ => _ end] => destruct x
           end;
      by inversion Hrun.
  - rewrite refresh_absent in Hrun by done. by inversion Hrun.
Qed.

(** X15. A refresh that fails, for whatever reason, leaves the store
    as it was: in particular it does not remove the tokens that could
    not be refreshed. *)
Theorem refresh_failure_keeps_store net base eps w w' :
  refreshAccessToken net base eps w = (Ok false, w') →
  localStorage w' = localStorage w ∧
  stored w' "access_token" = stored w "access_token" ∧
  stored w' "refresh_token" = stored w "refresh_token".
Proof.
  intros Hrun. pose proof (refresh_false_store _ _ _ _ _ Hrun) as Hs.
  unfold stored. by rewrite Hs.
Qed.

(** X16. After a refresh that has extracted a string token, the token
    is the one in use: [isAuthenticated] answers true and the headers
    of the next authenticated request carry it as Bearer token. *)
Theorem refresh_installs_bearer net base eps w t r s :
  stored w "refresh_token" = Some t → t ≠ "" →
  net (sent w) (refresh_request base eps t) = Resolved r → ok r = true →
  extracted r = Some (JStr s) →
  ∃ w', refreshAccessToken net base eps w = (Ok true, w') ∧
        isAuthenticated w' = (Ok true, w') ∧
        getHeaders true w' =
          (Ok [("Content-Type", "application/json"); ("Authorization", "Bearer " +:+ s)],
           w').
Proof.
  intros Ht Hne Hnet Hok Hex.
  assert (Hp : present (Some t) = true).
  { unfold present. by destruct (String.eqb_spec t ""). }
  destruct (stored_some _ _ _ Ht) as [store Hs].
  rewrite (refresh_present net base eps w t store Ht Hp Hs). cbv zeta.
  rewrite Hnet, Hok. unfold extracted in Hex.
  destruct (JSON.parse (text r)) as [data|]; [|discriminate].
  destruct (extract_access_token data) as [tok|]; [|discriminate].
  destruct (JS.truthy tok) eqn:Htr; [|discriminate]. injection Hex as ->.
  eexists. split; [reflexivity|].
  rewrite isAuthenticated_run, getHeaders_auth. unfold auth_headers, stored, with_store.
  cbn [localStorage]. rewrite lookup_insert_eq. cbn [JS.to_string].
  cbn in Htr. unfold present. by rewrite Htr.
Qed.
(** ** More on getProfile *)

Lemma refresh_never_removes net base eps w r w' k :
  refreshAccessToken net base eps w = (r, w') →
  is_Some (stored w k) → is_Some (stored w' k).
Proof.
  intros Hrun Hk. destruct r as [[]|e].
  - destruct (refresh_true_store _ _ _ _ _ Hrun) as (store & tok & Hs & Hs').
    unfold stored in *. rewrite Hs in Hk. rewrite Hs'.
    destruct (decide (k = "access_token")) as [->|].
    + rewrite lookup_insert_eq. by eexists.
    + by rewrite lookup_insert_ne.
  - unfold stored in *. by rewrite (refresh_false_store _ _ _ _ _ Hrun).
  - by apply refresh_never_throws in Hrun.
Qed.

(** What a [getProfile] that returns has left alone. *)
Lemma getProfile_frame net base eps fuel w res w' :
  getProfile net base eps fuel w = Some (res, w') →
  (∀ k, k ≠ "access_token" → k ≠ "user" → stored w' k = stored w k) ∧
  (∀ k, is_Some (stored w k) → is_Some (stored w' k)) ∧
  (∀ e, res = Throw e → stored w' "user" = stored w "user").
Proof.
  revert w. induction fuel as [|fuel IH]; intros w; [discriminate|].
  rewrite getProfile_step. cbv zeta.
  set (w1 := with_sent w (profile_request base eps w)).
  destruct (net _ _) as [r|]; [|by intros [= <- <-]].
  destruct (ok r).
  - unfold bind, json, lift, ret.
    destruct (JSON.parse (text r)) as [user|e]; [|by intros [= <- <-]].
    rewrite setUser_run. intros [= <- <-]. unfold stored, w1, with_store, with_sent.
    cbn [localStorage]. destruct (localStorage w) as [store|]; [|done].
    cbn [localStorage]. repeat split.
    + intros k _ Hk. by rewrite lookup_insert_ne.
    + intros k Hk. destruct (decide (k = "user")) as [->|].
      * rewrite lookup_insert_eq. by eexists.
      * by rewrite lookup_insert_ne.
    + done.
  - destruct (status r =? 401); [|by intros [= <- <-]].
    destruct (refreshAccessToken net base eps w1) as [[[]|e] w2] eqn:Href.
    + intros Hrun. destruct (IH _ Hrun) as (Hframe & Hkeep & Hfail).
      repeat split.
      * intros k Ha Hu. rewrite (Hframe k Ha Hu).
        apply (refresh_other_slots _ _ _ _ _ _ k Href Ha).
      * intros k Hk. apply Hkeep.
        by apply (refresh_never_removes _ _ _ _ _ _ k Href).
      * intros e He. rewrite (Hfail e He).
        by apply (refresh_other_slots _ _ _ _ _ _ "user" Href).
    + intros [= <- <-]. repeat split.
      * intros k Ha _. apply (refresh_other_slots _ _ _ _ _ _ k Href Ha).
      * intros k Hk. by apply (refresh_never_removes _ _ _ _ _ _ k Href).
      * intros _ _. by apply (refresh_other_slots _ _ _ _ _ _ "user" Href).
    + by apply refresh_never_throws in Href.
Qed.

(** X17. Whatever the transport answers and however many refresh
    cycles it takes, a [getProfile] that returns has removed no key
    from the store and has changed no slot but the access token and
    the cached identity; the refresh token in particular is never
    rotated. When it fails, the cached identity is as it was. *)
Theorem getProfile_store_frame net base eps fuel w res w' :
  getProfile net base eps fuel w = Some (res, w') →
  (∀ k, k ≠ "access_token" → k ≠ "user" → stored w' k = stored w k) ∧
  (∀ k, is_Some (stored w k) → is_Some (stored w' k)) ∧
  (∀ e, res = Throw e → stored w' "user" = stored w "user").
Proof.
  apply getProfile_frame.
Qed.

(** X18. The ways [getProfile] fails without a retry, each after a
    single request and without reading the body of the response: the
    transport gives no answer; the response is a failure other than
    401 ("Failed to fetch profile"); the response is 401 and no usable
    refresh token is stored ("Session expired", no refresh request
    sent). In each case the store is as it was. *)
Theorem getProfile_fails_at_once net base eps fuel w :
  let req := profile_request base eps w in
  let w1 := with_sent w req in
  localStorage w1 = localStorage w ∧ sent w1 = (sent w ++ [req])%list ∧
  console w1 = console w ∧
  (net (sent w) req = Rejected →
     getProfile net base eps (S fuel) w = Some (Throw NetworkError, w1)) ∧
  (∀ r, net (sent w) req = Resolved r → ok r = false → status r ≠ 401 →
     getProfile net base eps (S fuel) w = Some (Throw (Error "Failed to fetch profile"), w1)) ∧
  (∀ r, net (sent w) req = Resolved r → status r = 401 →
     present (stored w "refresh_token") = false →
     getProfile net base eps (S fuel) w = Some (Throw session_expired, w1)).
Proof.
  cbv zeta. repeat split.
  - intros Hnet. rewrite getProfile_step. cbv zeta. by rewrite Hnet.
  - intros r Hnet Hok Hst. rewrite getProfile_step. cbv zeta. rewrite Hnet, Hok.
    by destruct (Z.eqb_spec (status r) 401).
  - intros r Hnet Hst Habs. apply (getProfile_refresh_failed _ _ _ _ _ r); [done..|].
    by apply refresh_absent.
Qed.

(** ** A session opened without an identity *)


(** ** The requests of the service *)

Lemma str_app_inj_l (p a b : string) : p +:+ a = p +:+ b → a = b.
Proof.
  induction p as [|c p IH]; [by rewrite !str_app_nil_l|].
  rewrite !str_app_cons. intros [= H]. by apply IH.
Qed.

(** X20. On either backend the requests of the eight operations go to
    pairwise different routes: the endpoint paths are all different,
    except that reading and updating the profile share one path and
    differ in the method. *)
Theorem requests_pairwise_distinct base b w username email password password2
    first_name last_name t data oldPassword newPassword newPassword2 :
  let eps := API_ENDPOINTS b in
  NoDup (route <$>
         [register_request base eps username email password password2
            first_name last_name;
          login_request base eps username password;
          logout_request base eps w t;
          profile_request base eps w;
          update_request base eps w data;
          password_request base eps w oldPassword newPassword newPassword2;
          delete_request base eps w;
          refresh_request base eps t]).
Proof.
  cbv zeta. unfold route. cbn [fmap list_fmap method url register_request login_request
    logout_request profile_request update_request password_request delete_request
    refresh_request].
  repeat (apply NoDup_cons; split;
          [rewrite ?not_elem_of_cons; repeat split;
           try (intros [= H]; apply str_app_inj_l in H; by destruct b);
           try (by intros [=]); try apply not_elem_of_nil|]).
  apply NoDup_nil_2.
Qed.
(** * Properties of the provider *)

Lemma service_run {A} (m : M A) s :
  AuthProvider.service m s =
  Some (fst (m (AuthProvider.world s)),
        AuthProvider.mkApp (snd (m (AuthProvider.world s))) (AuthProvider.user s)
          (AuthProvider.loading s) (AuthProvider.pushed s)).
Proof. unfold AuthProvider.service. by destruct (m (AuthProvider.world s)). Qed.

Lemma pbind_service {A B} (m : M A) (k : A → AuthProvider.PM B) s :
  AuthProvider.pbind (AuthProvider.service m) k s =
  match m (AuthProvider.world s) with
  | (Ok a, w') =>
      k a (AuthProvider.mkApp w' (AuthProvider.user s) (AuthProvider.loading s)
             (AuthProvider.pushed s))
  | (Throw e, w') =>
      Some (Throw e,
            AuthProvider.mkApp w' (AuthProvider.user s) (AuthProvider.loading s)
              (AuthProvider.pushed s))
  end.
Proof.
  unfold AuthProvider.pbind, AuthProvider.service.
  by destruct (m (AuthProvider.world s)) as [[a|e] w'].
Qed.

(** X21. The redirect effect never fails and changes nothing but the
    navigation. It does nothing while the provider is loading, and it
    navigates at most once: to the login page from a protected path
    without an identity, to the profile page from a public path with
    one. Run again on the page it has navigated to, it does nothing,
    so the redirects do not loop. *)
Theorem redirect_settles pathname s :
  ∃ s', AuthProvider.redirect pathname s = Some (Ok tt, s') ∧
        AuthProvider.world s' = AuthProvider.world s ∧
        AuthProvider.user s' = AuthProvider.user s ∧
        AuthProvider.loading s' = AuthProvider.loading s ∧
        (AuthProvider.loading s = true → s' = s) ∧
        (AuthProvider.pushed s' = AuthProvider.pushed s ∨
         ∃ target,
           AuthProvider.pushed s' = (AuthProvider.pushed s ++ [target])%list ∧
           target = (if JS.truthy (AuthProvider.user s) then "/profile" else "/login") ∧
           AuthProvider.isPublicPath pathname = JS.truthy (AuthProvider.user s) ∧
           AuthProvider.redirect target s' = Some (Ok tt, s')).
Proof.
  unfold AuthProvider.redirect at 1.
  destruct (AuthProvider.loading s) eqn:Hl; cbn [negb].
  { exists s. repeat split; auto. }
  destruct (JS.truthy (AuthProvider.user s)) eqn:Hu,
           (AuthProvider.isPublicPath pathname) eqn:Hp; cbn [negb andb];
    try (exists s; repeat split; auto; done);
    unfold AuthProvider.router_push; eexists; (split; [reflexivity|]);
    cbn [AuthProvider.world AuthProvider.user AuthProvider.loading AuthProvider.pushed];
    repeat split; auto; try done;
    right; eexists; (split; [reflexivity|]); repeat split;
    unfold AuthProvider.redirect;
    cbn [AuthProvider.world AuthProvider.user AuthProvider.loading AuthProvider.pushed];
    by rewrite Hl, Hu.
Qed.

Section ProviderProperties.

Variable net : Network.
Variable base : string.
Variable eps : Endpoints.

Lemma checkAuth_run fuel s :
  AuthProvider.checkAuth net base eps fuel s =
  if present (stored (AuthProvider.world s) "access_token") then
    match getProfile net base eps fuel (AuthProvider.world s) with
    | Some (Ok u, w') =>
        Some (Ok tt, AuthProvider.mkApp w' u false (AuthProvider.pushed s))
    | Some (Throw e, w') =>
        Some (Ok tt,
              AuthProvider.mkApp
                (with_store (with_console w' "Auth check failed:" e)
                   (clear_slots <$> localStorage w'))
                (AuthProvider.user s) false (AuthProvider.pushed s))
    | None => None
    end
  else Some (Ok tt, AuthProvider.mkApp (AuthProvider.world s) (AuthProvider.user s)
                      false (AuthProvider.pushed s)).
Proof.
  unfold AuthProvider.checkAuth, AuthProvider.ptry_finally, AuthProvider.ptry_catch.
  rewrite pbind_service, isAuthenticated_run.
  destruct (present (stored (AuthProvider.world s) "access_token")); [|reflexivity].
  unfold AuthProvider.pbind, AuthProvider.fetchProfile.
  cbn [AuthProvider.world AuthProvider.user AuthProvider.loading AuthProvider.pushed].
  destruct (getProfile net base eps fuel (AuthProvider.world s)) as [[[u|e] w']|];
    [reflexivity| |reflexivity].
  rewrite service_run. unfold console_error at 1. cbn [fst snd].
  rewrite service_run. unfold console_error.
  cbn [AuthProvider.world AuthProvider.user AuthProvider.loading AuthProvider.pushed
       fst snd].
  by rewrite clearTokens_run.
Qed.

(** X22. [checkAuth] always completes normally within the bound of
    the profile call, never navigates, and always ends with the
    loading flag off. Without a usable access token it sends nothing
    and changes nothing else. With one it calls [getProfile]: on
    success the identity returned becomes the provider's identity; on
    failure the error is logged once, the three session slots are
    removed, and the provider's identity stays as it was. *)
Theorem checkAuth_settles fuel s :
  (present (stored (AuthProvider.world s) "access_token") = false →
   AuthProvider.checkAuth net base eps fuel s =
     Some (Ok tt, AuthProvider.mkApp (AuthProvider.world s) (AuthProvider.user s)
                    false (AuthProvider.pushed s))) ∧
  (present (stored (AuthProvider.world s) "access_token") = true →
   ∀ res w', getProfile net base eps fuel (AuthProvider.world s) = Some (res, w') →
   ∃ s', AuthProvider.checkAuth net base eps fuel s = Some (Ok tt, s') ∧
         AuthProvider.loading s' = false ∧
         AuthProvider.pushed s' = AuthProvider.pushed s ∧
         sent (AuthProvider.world s') = sent w' ∧
         match res with
         | Ok u =>
             AuthProvider.user s' = u ∧ AuthProvider.world s' = w'
         | Throw e =>
             AuthProvider.user s' = AuthProvider.user s ∧
             console (AuthProvider.world s')
               = (console w' ++ [("Auth check failed:", e)])%list ∧
             stored (AuthProvider.world s') "access_token" = None ∧
             stored (AuthProvider.world s') "refresh_token" = None ∧
             stored (AuthProvider.world s') "user" = None
         end).
Proof.
  rewrite checkAuth_run. split; intros Hauth; rewrite Hauth; [done|].
  intros res w' ->. destruct res as [u|e]; eexists; (split; [reflexivity|]);
    cbn [AuthProvider.world AuthProvider.user AuthProvider.loading AuthProvider.pushed];
    repeat split.
  all: by apply (cleared_slots_absent (with_console w' "Auth check failed:" e)).
Qed.

(** X23. Start-up without a session. When no usable access token is
    stored, or the profile call fails, the session check followed by
    the redirect effect leaves the provider without an identity, not
    loading and not authenticated, and navigates to the login page
    exactly when the current path is not a public one. *)
Theorem startup_without_session fuel w pathname :
  present (stored w "access_token") = false ∨
  (∃ e w', getProfile net base eps fuel w = Some (Throw e, w')) →
  ∃ s1 s2,
    AuthProvider.checkAuth net base eps fuel (AuthProvider.mounted w) = Some (Ok tt, s1) ∧
    AuthProvider.redirect pathname s1 = Some (Ok tt, s2) ∧
    AuthProvider.user s2 = JNull ∧ AuthProvider.loading s2 = false ∧
    isAuthenticated (AuthProvider.world s2) = (Ok false, AuthProvider.world s2) ∧
    AuthProvider.pushed s2 = if AuthProvider.isPublicPath pathname then [] else ["/login"].
Proof.
  intros Hcase. rewrite checkAuth_run. unfold AuthProvider.mounted.
  cbn [AuthProvider.world AuthProvider.user AuthProvider.loading AuthProvider.pushed].
  unfold AuthProvider.redirect, AuthProvider.router_push.
  destruct (present (stored w "access_token")) eqn:Hauth.
  - destruct Hcase as [|(e & w' & ->)]; [done|].
    assert (Ha : stored (with_store (with_console w' "Auth check failed:" e)
                           (clear_slots <$> localStorage w')) "access_token" = None).
    { by apply (cleared_slots_absent (with_console w' "Auth check failed:" e)). }
    destruct (AuthProvider.isPublicPath pathname) eqn:Hp;
      eexists; eexists; (split; [reflexivity|]);
      cbn [AuthProvider.world AuthProvider.user AuthProvider.loading AuthProvider.pushed
           JS.truthy negb andb];
      rewrite ?Hp; cbn [negb andb]; (split; [reflexivity|]);
      cbn [AuthProvider.world AuthProvider.user AuthProvider.loading AuthProvider.pushed];
      by rewrite isAuthenticated_run, Ha.
  - destruct (AuthProvider.isPublicPath pathname) eqn:Hp;
      eexists; eexists; (split; [reflexivity|]);
      cbn [AuthProvider.world AuthProvider.user AuthProvider.loading AuthProvider.pushed
           JS.truthy negb andb];
      rewrite ?Hp; cbn [negb andb]; (split; [reflexivity|]);
      cbn [AuthProvider.world AuthProvider.user AuthProvider.loading AuthProvider.pushed];
      by rewrite isAuthenticated_run, Hauth.
Qed.

(** X24. Start-up with a session. When a usable access token is
    stored and the profile call returns an identity, the session check
    followed by the redirect effect makes that identity the provider's
    and turns loading off. With an identity that is an object it
    navigates to the profile page exactly when the current path is a
    public one; the login page is only ever the target when the profile
    call has returned a falsy body. *)
Theorem startup_with_session fuel w pathname u w' :
  present (stored w "access_token") = true →
  getProfile net base eps fuel w = Some (Ok u, w') →
  ∃ s1 s2,
    AuthProvider.checkAuth net base eps fuel (AuthProvider.mounted w) = Some (Ok tt, s1) ∧
    AuthProvider.redirect pathname s1 = Some (Ok tt, s2) ∧
    AuthProvider.user s2 = u ∧ AuthProvider.loading s2 = false ∧
    AuthProvider.world s2 = w' ∧
    AuthProvider.pushed s2 =
      match JS.truthy u, AuthProvider.isPublicPath pathname with
      | true, true => ["/profile"]
      | false, false => ["/login"]
      | _, _ => []
      end.
Proof.
  intros Hauth Hget. rewrite checkAuth_run. unfold AuthProvider.mounted.
  cbn [AuthProvider.world AuthProvider.user AuthProvider.loading AuthProvider.pushed].
  rewrite Hauth, Hget. unfold AuthProvider.redirect, AuthProvider.router_push.
  destruct (JS.truthy u) eqn:Hu, (AuthProvider.isPublicPath pathname) eqn:Hp;
    eexists; eexists; (split; [reflexivity|]);
    cbn [AuthProvider.world AuthProvider.user AuthProvider.loading AuthProvider.pushed negb];
    rewrite ?Hu, ?Hp; cbn [negb andb]; by repeat split.
Qed.

(** What a [login] that returns has received and written. *)
Lemma login_ok_shape username password w data w' :
  login net base eps username password w = (Ok data, w') →
  ∃ r access refresh u,
    JSON.parse (text r) = Ok data ∧ JS.get data "user" = Ok u ∧
    w' = match localStorage w with
         | Some store =>
             with_store (with_sent w (login_request base eps username password))
               (Some (session_store access refresh u store))
         | None => with_sent w (login_request base eps username password)
         end.
Proof.
  rewrite login_fetch.
  destruct (net (sent w) _) as [r|] eqn:Hnet; [|discriminate].
  destruct (ok r) eqn:Hok; cbn [negb].
  - intros Hrun. unfold bind, json, lift in Hrun.
    destruct (JSON.parse (text r)) as [d|] eqn:Hj; [|discriminate].
    destruct (JS.get d "tokens") as [tokens|] eqn:Ht; [|discriminate].
    destruct (JS.get tokens "access") as [access|] eqn:Ha; [|discriminate].
    destruct (JS.get tokens "refresh") as [refresh|] eqn:Hr; [|discriminate].
    destruct (get_twice d "tokens" "user" tokens Ht) as [u Hu].
    generalize (login_success net base eps username password w r d tokens access
                  refresh u Hnet Hok Hj Ht Ha Hr Hu).
    rewrite login_fetch, Hnet, Hok. cbn [negb]. unfold bind, json, lift.
    rewrite Hj, Ht, Ha, Hr. rewrite Hrun. intros [= -> ->].
    exists r, access, refresh, u. by rewrite Hj.
  - destruct (failure_run (A := JSValue) r "Login failed"
                (with_sent w (login_request base eps username password)))
      as (e' & -> & _). discriminate.
Qed.

(** X25. The provider's [login] fails exactly when the service's
    does, with the same error, and then the provider keeps its
    identity and does not navigate. When the service returns, reading
    [user] from its result cannot fail: the provider takes that
    identity and navigates to the profile page, and in a browser the
    identity it holds is the one [getUser] reads from the cache,
    unless the response had no [user] at all or the identity holds a
    number beyond the range of a double. *)
Theorem provider_login_outcome username password s :
  let run := login net base eps username password (AuthProvider.world s) in
  ∃ s', AuthProvider.login net base eps username password s =
          Some (match fst run with Ok _ => Ok tt | Throw e => Throw e end, s') ∧
        AuthProvider.world s' = snd run ∧
        AuthProvider.loading s' = AuthProvider.loading s ∧
        match fst run with
        | Ok data =>
            JS.get data "user" = Ok (AuthProvider.user s') ∧
            AuthProvider.pushed s' = (AuthProvider.pushed s ++ ["/profile"])%list ∧
            (is_Some (localStorage (AuthProvider.world s)) →
             AuthProvider.user s' ≠ JUndefined →
             finite_numerals (AuthProvider.user s') = true →
             getUser (AuthProvider.world s')
               = (Ok (AuthProvider.user s'), AuthProvider.world s'))
        | Throw e =>
            AuthProvider.user s' = AuthProvider.user s ∧
            AuthProvider.pushed s' = AuthProvider.pushed s
        end.
Proof.
  cbv zeta. unfold AuthProvider.login. rewrite pbind_service.
  destruct (login net base eps username password (AuthProvider.world s))
    as [[data|e] w'] eqn:Hrun; cbn [fst snd].
  - destruct (login_ok_shape _ _ _ _ _ Hrun) as (r & access & refresh & u & Hj & Hu & Hw).
    unfold AuthProvider.pbind, AuthProvider.plift, AuthProvider.setUser,
      AuthProvider.router_push. rewrite Hu.
    cbn [AuthProvider.world AuthProvider.user AuthProvider.loading AuthProvider.pushed].
    eexists. split; [reflexivity|].
    cbn [AuthProvider.world AuthProvider.user AuthProvider.loading AuthProvider.pushed].
    repeat split. intros [store Hs] Hne _. rewrite Hs in Hw.
    apply (getUser_after_write w'
             (<["refresh_token" := JS.to_string refresh]>
                (<["access_token" := JS.to_string access]> store))).
    + exact (get_canonical data "user" u (parse_canonical _ _ Hj) Hu Hne).
    + by rewrite Hw.
  - eexists. split; [reflexivity|].
    cbn [AuthProvider.world AuthProvider.user AuthProvider.loading AuthProvider.pushed].
    by split.
Qed.

(** X26. A registration answered with a success response that
    carries no tokens still signs the user in as far as the provider
    is concerned: the identity of the response becomes the provider's
    and the profile page is navigated to, while the store is untouched
    and [isAuthenticated] answers what it did before. If that was
    false, the session check of the next start-up finds no session. *)
Theorem provider_register_without_tokens username email password password2
    first_name last_name s r data tokens :
  net (sent (AuthProvider.world s))
      (register_request base eps username email password password2 first_name last_name)
    = Resolved r →
  ok r = true → JSON.parse (text r) = Ok data →
  JS.get data "tokens" = Ok tokens → JS.truthy tokens = false →
  ∃ u s',
    JS.get data "user" = Ok u ∧
    AuthProvider.register net base eps username email password password2
      first_name last_name s = Some (Ok tt, s') ∧
    AuthProvider.user s' = u ∧
    AuthProvider.pushed s' = (AuthProvider.pushed s ++ ["/profile"])%list ∧
    localStorage (AuthProvider.world s') = localStorage (AuthProvider.world s) ∧
    isAuthenticated (AuthProvider.world s')
      = (Ok (present (stored (AuthProvider.world s) "access_token")),
         AuthProvider.world s') ∧
    (present (stored (AuthProvider.world s) "access_token") = false →
     ∀ fuel,
       AuthProvider.checkAuth net base eps fuel
         (AuthProvider.mounted (AuthProvider.world s'))
       = Some (Ok tt, AuthProvider.mkApp (AuthProvider.world s') JNull false [])).
Proof.
  intros Hnet Hok Hj Ht Hfalsy.
  destruct (get_twice data "tokens" "user" tokens Ht) as [u Hu].
  exists u. unfold AuthProvider.register. rewrite pbind_service.
  rewrite (register_success net base eps username email password password2
             first_name last_name (AuthProvider.world s) r data tokens Hnet Hok Hj Ht).
  rewrite Hfalsy.
  unfold AuthProvider.pbind, AuthProvider.plift, AuthProvider.setUser,
    AuthProvider.router_push. rewrite Hu.
  cbn [AuthProvider.world AuthProvider.user AuthProvider.loading AuthProvider.pushed].
  eexists. split; [reflexivity|]. split; [reflexivity|].
  cbn [AuthProvider.world AuthProvider.user AuthProvider.loading AuthProvider.pushed].
  do 3 (split; [reflexivity|]). split; [by rewrite isAuthenticated_run|].
  intros Hauth fuel. rewrite checkAuth_run. unfold AuthProvider.mounted.
  cbn [AuthProvider.world AuthProvider.user AuthProvider.loading AuthProvider.pushed].
  change (stored (with_sent (AuthProvider.world s) _) "access_token")
    with (stored (AuthProvider.world s) "access_token").
  by rewrite Hauth.
Qed.

(** X27. The provider's [logout] cannot fail, whatever the transport
    does: it always ends without an identity, with the three session
    slots removed and the login page as the last navigation; the
    redirect effect that follows on that page adds nothing. *)
Theorem provider_logout_signs_out s :
  ∃ s', AuthProvider.logout net base eps s = Some (Ok tt, s') ∧
        AuthProvider.user s' = JNull ∧
        AuthProvider.loading s' = AuthProvider.loading s ∧
        AuthProvider.pushed s' = (AuthProvider.pushed s ++ ["/login"])%list ∧
        stored (AuthProvider.world s') "access_token" = None ∧
        stored (AuthProvider.world s') "refresh_token" = None ∧
        stored (AuthProvider.world s') "user" = None ∧
        AuthProvider.redirect "/login" s' = Some (Ok tt, s').
Proof.
  unfold AuthProvider.logout. rewrite pbind_service, logout_run.
  unfold AuthProvider.pbind, AuthProvider.setUser, AuthProvider.router_push.
  cbn [AuthProvider.world AuthProvider.user AuthProvider.loading AuthProvider.pushed].
  eexists. split; [reflexivity|].
  cbn [AuthProvider.world AuthProvider.user AuthProvider.loading AuthProvider.pushed].
  split; [reflexivity|]. split; [reflexivity|]. split; [reflexivity|].
  set (w := AuthProvider.world s).
  assert (Hgone : ∀ w0, localStorage w0 = localStorage w →
            ∀ k, k = "access_token" ∨ k = "refresh_token" ∨ k = "user" →
                 stored (with_store w0 (clear_slots <$> localStorage w)) k = None).
  { intros w0 Hw0 k Hk.
    destruct (cleared_slots_absent w (with_store w0 (clear_slots <$> localStorage w))
                eq_refl) as (Ha & Hr & Hu).
    by destruct Hk as [-> | [-> | ->]]. }
  assert (Hall : ∀ k, k = "access_token" ∨ k = "refresh_token" ∨ k = "user" →
            stored match stored w "refresh_token" with
                   | Some t =>
                       if present (Some t) then
                         match net (sent w) (logout_request base eps w t) with
                         | Resolved _ =>
                             with_store (with_sent w (logout_request base eps w t))
                               (clear_slots <$> localStorage w)
                         | Rejected =>
                             with_store
                               (with_console (with_sent w (logout_request base eps w t))
                                  "Logout error:" NetworkError)
                               (clear_slots <$> localStorage w)
                         end
                       else with_store w (clear_slots <$> localStorage w)
                   | None => with_store w (clear_slots <$> localStorage w)
                   end k = None).
  { intros k Hk. destruct (stored w "refresh_token") as [t|]; [|by apply Hgone].
    destruct (present (Some t)); [|by apply Hgone].
    destruct (net _ _); by apply Hgone. }
  cbv zeta. rewrite !Hall by auto. repeat split.
  unfold AuthProvider.redirect.
  cbn [AuthProvider.world AuthProvider.user AuthProvider.loading AuthProvider.pushed
       JS.truthy negb andb].
  by destruct (AuthProvider.loading s).
Qed.

(** X28. The provider's [deleteAccount] fails exactly when the
    service's does, with the same error, and then the provider keeps
    its identity, does not navigate, and the stored session is still
    in place. When the service returns, the provider ends without an
    identity, with the three session slots removed and the login page
    as the last navigation. *)
Theorem provider_deleteAccount_outcome s :
  let run := deleteAccount net base eps (AuthProvider.world s) in
  ∃ s', AuthProvider.deleteAccount net base eps s = Some (fst run, s') ∧
        AuthProvider.world s' = snd run ∧
        AuthProvider.loading s' = AuthProvider.loading s ∧
        match fst run with
        | Ok _ =>
            AuthProvider.user s' = JNull ∧
            AuthProvider.pushed s' = (AuthProvider.pushed s ++ ["/login"])%list ∧
            stored (AuthProvider.world s') "access_token" = None ∧
            stored (AuthProvider.world s') "refresh_token" = None ∧
            stored (AuthProvider.world s') "user" = None
        | Throw e =>
            AuthProvider.user s' = AuthProvider.user s ∧
            AuthProvider.pushed s' = AuthProvider.pushed s ∧
            localStorage (AuthProvider.world s') = localStorage (AuthProvider.world s)
        end.
Proof.
  cbv zeta. unfold AuthProvider.deleteAccount. rewrite pbind_service.
  rewrite deleteAccount_fetch.
  set (w := AuthProvider.world s). set (w1 := with_sent w (delete_request base eps w)).
  destruct (net (sent w) _) as [r|].
  - destruct (ok r); cbn [negb].
    + rewrite clearTokens_run. cbn [fst snd].
      unfold AuthProvider.pbind, AuthProvider.setUser, AuthProvider.router_push.
      cbn [AuthProvider.world AuthProvider.user AuthProvider.loading AuthProvider.pushed].
      eexists. split; [reflexivity|].
      cbn [AuthProvider.world AuthProvider.user AuthProvider.loading AuthProvider.pushed].
      repeat split; by apply (cleared_slots_absent w1).
    + destruct (failure_run (A := unit) r "Account deletion failed" w1) as (e & -> & _).
      cbn [fst snd]. eexists. split; [reflexivity|]. by repeat split.
  - cbn [fst snd]. eexists. split; [reflexivity|]. by repeat split.
Qed.

(** X29. A [refreshUser] whose profile call fails raises that error
    and, unlike the session check, signs nobody out: the provider
    keeps its identity and does not navigate, and the store keeps its
    refresh token, its cached identity and an access token. *)
Theorem refreshUser_failure_keeps_session fuel s e w' :
  getProfile net base eps fuel (AuthProvider.world s) = Some (Throw e, w') →
  ∃ s', AuthProvider.refreshUser net base eps fuel s = Some (Throw e, s') ∧
        AuthProvider.world s' = w' ∧
        AuthProvider.user s' = AuthProvider.user s ∧
        AuthProvider.loading s' = AuthProvider.loading s ∧
        AuthProvider.pushed s' = AuthProvider.pushed s ∧
        stored w' "refresh_token" = stored (AuthProvider.world s) "refresh_token" ∧
        stored w' "user" = stored (AuthProvider.world s) "user" ∧
        (is_Some (stored (AuthProvider.world s) "access_token") →
         is_Some (stored w' "access_token")).
Proof.
  intros Hget. unfold AuthProvider.refreshUser, AuthProvider.pbind,
    AuthProvider.fetchProfile. rewrite Hget.
  destruct (getProfile_frame _ _ _ _ _ _ _ Hget) as (Hframe & Hkeep & Hfail).
  eexists. split; [reflexivity|].
  cbn [AuthProvider.world AuthProvider.user AuthProvider.loading AuthProvider.pushed].
  repeat split; [by apply Hframe|by apply (Hfail e)|by apply Hkeep].
Qed.

(** X30. Changing the profile or the password through the provider
    never navigates. A successful [updateProfile] makes the identity
    returned the provider's, and in a browser that identity is the one
    [getUser] reads from the cache, provided it holds no number beyond
    the range of a double; a failed one leaves identity and store alone.
    [changePassword] leaves the provider's identity and the whole store
    alone whatever happens. *)
Theorem provider_profile_changes data oldPassword newPassword newPassword2 s :
  let run := updateProfile net base eps data (AuthProvider.world s) in
  let run' := changePassword net base eps oldPassword newPassword newPassword2
                (AuthProvider.world s) in
  (∃ s', AuthProvider.updateProfile net base eps data s
           = Some (match fst run with Ok _ => Ok tt | Throw e => Throw e end, s') ∧
         AuthProvider.world s' = snd run ∧
         AuthProvider.pushed s' = AuthProvider.pushed s ∧
         AuthProvider.loading s' = AuthProvider.loading s ∧
         match fst run with
         | Ok u =>
             AuthProvider.user s' = u ∧
             (is_Some (localStorage (AuthProvider.world s)) →
              finite_numerals u = true →
              getUser (AuthProvider.world s') = (Ok u, AuthProvider.world s'))
         | Throw _ =>
             AuthProvider.user s' = AuthProvider.user s ∧
             localStorage (AuthProvider.world s') = localStorage (AuthProvider.world s)
         end) ∧
  (∃ s', AuthProvider.changePassword net base eps oldPassword newPassword newPassword2 s
           = Some (fst run', s') ∧
         AuthProvider.world s' = snd run' ∧
         AuthProvider.pushed s' = AuthProvider.pushed s ∧
         AuthProvider.loading s' = AuthProvider.loading s ∧
         AuthProvider.user s' = AuthProvider.user s ∧
         localStorage (AuthProvider.world s') = localStorage (AuthProvider.world s)).
Proof.
  cbv zeta. split.
  - unfold AuthProvider.updateProfile. rewrite pbind_service.
    set (w := AuthProvider.world s).
    pose proof (updateProfile_outcome net base eps data w) as Hout. cbv zeta in Hout.
    destruct (net (sent w) _) as [r|].
    + destruct (ok r).
      * destruct (JSON.parse (text r)) as [u|e] eqn:Hj; rewrite Hout; cbn [fst snd];
          (eexists; split; [reflexivity|]; repeat split).
        intros [store Hs] _. rewrite Hs.
        by apply (getUser_after_write _ store _ (parse_canonical _ _ Hj)).
      * destruct Hout as (e & -> & _). eexists. split; [reflexivity|]. by repeat split.
    + rewrite Hout. eexists. split; [reflexivity|]. by repeat split.
  - unfold AuthProvider.changePassword. rewrite service_run.
    eexists. split; [reflexivity|].
    cbn [AuthProvider.world AuthProvider.user AuthProvider.loading AuthProvider.pushed].
    do 4 (split; [reflexivity|]).
    rewrite changePassword_fetch. destruct (net _ _) as [r|]; [|done].
    destruct (ok r); cbn [negb]; [done|].
    by destruct (failure_run (A := unit) r "Password change failed"
                   (with_sent (AuthProvider.world s)
                      (password_request base eps (AuthProvider.world s)
                         oldPassword newPassword newPassword2))) as (e & -> & _).
Qed.

End ProviderProperties.
(** * The properties at work *)


Lemma setUser_getUser_roundtrip_witness :
  ∃ w', setUser Scenario.alice (Scenario.browser Scenario.session) = (Ok tt, w') ∧
        getUser w' = (Ok Scenario.alice, w') ∧
        stored w' "access_token" = Some "A1" ∧
        stored w' "refresh_token" = Some "R1".
Proof.
  apply (setUser_getUser_roundtrip (Scenario.body_of Scenario.alice) Scenario.alice
           (Scenario.browser Scenario.session) Scenario.session);
    vm_compute; reflexivity.
Defined.

Lemma store_inert_without_window_witness :
  setTokens (JStr "A1") (JStr "R1") Scenario.server_side = (Ok tt, Scenario.server_side) ∧
  setUser Scenario.alice Scenario.server_side = (Ok tt, Scenario.server_side) ∧
  clearTokens Scenario.server_side = (Ok tt, Scenario.server_side) ∧
  getAccessToken Scenario.server_side = (Ok None, Scenario.server_side) ∧
  getRefreshToken Scenario.server_side = (Ok None, Scenario.server_side) ∧
  getUser Scenario.server_side = (Ok JNull, Scenario.server_side) ∧
  isAuthenticated Scenario.server_side = (Ok false, Scenario.server_side) ∧
  getHeaders true Scenario.server_side
    = (Ok [("Content-Type", "application/json")], Scenario.server_side).
Proof.
  exact (store_inert_without_window (JStr "A1") (JStr "R1") Scenario.alice
           Scenario.server_side eq_refl).
Defined.


Lemma updateProfile_caches_identity_witness :
  let net := Scenario.constant 200 (Scenario.body_of Scenario.alice) in
  let w := Scenario.browser Scenario.session in
  let data := JObj [("first_name", JStr "Alice")] in
  ∃ w', updateProfile net Scenario.base Scenario.eps data w = (Ok Scenario.alice, w') ∧
        localStorage w'
          = Some (<["user" := JS.to_string (stringified Scenario.alice)]> Scenario.session) ∧
        getUser w' = (Ok Scenario.alice, w').
Proof.
  cbv zeta.
  apply (updateProfile_caches_identity
           (Scenario.constant 200 (Scenario.body_of Scenario.alice))
           Scenario.base Scenario.eps (JObj [("first_name", JStr "Alice")])
           (Scenario.browser Scenario.session) Scenario.session
           (mkResponse 200 (Scenario.body_of Scenario.alice)) Scenario.alice);
    vm_compute; reflexivity.
Defined.

Lemma refresh_failure_keeps_store_witness :
  let net := Scenario.constant 401
               (Scenario.body_of (JObj [("detail", JStr "Token expired")])) in
  let w := Scenario.browser Scenario.session in
  let w' := snd (refreshAccessToken net Scenario.base Scenario.eps w) in
  refreshAccessToken net Scenario.base Scenario.eps w = (Ok false, w') ∧
  localStorage w' = localStorage w ∧
  stored w' "access_token" = stored w "access_token" ∧
  stored w' "refresh_token" = stored w "refresh_token".
Proof.
  cbv zeta. split; [vm_compute; reflexivity|].
  apply (refresh_failure_keeps_store
           (Scenario.constant 401
              (Scenario.body_of (JObj [("detail", JStr "Token expired")])))
           Scenario.base Scenario.eps (Scenario.browser Scenario.session)).
  vm_compute; reflexivity.
Defined.

Lemma refresh_installs_bearer_witness :
  let w := Scenario.browser Scenario.session in
  ∃ w', refreshAccessToken Scenario.always_expired Scenario.base Scenario.eps w
          = (Ok true, w') ∧
        isAuthenticated w' = (Ok true, w') ∧
        getHeaders true w' =
          (Ok [("Content-Type", "application/json"); ("Authorization", "Bearer A2")], w').
Proof.
  cbv zeta.
  apply (refresh_installs_bearer Scenario.always_expired Scenario.base Scenario.eps
           (Scenario.browser Scenario.session) "R1" Scenario.fresh_token "A2");
    try (vm_compute; reflexivity).
  discriminate.
Defined.

Lemma getProfile_store_frame_witness :
  let net := Scenario.expiring 1 in
  let w := Scenario.browser Scenario.session in
  let w' := default w (snd <$> getProfile net Scenario.base Scenario.eps 2 w) in
  getProfile net Scenario.base Scenario.eps 2 w = Some (Ok Scenario.alice, w') ∧
  stored w' "refresh_token" = stored w "refresh_token" ∧
  is_Some (stored w' "access_token").
Proof.
  cbv zeta.
  destruct (getProfile_store_frame (Scenario.expiring 1) Scenario.base Scenario.eps 2
              (Scenario.browser Scenario.session) (Ok Scenario.alice)
              (default (Scenario.browser Scenario.session)
                 (snd <$> getProfile (Scenario.expiring 1) Scenario.base Scenario.eps 2
                            (Scenario.browser Scenario.session))))
    as (Hframe & Hkeep & _); [vm_compute; reflexivity|].
  split; [vm_compute; reflexivity|]. split.
  - apply Hframe; discriminate.
  - apply Hkeep. by eexists.
Defined.


Lemma startup_without_session_witness :
  ∃ s1 s2,
    AuthProvider.checkAuth Scenario.offline Scenario.base Scenario.eps 1
      (AuthProvider.mounted (Scenario.browser Scenario.session)) = Some (Ok tt, s1) ∧
    AuthProvider.redirect "/dashboard" s1 = Some (Ok tt, s2) ∧
    AuthProvider.user s2 = JNull ∧ AuthProvider.loading s2 = false ∧
    isAuthenticated (AuthProvider.world s2) = (Ok false, AuthProvider.world s2) ∧
    AuthProvider.pushed s2 = ["/login"].
Proof.
  apply (startup_without_session Scenario.offline Scenario.base Scenario.eps 1
           (Scenario.browser Scenario.session) "/dashboard").
  right. eexists. eexists. vm_compute. reflexivity.
Defined.

Lemma startup_with_session_witness :
  let net := Scenario.expiring 1 in
  let w := Scenario.browser Scenario.session in
  let w' := default w (snd <$> getProfile net Scenario.base Scenario.eps 2 w) in
  ∃ s1 s2,
    AuthProvider.checkAuth net Scenario.base Scenario.eps 2 (AuthProvider.mounted w)
      = Some (Ok tt, s1) ∧
    AuthProvider.redirect "/login" s1 = Some (Ok tt, s2) ∧
    AuthProvider.user s2 = Scenario.alice ∧ AuthProvider.loading s2 = false ∧
    AuthProvider.world s2 = w' ∧
    AuthProvider.pushed s2 = ["/profile"].
Proof.
  cbv zeta.
  apply (startup_with_session (Scenario.expiring 1) Scenario.base Scenario.eps 2
           (Scenario.browser Scenario.session) "/login" Scenario.alice);
    vm_compute; reflexivity.
Defined.

Lemma provider_register_without_tokens_witness :
  let data := JObj [("message", JStr "created"); ("user", Scenario.alice)] in
  let net := Scenario.constant 201 (Scenario.body_of data) in
  let s := AuthProvider.mounted (Scenario.browser ∅) in
  ∃ s',
    AuthProvider.register net Scenario.base Scenario.eps "alice" "alice@example.org"
      "pw" "pw" None None s = Some (Ok tt, s') ∧
    AuthProvider.user s' = Scenario.alice ∧
    AuthProvider.pushed s' = ["/profile"] ∧
    isAuthenticated (AuthProvider.world s') = (Ok false, AuthProvider.world s').
Proof.
  cbv zeta.
  destruct (provider_register_without_tokens
              (Scenario.constant 201
                 (Scenario.body_of
                    (JObj [("message", JStr "created"); ("user", Scenario.alice)])))
              Scenario.base Scenario.eps "alice" "alice@example.org" "pw" "pw" None None
              (AuthProvider.mounted (Scenario.browser ∅))
              (mkResponse 201
                 (Scenario.body_of
                    (JObj [("message", JStr "created"); ("user", Scenario.alice)])))
              (JObj [("message", JStr "created"); ("user", Scenario.alice)])
              JUndefined)
    as (u & s' & Hu & Hrun & Huser & Hpush & _ & Hauth & _);
    try (vm_compute; reflexivity).
  exists s'. injection Hu as <-. exact (conj Hrun (conj Huser (conj Hpush Hauth))).
Defined.

Lemma refreshUser_failure_keeps_session_witness :
  let net := Scenario.constant 500 "oops" in
  let s := AuthProvider.mkApp (Scenario.browser Scenario.session) Scenario.alice false [] in
  ∃ s', AuthProvider.refreshUser net Scenario.base Scenario.eps 1 s
          = Some (Throw (Error "Failed to fetch profile"), s') ∧
        AuthProvider.user s' = Scenario.alice ∧
        AuthProvider.pushed s' = [] ∧
        stored (AuthProvider.world s') "refresh_token" = Some "R1" ∧
        is_Some (stored (AuthProvider.world s') "access_token").
Proof.
  cbv zeta.
  destruct (refreshUser_failure_keeps_session (Scenario.constant 500 "oops")
              Scenario.base Scenario.eps 1
              (AuthProvider.mkApp (Scenario.browser Scenario.session) Scenario.alice
                 false [])
              (Error "Failed to fetch profile")
              (with_sent (Scenario.browser Scenario.session)
                 (profile_request Scenario.base Scenario.eps
                    (Scenario.browser Scenario.session))))
    as (s' & Hrun & Hw & Hu & _ & Hp & Hr & _ & Ha); [vm_compute; reflexivity|].
  exists s'. rewrite Hw. split; [exact Hrun|]. split; [exact Hu|]. split; [exact Hp|].
  split; [exact Hr|]. apply Ha. by eexists.
Defined.
